(** * The local replica synchronisation scripts of sencity_backend

    A shallow embedding of the three PowerShell scripts kept in
    [scripts/install_hooks.ps1]: the hook installer and the two copies of
    [sync_db.ps1], the older one with Korean messages (variant 1 below,
    which needs the ternary operator of PowerShell 7) and the PowerShell 5.1
    compatible one (variant 2).

    How the scripts are read:
    - text is [string], a sequence of 8-bit characters; [-eq], [-ne],
      [-match] and [Select-String] ignore the case of the letters A to Z;
    - the file system is a finite map from full paths to nodes, and every
      path the scripts use is built with [Join-Path] from the repository
      root or from [$env:TEMP]; [Join-Path] refuses an empty path, which
      ends a sync run whose [$env:TEMP] is unset; the installer joins under
      the parent of its own directory or under what git prints, which are
      taken to be paths;
    - what a script asks of its surroundings (git, the release store, the
      clock, the line terminator of the platform, which file cmdlets fail)
      is a record of oracles, [World];
    - a script is a computation in a state and failure monad over the file
      system and a log of the requests it sends; under
      [$ErrorActionPreference = "Stop"] a cmdlet that fails ends the run,
      and it leaves the file system as it found it ([Move-Item] is one
      step);
    - [Write-Host], [Set-Location] (every path is absolute) and the TLS
      setting have no part in what is proved and are left out;
    - a value that may be [$null] is an [option]: [Get-Content -Raw] of an
      empty file is [$null], a string is never [-eq] to [$null], and a
      method call on [$null] ends the run;
    - the hash function behind [Get-FileHash] is a parameter. *)

From Stdlib Require Import Ascii String List Bool Arith Lia.
From stdpp Require Import base option gmap strings.


Local Open Scope bool_scope.

(** ** .NET characters and strings *)

Module Net.

(** [Char.IsWhiteSpace] on the 7-bit range: U+0009..U+000D and U+0020. *)
Definition IsWhiteSpace (c : ascii) : bool :=
  let n := nat_of_ascii c in
  (((9 <=? n) && (n <=? 13)) || (n =? 32))%nat.

Definition ToLowerChar (c : ascii) : ascii :=
  let n := nat_of_ascii c in
  if ((65 <=? n) && (n <=? 90))%nat then ascii_of_nat (n + 32) else c.

(** [String.ToLower()]. *)
Fixpoint ToLower (s : string) : string :=
  match s with
  | EmptyString => EmptyString
  | String c s' => String (ToLowerChar c) (ToLower s')
  end.

Fixpoint TrimStart (s : string) : string :=
  match s with
  | EmptyString => EmptyString
  | String c s' => if IsWhiteSpace c then TrimStart s' else s
  end.

Fixpoint TrimEnd (s : string) : string :=
  match s with
  | EmptyString => EmptyString
  | String c s' =>
      match TrimEnd s' with
      | EmptyString => if IsWhiteSpace c then EmptyString else String c EmptyString
      | t => String c t
      end
  end.

(** [String.Trim()]: strips white space at both ends. *)
Definition Trim (s : string) : string := TrimEnd (TrimStart s).

(** [s.Split(" ")[0]]: the text before the first blank. *)
Fixpoint SplitFirst (s : string) : string :=
  match s with
  | EmptyString => EmptyString
  | String c s' => if Ascii.eqb c " " then EmptyString else String c (SplitFirst s')
  end.

Definition CR : ascii := "013".
Definition LF : ascii := "010".

(** The segments between line terminators (LF, CR LF, CR); the last segment
    is what follows the last terminator. *)
Fixpoint segments (s : string) : list string :=
  match s with
  | EmptyString => [EmptyString]
  | String c s' =>
      if Ascii.eqb c LF then EmptyString :: segments s'
      else if Ascii.eqb c CR then
        match s' with
        | String d s'' =>
            if Ascii.eqb d LF then EmptyString :: segments s''
            else EmptyString :: segments s'
        | EmptyString => EmptyString :: segments s'
        end
      else
        match segments s' with
        | l :: ls => String c l :: ls
        | [] => [String c EmptyString]
        end
  end.

Fixpoint drop_last_empty (l : list string) : list string :=
  match l with
  | [] => []
  | [x] => if String.eqb x "" then [] else [x]
  | x :: l' => x :: drop_last_empty l'
  end.

(** [StreamReader.ReadLine] until the end of the text: a final terminator
    does not open a further line, and the empty text has no line. *)
Definition ReadLines (s : string) : list string := drop_last_empty (segments s).

End Net.

(** ** PowerShell operators *)

Module PS.

(** [-eq] on strings ignores case. *)
Definition eq (a b : string) : bool := String.eqb (Net.ToLower a) (Net.ToLower b).
Definition ne (a b : string) : bool := negb (eq a b).

(** [$a -eq $b] where [$b] is a string or [$null]: no string is [-eq] to
    [$null]. *)
Definition eq_or_null (a : string) (b : option string) : bool :=
  match b with
  | Some s => eq a s
  | None => false
  end.

(** A string in a condition is true when it is not empty. *)
Definition truthy (s : string) : bool := negb (String.eqb s "").

(** ** Regular expressions, as [-match] and [Select-String] run them:
    backtracking, leftmost start, greedy repetition, case ignored. *)

Inductive regex : Type :=
| rEps
| rChr (p : ascii -> bool)
| rSeq (r1 r2 : regex)
| rAlt (r1 r2 : regex)
| rStar (r : regex)
| rGroup (name : string) (r : regex)
| rBol
| rEol.

Definition captures := list (string * string).

Section Matcher.
Context {A : Type}.

(** Greedy repetition of [step]: as many rounds as succeed, each of which
    must consume text, then [k]; one round fewer when what follows fails. *)
Fixpoint star_loop
    (step : nat -> string -> captures -> (nat -> string -> captures -> option A) -> option A)
    (k : nat -> string -> captures -> option A)
    (fuel i : nat) (s : string) (cs : captures) {struct fuel} : option A :=
  match fuel with
  | O => k i s cs
  | S fuel' =>
      match step i s cs
              (fun i' s' cs' =>
                 if (i <? i')%nat then star_loop step k fuel' i' s' cs' else None) with
      | Some v => Some v
      | None => k i s cs
      end
  end.

(** [rx r i s cs k]: match [r] at offset [i] of the subject, [s] being the
    text from there on; [k] continues with what follows the match. *)
Fixpoint rx (r : regex) (i : nat) (s : string) (cs : captures)
    (k : nat -> string -> captures -> option A) {struct r} : option A :=
  match r with
  | rEps => k i s cs
  | rChr p =>
      match s with
      | String c s' => if p c then k (S i) s' cs else None
      | EmptyString => None
      end
  | rSeq r1 r2 => rx r1 i s cs (fun i' s' cs' => rx r2 i' s' cs' k)
  | rAlt r1 r2 =>
      match rx r1 i s cs k with
      | Some v => Some v
      | None => rx r2 i s cs k
      end
  | rStar r1 => star_loop (rx r1) k (String.length s) i s cs
  | rGroup name r1 =>
      rx r1 i s cs (fun i' s' cs' => k i' s' ((name, substring 0 (i' - i) s) :: cs'))
  | rBol => if (i =? 0)%nat then k i s cs else None
  | rEol =>
      match s with
      | EmptyString => k i s cs
      | String c EmptyString => if Ascii.eqb c Net.LF then k i s cs else None
      | _ => None
      end
  end.
End Matcher.

(** The leftmost match: the whole match is group ["0"]. *)
Fixpoint search_from (r : regex) (i : nat) (s : string) : option captures :=
  match rx (rGroup "0" r) i s [] (fun _ _ cs => Some cs) with
  | Some cs => Some cs
  | None =>
      match s with
      | EmptyString => None
      | String _ s' => search_from r (S i) s'
      end
  end.

Definition search (r : regex) (s : string) : option captures := search_from r 0 s.

Fixpoint group (name : string) (cs : captures) : string :=
  match cs with
  | [] => ""
  | (n, v) :: cs' => if String.eqb n name then v else group name cs'
  end.

(** Pattern syntax. *)
Definition rLit (c : ascii) : regex :=
  rChr (fun x => Ascii.eqb (Net.ToLowerChar x) (Net.ToLowerChar c)).

Fixpoint rStr (s : string) : regex :=
  match s with
  | EmptyString => rEps
  | String c s' => rSeq (rLit c) (rStr s')
  end.

Definition rPlus (r : regex) : regex := rSeq r (rStar r).
Definition rOpt (r : regex) : regex := rAlt r rEps.

Fixpoint rRep (n : nat) (r : regex) : regex :=
  match n with
  | O => rEps
  | S n' => rSeq r (rRep n' r)
  end.

Definition one_of (cs : string) (c : ascii) : bool :=
  existsb (fun x => Ascii.eqb (Net.ToLowerChar x) (Net.ToLowerChar c)) (list_ascii_of_string cs).

Definition none_of (cs : string) (c : ascii) : bool := negb (one_of cs c).

(** [[0-9a-f]] with case ignored, which is [[0-9a-fA-F]]. *)
Definition hex (c : ascii) : bool :=
  let n := nat_of_ascii c in
  (((48 <=? n) && (n <=? 57)) || ((97 <=? n) && (n <=? 102)) || ((65 <=? n) && (n <=? 70)))%nat.

End PS.

(** ** The surroundings of a script *)

(** A node of the file system. *)
Inductive Node : Type :=
| File (content : string)
| Directory.

Record Asset : Type := mkAsset {
  name : string;
  browser_download_url : string
}.

(** The answer of the release store to [releases/latest]. *)
Record Release : Type := mkRelease {
  tag_name : string;
  assets : list Asset
}.

Record DateTime : Type := mkDateTime {
  year : nat; month : nat; day : nat;
  hour : nat; minute : nat; second : nat
}.

Inductive Cmdlet : Type := CopyItem | MoveItem | SetContent.

(** What a run finds around it.  [git_*] are the outputs of the two git
    commands ([None]: no output), [Invoke_RestMethod] and [Invoke_WebRequest]
    answer by headers and URI ([None]: the cmdlet throws), [fault] tells
    which file cmdlets fail on which path (locked, read-only, disk full). *)
Record World : Type := mkWorld {
  PSScriptRoot : string;
  TEMP : string;
  GITHUB_TOKEN : string;
  git_toplevel : option string;
  git_remote_origin_url : option string;
  Invoke_RestMethod : list (string * string) -> string -> option Release;
  Invoke_WebRequest : list (string * string) -> string -> option string;
  Get_Date : DateTime;
  NewLine : string;
  fault : Cmdlet -> string -> bool
}.

(** Requests that leave the process. *)
Inductive Request : Type :=
| GitRemoteQuery
| ReleaseQuery (uri : string)
| AssetDownload (uri : string).

Record State : Type := mkState {
  fs : gmap string Node;
  log : list Request
}.

(** The error taxonomy, one constructor per throw site of the scripts;
    [RuntimeError] is any other terminating error of a cmdlet or method. *)
Inductive Error : Type :=
| ConfigurationError
| RemoteUnavailableError
| AssetNotFoundError
| DownloadError
| IntegrityError
| EnvironmentError
| RuntimeError (what : string).

Inductive Result (A : Type) : Type :=
| Ok (a : A)
| Exit (code : nat)
| Throw (e : Error).
Arguments Ok {A} a.
Arguments Exit {A} code.
Arguments Throw {A} e.

(** A script statement: state in, result and state out. *)
Definition Script (A : Type) : Type := State -> Result A * State.

Definition ret {A} (a : A) : Script A := fun st => (Ok a, st).
Definition bind {A B} (m : Script A) (f : A -> Script B) : Script B :=
  fun st =>
    match m st with
    | (Ok a, st') => f a st'
    | (Exit c, st') => (Exit c, st')
    | (Throw e, st') => (Throw e, st')
    end.
Definition throw {A} (e : Error) : Script A := fun st => (Throw e, st).
Definition exit {A} (code : nat) : Script A := fun st => (Exit code, st).

#[global] Instance Script_ret : MRet Script := @ret.
#[global] Instance Script_bind : MBind Script := fun A B f m => bind m f.

Definition when (b : bool) (m : Script unit) : Script unit :=
  if b then m else ret tt.

(** The process exit code of a run. *)
Definition exit_code {A} (r : Result A) : nat :=
  match r with
  | Ok _ => 0
  | Exit c => c
  | Throw _ => 1
  end.

(** ** Cmdlets *)

(** The path [Join-Path a b] answers with, [a] being a path. *)
Definition Join_Path (a b : string) : string := a +:+ "\" +:+ b.

(** [Join-Path a b] in the sync scripts, where [a] may be missing ([$env:TEMP]
    unset): the cmdlet does not bind an empty text or [$null] to [-Path], and
    the statement fails. *)
Definition Join_Path_checked (a b : string) : Script string :=
  if PS.truthy a then ret (Join_Path a b) else throw (RuntimeError "Join-Path").

Definition is_separator (c : ascii) : bool := Ascii.eqb c "\" || Ascii.eqb c "/".

Fixpoint parent_go (s : string) : option string :=
  match s with
  | EmptyString => None
  | String c s' =>
      match parent_go s' with
      | Some p => Some (String c p)
      | None => if is_separator c then Some EmptyString else None
      end
  end.

(** [Split-Path -Parent]: the path without its last component. *)
Definition Split_Path_Parent (s : string) : string := default "" (parent_go s).

Definition exists_at (m : gmap string Node) (p : string) : bool :=
  match m !! p with
  | Some _ => true
  | None => false
  end.

Definition Test_Path (p : string) : Script bool :=
  fun st => (Ok (exists_at (fs st) p), st).

(** [Get-Content -Raw]: the whole text of a file; of an empty file,
    [$null]. *)
Definition Get_Content_Raw (p : string) : Script (option string) :=
  fun st =>
    match fs st !! p with
    | Some (File c) => (Ok (if PS.truthy c then Some c else None), st)
    | _ => (Throw (RuntimeError "Get-Content"), st)
    end.

(** A method call [$x.M()]: on [$null] it ends the run. *)
Definition method {A} (x : option string) (M : string -> A) : Script A :=
  match x with
  | Some s => ret (M s)
  | None => throw (RuntimeError "null-valued expression")
  end.

(** [Get-Content]: the lines of a file; no line at all is [$null]. *)
Definition Get_Content (p : string) : Script (list string) :=
  fun st =>
    match fs st !! p with
    | Some (File c) => (Ok (Net.ReadLines c), st)
    | _ => (Throw (RuntimeError "Get-Content"), st)
    end.

Definition write_file (p : string) (c : string) (st : State) : State :=
  mkState (<[p := File c]> (fs st)) (log st).

Section Cmdlets.
Variable w : World.

(** [Set-Content -Path p -Value v]: the file becomes [v] and a line
    terminator, whatever it held. *)
Definition Set_Content (p v : string) : Script unit :=
  fun st =>
    if fault w SetContent p then (Throw (RuntimeError "Set-Content"), st)
    else
      match fs st !! p with
      | Some Directory => (Throw (RuntimeError "Set-Content"), st)
      | _ => (Ok tt, write_file p (v +:+ NewLine w) st)
      end.

(** [Copy-Item src dst]: [dst] is created or overwritten. *)
Definition Copy_Item (src dst : string) : Script unit :=
  fun st =>
    if fault w CopyItem dst then (Throw (RuntimeError "Copy-Item"), st)
    else
      match fs st !! src with
      | Some n => (Ok tt, mkState (<[dst := n]> (fs st)) (log st))
      | None => (Throw (RuntimeError "Copy-Item"), st)
      end.

(** [Move-Item -Force src dst]: one step; [dst] is overwritten. *)
Definition Move_Item_Force (src dst : string) : Script unit :=
  fun st =>
    if fault w MoveItem dst then (Throw (RuntimeError "Move-Item"), st)
    else
      match fs st !! src with
      | Some n => (Ok tt, mkState (<[dst := n]> (delete src (fs st))) (log st))
      | None => (Throw (RuntimeError "Move-Item"), st)
      end.

(** [Remove-Item -Force p -ErrorAction SilentlyContinue]. *)
Definition Remove_Item_Force_Silently (p : string) : Script unit :=
  fun st => (Ok tt, mkState (delete p (fs st)) (log st)).

(** [Invoke-WebRequest -Headers h -Uri uri -OutFile p]. *)
Definition Invoke_WebRequest_OutFile (h : list (string * string)) (uri p : string)
    : Script unit :=
  fun st =>
    let st' := mkState (fs st) (log st ++ [AssetDownload uri]) in
    match Invoke_WebRequest w h uri with
    | Some body => (Ok tt, write_file p body st')
    | None => (Throw DownloadError, st')
    end.

Definition git_config_get_remote_origin_url : Script (option string) :=
  fun st => (Ok (git_remote_origin_url w), mkState (fs st) (log st ++ [GitRemoteQuery])).

Definition digit (n : nat) : ascii := ascii_of_nat (48 + n mod 10).
Definition pad2 (n : nat) : string :=
  String (digit (n / 10)) (String (digit n) EmptyString).
Definition pad4 (n : nat) : string := pad2 (n / 100) +:+ pad2 n.

(** [Get-Date -Format "yyyyMMdd-HHmmss"]. *)
Definition Format_yyyyMMdd_HHmmss (d : DateTime) : string :=
  pad4 (year d) +:+ pad2 (month d) +:+ pad2 (day d) +:+ "-" +:+
  pad2 (hour d) +:+ pad2 (minute d) +:+ pad2 (second d).
End Cmdlets.

(** ** The scripts *)

Definition dq : string := String "034" EmptyString.

Fixpoint foreach {A} (l : list A) (body : A -> Script unit) : Script unit :=
  match l with
  | [] => mret tt
  | x :: l' => body x;; foreach l' body
  end.

(** [$rel.assets | Where-Object { $_.name -eq $n } | Select-Object -First 1] *)
Definition find_asset (rel : Release) (n : string) : option Asset :=
  find (fun a => PS.eq (name a) n) (assets rel).

Module Patterns.
Import PS.

(** ["github\.com[:/](?<owner>[^/]+)/(?<repo>[^/.]+)(\.git)?$"] *)
Definition git_remote : regex :=
  rSeq (rStr "github.com")
 (rSeq (rChr (one_of ":/"))
 (rSeq (rGroup "owner" (rPlus (rChr (none_of "/"))))
 (rSeq (rLit "/")
 (rSeq (rGroup "repo" (rPlus (rChr (none_of "/."))))
 (rSeq (rOpt (rGroup "1" (rStr ".git")))
       rEol))))).

(** ["^[0-9a-f]{64}$"] *)
Definition exact_digest : regex := rSeq rBol (rSeq (rRep 64 (rChr hex)) rEol).

(** ["[0-9a-fA-F]{64}"] *)
Definition any_digest : regex := rRep 64 (rChr hex).
End Patterns.

(** [$s -match $r]. *)
Definition matches (s : string) (r : PS.regex) : bool :=
  match PS.search r s with
  | Some _ => true
  | None => false
  end.

(** [Select-String -Pattern r | Select-Object -First 1], then
    [.Matches[0].Value]: the first match of the first line that has one. *)
Fixpoint Select_String_First (r : PS.regex) (lines : list string) : option string :=
  match lines with
  | [] => None
  | l :: ls =>
      match PS.search r l with
      | Some cs => Some (PS.group "0" cs)
      | None => Select_String_First r ls
      end
  end.

(** [Parse-GitRemote], the same function in both copies of [sync_db.ps1];
    a [$null] argument is bound to the empty string. *)
Definition Parse_GitRemote (url : string) : string * string :=
  match PS.search Patterns.git_remote url with
  | Some m => (PS.group "owner" m, PS.group "repo" m)
  | None => ("", "")
  end.

Record Params : Type := mkParams {
  Owner : string;
  Repo : string;
  AssetName : string;
  ShaAssetName : string
}.

Definition default_params : Params :=
  mkParams "" "" "db_release.sqlite3" "db_release.sha256.txt".

Section Scripts.
(** [Get-FileHash -Algorithm SHA256] on a text: the digest in upper-case
    hexadecimal. *)
Variable SHA256 : string -> string.
Variable w : World.

Definition Get_FileHash_SHA256 (p : string) : Script string :=
  fun st =>
    match fs st !! p with
    | Some (File c) => (Ok (SHA256 c), st)
    | _ => (Throw (RuntimeError "Get-FileHash"), st)
    end.

(** *** install_hooks.ps1 *)

Definition bat : string :=
  "@echo off" +:+ NewLine w +:+
  "REM Auto-sync DB from latest GitHub Release on checkout/merge/rewrite" +:+ NewLine w +:+
  "REM Uses PowerShell to run scripts\sync_db.ps1" +:+ NewLine w +:+
  "powershell -NoProfile -ExecutionPolicy Bypass -File " +:+
    dq +:+ "%~dp0..\..\scripts\sync_db.ps1" +:+ dq +:+ NewLine w +:+
  "exit /b 0".

Definition targets : list string :=
  ["post-checkout.bat"; "post-merge.bat"; "post-rewrite.bat"].

Definition install_hooks : Script unit :=
  let repoRoot := Split_Path_Parent (PSScriptRoot w) in
  has_git ← Test_Path (Join_Path repoRoot ".git");
  repoRoot ← (if negb has_git then
                match git_toplevel w with
                | Some out => mret (Net.Trim out)
                | None => throw EnvironmentError
                end
              else mret repoRoot);
  let hooks := Join_Path repoRoot ".git\hooks" in
  has_hooks ← Test_Path hooks;
  when (negb has_hooks) (throw EnvironmentError);;
  foreach targets (fun t =>
    let p := Join_Path hooks t in
    Set_Content w p bat).

(** *** What both copies of sync_db.ps1 share *)

Definition release_uri (owner repo : string) : string :=
  "https://api.github.com/repos/" +:+ owner +:+ "/" +:+ repo +:+ "/releases/latest".

Definition release_headers : list (string * string) :=
  ("Accept", "application/vnd.github+json") ::
  (if PS.truthy (GITHUB_TOKEN w)
   then [("Authorization", "Bearer " +:+ GITHUB_TOKEN w)] else []).

Definition octet_headers : list (string * string) :=
  [("Accept", "application/octet-stream")].

(** [Invoke-RestMethod] inside [try]; the handler ends the run. *)
Definition fetch_latest_release (owner repo : string) : Script Release :=
  fun st =>
    let uri := release_uri owner repo in
    let st' := mkState (fs st) (log st ++ [ReleaseQuery uri]) in
    match Invoke_RestMethod w release_headers uri with
    | Some rel => (Ok rel, st')
    | None => (Throw RemoteUnavailableError, st')
    end.

(** "Backup then replace", the last five lines of both copies. *)
Definition backup_then_replace (targetDb versionFile tmpDownload remoteTag : string)
    : Script unit :=
  has_db ← Test_Path targetDb;
  when (has_db : bool) (
    let ts := Format_yyyyMMdd_HHmmss (Get_Date w) in
    Copy_Item w targetDb (targetDb +:+ ".bak." +:+ ts));;
  Move_Item_Force w tmpDownload targetDb;;
  Set_Content w versionFile remoteTag.

(** *** sync_db.ps1, variant 1 (ternary operator, Korean messages)

    [Write-Error] under [$ErrorActionPreference = "Stop"] ends the run
    with a terminating error, so the [exit 1] after it is not reached;
    [exit 0] of the short-circuit is reached. *)

(** [Get-RepoRoot]: the output of [git rev-parse --show-toplevel]; with no
    output [$root] is [$null] and [Set-Location] ends the run. *)
Definition Get_RepoRoot_v1 : Script string :=
  match git_toplevel w with
  | Some root => mret root
  | None => throw (RuntimeError "Set-Location")
  end.

(** [(Get-Content $shaTmp).Split(" ")[0].Trim()]; a method call on
    [$null] (a file without lines) ends the run. *)
Definition expected_v1 (shaTmp : string) : Script string :=
  lines ← Get_Content shaTmp;
  match lines with
  | [] => throw (RuntimeError "null-valued expression")
  | l :: _ => mret (Net.Trim (Net.SplitFirst l))
  end.

Definition sync_db_v1 (P : Params) : Script unit :=
  root ← Get_RepoRoot_v1;
  pair ← (if negb (PS.truthy (Owner P)) || negb (PS.truthy (Repo P)) then
            remote ← git_config_get_remote_origin_url w;
            let pair := Parse_GitRemote (default "" remote) in
            if negb (PS.truthy (fst pair)) || negb (PS.truthy (snd pair))
            then throw ConfigurationError
            else mret pair
          else mret (Owner P, Repo P));
  targetDb ← Join_Path_checked root "db.sqlite3";
  versionFile ← Join_Path_checked root ".db_version";
  tmpDownload ← Join_Path_checked (TEMP w) (AssetName P);
  rel ← fetch_latest_release (fst pair) (snd pair);
  let remoteTag := tag_name rel in
  has_version ← Test_Path versionFile;
  localTag ← (if has_version : bool then Get_Content_Raw versionFile else mret (Some ""));
  has_db ← Test_Path targetDb;
  when (PS.eq_or_null remoteTag localTag && has_db) (exit 0);;
  match find_asset rel (AssetName P) with
  | None => throw AssetNotFoundError
  | Some asset =>
      Invoke_WebRequest_OutFile w octet_headers (browser_download_url asset) tmpDownload;;
      match find_asset rel (ShaAssetName P) with
      | Some shaAsset =>
          shaTmp ← Join_Path_checked (TEMP w) (ShaAssetName P);
          Invoke_WebRequest_OutFile w octet_headers (browser_download_url shaAsset) shaTmp;;
          expected ← expected_v1 shaTmp;
          hash ← Get_FileHash_SHA256 tmpDownload;
          let actual := Net.ToLower hash in
          when (PS.ne (Net.ToLower expected) actual) (throw IntegrityError)
      | None => mret tt
      end;;
      backup_then_replace targetDb versionFile tmpDownload remoteTag
  end.

(** *** sync_db.ps1, variant 2 (PowerShell 5.1 compatible) *)

(** [Get-RepoRoot]: the parent of the script's directory; the parent of
    [$PSCommandPath], the fallback, is [$PSScriptRoot]. *)
Definition Get_RepoRoot_v2 : string :=
  let root := Split_Path_Parent (PSScriptRoot w) in
  if negb (PS.truthy root) then PSScriptRoot w else root.

(** The expected digest: the trimmed, lower-cased text of the checksum
    file or, when that is not 64 hexadecimal digits, the first run of 64
    hexadecimal digits in the file, lower-cased, when there is one. *)
Definition expected_v2 (shaTmp : string) : Script string :=
  raw ← Get_Content_Raw shaTmp;
  trimmed ← method raw Net.Trim;
  let expected := Net.ToLower trimmed in
  if negb (matches expected Patterns.exact_digest) then
    lines ← Get_Content shaTmp;
    match Select_String_First Patterns.any_digest lines with
    | Some v => mret (Net.ToLower v)
    | None => mret expected
    end
  else mret expected.

Definition sync_db_v2 (P : Params) : Script unit :=
  let root := Get_RepoRoot_v2 in
  pair ← (if negb (PS.truthy (Owner P)) || negb (PS.truthy (Repo P)) then
            remote ← git_config_get_remote_origin_url w;
            mret (Parse_GitRemote (default "" remote))
          else mret (Owner P, Repo P));
  when (negb (PS.truthy (fst pair)) || negb (PS.truthy (snd pair)))
    (throw ConfigurationError);;
  targetDb ← Join_Path_checked root "db.sqlite3";
  versionFile ← Join_Path_checked root ".db_version";
  tmpDownload ← Join_Path_checked (TEMP w) (AssetName P);
  rel ← fetch_latest_release (fst pair) (snd pair);
  let remoteTag := tag_name rel in
  has_version ← Test_Path versionFile;
  localTag ← (if has_version : bool
              then raw ← Get_Content_Raw versionFile; method raw Net.Trim
              else mret "");
  has_db ← Test_Path targetDb;
  when (PS.eq remoteTag localTag && has_db) (exit 0);;
  match find_asset rel (AssetName P) with
  | None => throw AssetNotFoundError
  | Some asset =>
      let downloadUrl := browser_download_url asset in
      Invoke_WebRequest_OutFile w octet_headers downloadUrl tmpDownload;;
      match find_asset rel (ShaAssetName P) with
      | Some shaAsset =>
          shaTmp ← Join_Path_checked (TEMP w) (ShaAssetName P);
          Invoke_WebRequest_OutFile w octet_headers (browser_download_url shaAsset) shaTmp;;
          expected ← expected_v2 shaTmp;
          hash ← Get_FileHash_SHA256 tmpDownload;
          let actual := Net.ToLower hash in
          when (PS.ne expected actual) (
            Remove_Item_Force_Silently tmpDownload;;
            throw IntegrityError)
      | None => mret tt
      end;;
      backup_then_replace targetDb versionFile tmpDownload remoteTag
  end.
End Scripts.

(** ** The two variants and the places they work on *)

Inductive Variant : Type := V1 | V2.

Definition sync_db (SHA256 : string -> string) (w : World) (v : Variant) (P : Params)
    : Script unit :=
  match v with
  | V1 => sync_db_v1 SHA256 w P
  | V2 => sync_db_v2 SHA256 w P
  end.

(** The repository root a variant works in, when it finds one. *)
Definition repo_root (w : World) (v : Variant) : option string :=
  match v with
  | V1 => git_toplevel w
  | V2 => Some (Get_RepoRoot_v2 w)
  end.

(** LocalReplica, VersionMarker, the staged artifact and checksum, and the
    backup of this run. *)
Definition targetDb (root : string) : string := Join_Path root "db.sqlite3".
Definition versionFile (root : string) : string := Join_Path root ".db_version".
Definition tmpDownload (w : World) (P : Params) : string := Join_Path (TEMP w) (AssetName P).
Definition shaTmp (w : World) (P : Params) : string := Join_Path (TEMP w) (ShaAssetName P).
Definition backup_prefix (root : string) : string := targetDb root +:+ ".bak.".
Definition backupPath (w : World) (root : string) : string :=
  targetDb root +:+ ".bak." +:+ Format_yyyyMMdd_HHmmss (Get_Date w).

(** A backup is a path [<replica>.bak.<anything>]. *)
Definition is_backup (root p : string) : bool := String.prefix (backup_prefix root) p.

(** The backups present in a file system. *)
Definition backups (root : string) (m : gmap string Node) : gmap string Node :=
  filter (fun kv => is_backup root (fst kv) = true) m.

(** The scratch files are neither the replica, nor the marker, nor a backup. *)
Definition scratch_apart (root : string) (w : World) (P : Params) : Prop :=
  tmpDownload w P ≠ targetDb root ∧ tmpDownload w P ≠ versionFile root ∧
  shaTmp w P ≠ targetDb root ∧ shaTmp w P ≠ versionFile root ∧
  is_backup root (tmpDownload w P) = false ∧ is_backup root (shaTmp w P) = false.

(** ** The stages of a run

    The same two scripts, cut where the design cuts them: locate and
    resolve, fetch and verify, replace.  [sync_db_staged] below shows that
    nothing is lost. *)

Section Stages.
Variable SHA256 : string -> string.
Variable w : World.

(** Remote Locator. *)
Definition locate (P : Params) : Script (string * string) :=
  if negb (PS.truthy (Owner P)) || negb (PS.truthy (Repo P)) then
    remote ← git_config_get_remote_origin_url w;
    let pair := Parse_GitRemote (default "" remote) in
    if negb (PS.truthy (fst pair)) || negb (PS.truthy (snd pair))
    then throw ConfigurationError
    else mret pair
  else mret (Owner P, Repo P).

(** Version Tracker: variant 2 trims what it reads, variant 1 does not;
    the local tag is a text, or [$null] for variant 1 on an empty marker. *)
Definition read_marker (v : Variant) (marker : string) : Script (option string) :=
  has_version ← Test_Path marker;
  if has_version : bool then
    raw ← Get_Content_Raw marker;
    match v with
    | V1 => mret raw
    | V2 => trimmed ← method raw Net.Trim; mret (Some trimmed)
    end
  else mret (Some "").

Definition find_root (v : Variant) : Script string :=
  match repo_root w v with
  | Some root => mret root
  | None => throw (RuntimeError "Set-Location")
  end.

(** The paths of the run: [Join-Path] has to accept the root and
    [$env:TEMP]. *)
Definition paths (P : Params) (root : string) : Script unit :=
  Join_Path_checked root "db.sqlite3";;
  Join_Path_checked root ".db_version";;
  Join_Path_checked (TEMP w) (AssetName P);;
  mret tt.

(** Release Resolver, and the short-circuit on an up-to-date replica. *)
Definition track (v : Variant) (root : string) (pair : string * string) : Script Release :=
  rel ← fetch_latest_release w (fst pair) (snd pair);
  localTag ← read_marker v (versionFile root);
  has_db ← Test_Path (targetDb root);
  when (PS.eq_or_null (tag_name rel) localTag && has_db) (exit 0);;
  mret rel.

(** Integrity Verifier. *)
Definition verify (v : Variant) (P : Params) (rel : Release) : Script unit :=
  match find_asset rel (ShaAssetName P) with
  | Some shaAsset =>
      Invoke_WebRequest_OutFile w octet_headers (browser_download_url shaAsset) (shaTmp w P);;
      match v with
      | V1 =>
          expected ← expected_v1 (shaTmp w P);
          hash ← Get_FileHash_SHA256 SHA256 (tmpDownload w P);
          when (PS.ne (Net.ToLower expected) (Net.ToLower hash)) (throw IntegrityError)
      | V2 =>
          expected ← expected_v2 (shaTmp w P);
          hash ← Get_FileHash_SHA256 SHA256 (tmpDownload w P);
          when (PS.ne expected (Net.ToLower hash)) (
            Remove_Item_Force_Silently (tmpDownload w P);;
            throw IntegrityError)
      end
  | None => mret tt
  end.

(** Artifact Fetcher, then the verifier. *)
Definition stage (v : Variant) (P : Params) (rel : Release) : Script unit :=
  match find_asset rel (AssetName P) with
  | None => throw AssetNotFoundError
  | Some asset =>
      Invoke_WebRequest_OutFile w octet_headers (browser_download_url asset) (tmpDownload w P);;
      verify v P rel
  end.

(** Replacer. *)
Definition replace (P : Params) (root : string) (rel : Release) : Script unit :=
  backup_then_replace w (targetDb root) (versionFile root) (tmpDownload w P) (tag_name rel).

(** The run once owner and repository are known. *)
Definition continue_with (v : Variant) (P : Params) (root : string)
    (pair : string * string) : Script unit :=
  paths P root;;
  rel ← track v root pair;
  stage v P rel;;
  replace P root rel.

Definition staged (v : Variant) (P : Params) : Script unit :=
  root ← find_root v;
  pair ← locate P;
  continue_with v P root pair.
End Stages.

(** ** Vocabulary of the properties *)

Definition starts_with_space (s : string) : bool :=
  match s with
  | String c _ => Net.IsWhiteSpace c
  | EmptyString => false
  end.

Fixpoint ends_with_space (s : string) : bool :=
  match s with
  | EmptyString => false
  | String c EmptyString => Net.IsWhiteSpace c
  | String _ s' => ends_with_space s'
  end.

Fixpoint all_space (s : string) : bool :=
  match s with
  | EmptyString => true
  | String c s' => Net.IsWhiteSpace c && all_space s'
  end.

(** [Environment.NewLine] is CR LF or LF. *)
Definition line_terminator (nl : string) : Prop :=
  nl = String Net.CR (String Net.LF EmptyString) \/ nl = String Net.LF EmptyString.


Fixpoint all_chars (p : ascii -> bool) (s : string) : bool :=
  match s with
  | EmptyString => true
  | String c s' => p c && all_chars p s'
  end.

(** An owner is a non-empty text without [/]; a repository name is a
    non-empty text without [/] and [.]. *)
Definition owner_text (o : string) : Prop :=
  o <> "" /\ all_chars (fun c => negb (Ascii.eqb c "/")) o = true.
Definition repo_text (n : string) : Prop :=
  n <> "" /\ all_chars (fun c => negb (Ascii.eqb c "/") && negb (Ascii.eqb c ".")) n = true.

(** A remote URL of the form [host/owner/repo] with an optional [.git]:
    [https://github.com/o/n(.git)], [git@github.com:o/n(.git)] and the like. *)
Definition host_path (url o n : string) : Prop :=
  exists scheme sep suffix,
    In scheme [""; "https://"; "http://"; "git@"; "ssh://git@"] /\
    In sep [":"; "/"] /\
    In suffix [""; ".git"] /\
    url = scheme +:+ "github.com" +:+ sep +:+ o +:+ "/" +:+ n +:+ suffix.

(** What the marker says to a variant, when the variant can read it: the
    text of the file, trimmed by variant 2; the empty text when there is no
    marker.  An empty marker is [$null] to variant 1 and cannot be read by
    variant 2, which calls [Trim] on it. *)
Definition local_tag (v : Variant) (m : gmap string Node) (root : string)
    : option (option string) :=
  match m !! versionFile root with
  | None => Some (Some "")
  | Some (File raw) =>
      if PS.truthy raw then Some (Some (match v with V1 => raw | V2 => Net.Trim raw end))
      else match v with V1 => Some None | V2 => None end
  | Some Directory => None
  end.

(** The error of a variant that cannot read the marker. *)
Definition marker_error (m : gmap string Node) (root : string) : Error :=
  match m !! versionFile root with
  | Some (File _) => RuntimeError "null-valued expression"
  | _ => RuntimeError "Get-Content"
  end.

(** The short-circuit of both copies: the tags are equal for [-eq] and the
    replica exists. *)
Definition shouldSkip (v : Variant) (m : gmap string Node) (root remoteTag : string) : bool :=
  match local_tag v m root with
  | Some localTag => PS.eq_or_null remoteTag localTag && exists_at m (targetDb root)
  | None => false
  end.

(** Variant 2's expected digest as a function of the checksum text. *)
Definition extract_v2 (raw : string) : string :=
  let expected := Net.ToLower (Net.Trim raw) in
  if negb (matches expected Patterns.exact_digest) then
    match Select_String_First Patterns.any_digest (Net.ReadLines raw) with
    | Some v => Net.ToLower v
    | None => expected
    end
  else expected.

(** Variant 1's, which has none for a text without lines. *)
Definition extract_v1 (raw : string) : option string :=
  match Net.ReadLines raw with
  | [] => None
  | l :: _ => Some (Net.Trim (Net.SplitFirst l))
  end.

Definition is_download (r : Request) : bool :=
  match r with
  | AssetDownload _ => true
  | _ => false
  end.

(** The release the store answered with in a run. *)
Definition store_answer (w : World) (st' : State) (rel : Release) : Prop :=
  exists o n,
    Invoke_RestMethod w (release_headers w) (release_uri o n) = Some rel /\
    In (ReleaseQuery (release_uri o n)) (log st').

(** ** A checkout of the repository, for examples *)

Module Example.
Definition crlf : string := String Net.CR (String Net.LF EmptyString).
Definition root : string := "C:\repo".
Definition api : string :=
  "https://api.github.com/repos/yoona8030/sencity_backend/releases/latest".
Definition db_url : string := "https://github.test/download/db_release.sqlite3".
Definition sha_url : string := "https://github.test/download/db_release.sha256.txt".

(** SHA-256 of the texts the examples use, as [Get-FileHash] prints it. *)
Definition sha256 (s : string) : string :=
  if String.eqb s "sencity v3"
  then "3BE1F6624E828D73362DB49FF35FD0DAAA06570B3A0068C87C85506FB3D811AA"
  else if String.eqb s "sencity v4"
  then "AF393DFB468C5E0EA869DDB90BBFEF72DB7B093DEEE061C82791055EBA84F58E"
  else "".

(** A release [tag] with the data asset holding [data] and, with
    [checksum], a checksum asset holding that text. *)
Definition release (tag : string) (checksum : option string) : Release :=
  mkRelease tag
    (mkAsset "db_release.sqlite3" db_url ::
     match checksum with
     | Some _ => [mkAsset "db_release.sha256.txt" sha_url]
     | None => []
     end).

Definition no_fault (c : Cmdlet) (p : string) : bool := false.

Definition world (tag data : string) (checksum : option string)
    (faults : Cmdlet -> string -> bool) : World :=
  mkWorld "C:\repo\scripts" "C:\Temp" ""
    (Some root)
    (Some "https://github.com/yoona8030/sencity_backend.git")
    (fun _ uri => if String.eqb uri api then Some (release tag checksum) else None)
    (fun _ uri =>
       if String.eqb uri db_url then Some data
       else if String.eqb uri sha_url then checksum
       else None)
    (mkDateTime 2025 11 3 9 30 7)
    crlf
    faults.

(** A fresh clone, and a checkout with release v3 installed. *)
Definition fresh : State := mkState ∅ [].
Definition at_v3 : State :=
  mkState {[ "C:\repo\db.sqlite3" := File "sencity v3";
             "C:\repo\.db_version" := File ("v3" +:+ crlf) ]} [].

(** A clone with its [.git] directory and an old hook. *)
Definition cloned : State :=
  mkState {[ "C:\repo\.git" := Directory;
             "C:\repo\.git\hooks" := Directory;
             "C:\repo\.git\hooks\post-merge.bat" := File "old stub" ]} [].

(** The marker cannot be written. *)
Definition marker_locked (c : Cmdlet) (p : string) : bool :=
  match c with
  | SetContent => String.eqb p "C:\repo\.db_version"
  | _ => false
  end.

(** The same surroundings outside any work tree: git prints nothing. *)
Definition outside (w : World) : World :=
  mkWorld (PSScriptRoot w) (TEMP w) (GITHUB_TOKEN w) None None
    (Invoke_RestMethod w) (Invoke_WebRequest w) (Get_Date w) (NewLine w) (fault w).

(** The same surroundings with another remote. *)
Definition with_remote (url : string) (w : World) : World :=
  mkWorld (PSScriptRoot w) (TEMP w) (GITHUB_TOKEN w) (git_toplevel w) (Some url)
    (Invoke_RestMethod w) (Invoke_WebRequest w) (Get_Date w) (NewLine w) (fault w).

(** The same surroundings with [$env:TEMP] unset. *)
Definition without_TEMP (w : World) : World :=
  mkWorld (PSScriptRoot w) "" (GITHUB_TOKEN w) (git_toplevel w) (git_remote_origin_url w)
    (Invoke_RestMethod w) (Invoke_WebRequest w) (Get_Date w) (NewLine w) (fault w).

(** [-Owner] and [-Repo] given. *)
Definition explicit : Params :=
  mkParams "yoona8030" "sencity_backend" "db_release.sqlite3" "db_release.sha256.txt".

(** A checkout whose marker is an empty file. *)
Definition empty_marker : State :=
  mkState {[ "C:\repo\db.sqlite3" := File "sencity v3";
             "C:\repo\.db_version" := File "" ]} [].
End Example.

(** [Join-Path] accepts the root and [$env:TEMP]. *)
Definition paths_bound (w : World) (root : string) : bool :=
  PS.truthy root && PS.truthy (TEMP w).

(** The run gets past the short-circuit with release [rel]: owner [o] and
    repository [n] are found, [Join-Path] accepts the root and [$env:TEMP],
    the store answers [rel], the marker can be read and does not make the
    variant skip. *)
Definition proceeds (w : World) (v : Variant) (P : Params) (root : string)
    (st : State) (o n : string) (rel : Release) : Prop :=
  fst (locate w P st) = Ok (o, n) /\
  root <> "" /\ TEMP w <> "" /\
  Invoke_RestMethod w (release_headers w) (release_uri o n) = Some rel /\
  is_Some (local_tag v (fs st) root) /\
  shouldSkip v (fs st) root (tag_name rel) = false.

(** No file cmdlet of the Replacer is made to fail. *)
Definition replacer_unhindered (w : World) (root : string) : Prop :=
  fault w CopyItem (backupPath w root) = false /\
  fault w MoveItem (targetDb root) = false /\
  fault w SetContent (versionFile root) = false.

(** The requests a run added to the log. *)
Definition requests (st st' : State) : list Request :=
  skipn (length (log st)) (log st').

(** The file system once the backup of the run is taken. *)
Definition with_backup (w : World) (root : string) (m : gmap string Node) : gmap string Node :=
  match m !! targetDb root with
  | Some old => <[backupPath w root := old]> m
  | None => m
  end.

(** ** Time stamps *)

Definition then_compare (c d : comparison) : comparison :=
  match c with
  | Eq => d
  | _ => c
  end.

(** Earlier and later, field by field. *)
Definition DateTime_compare (a b : DateTime) : comparison :=
  then_compare (Nat.compare (year a) (year b))
 (then_compare (Nat.compare (month a) (month b))
 (then_compare (Nat.compare (day a) (day b))
 (then_compare (Nat.compare (hour a) (hour b))
 (then_compare (Nat.compare (minute a) (minute b))
               (Nat.compare (second a) (second b)))))).

(** The fields of a .NET [DateTime] fit their width: a year has at most
    four digits, the other fields at most two. *)
Definition fits (d : DateTime) : Prop :=
  year d < 100 * 100 /\ month d < 100 /\ day d < 100 /\
  hour d < 100 /\ minute d < 100 /\ second d < 100.

Definition is_digit (c : ascii) : bool :=
  let n := nat_of_ascii c in
  ((48 <=? n) && (n <=? 57))%nat.

(** The shape [yyyyMMdd-HHmmss]: eight digits, a hyphen, six digits. *)
Definition stamp_shape (ts : string) : Prop :=
  exists date time,
    ts = date +:+ "-" +:+ time /\
    String.length date = 8 /\ String.length time = 6 /\
    all_chars is_digit date = true /\ all_chars is_digit time = true.

Definition comparison_eqb (c d : comparison) : bool :=
  match c, d with
  | Eq, Eq | Lt, Lt | Gt, Gt => true
  | _, _ => false
  end.

(** ** Checksum texts *)

(** What is left of [s] after [n] characters of class [p], when it starts
    with that many. *)
Fixpoint run_of (p : ascii -> bool) (n : nat) (s : string) : option string :=
  match n with
  | O => Some s
  | S n' =>
      match s with
      | String c s' => if p c then run_of p n' s' else None
      | EmptyString => None
      end
  end.

(** The first run of [n] hexadecimal digits in a text, as the design words
    it: the leftmost place where [n] such digits stand in a row. *)
Fixpoint first_hex_run (n : nat) (s : string) : option string :=
  match run_of PS.hex n s with
  | Some _ => Some (substring 0 n s)
  | None =>
      match s with
      | EmptyString => None
      | String _ s' => first_hex_run n s'
      end
  end.

(** A digest: 64 hexadecimal digits. *)
Definition digest_text (h : string) : Prop :=
  String.length h = 64 /\ all_chars PS.hex h = true.

(** A lower-case hexadecimal digit, [[0-9a-f]] with case observed. *)
Definition lower_hex (c : ascii) : bool :=
  let n := nat_of_ascii c in
  (((48 <=? n) && (n <=? 57)) || ((97 <=? n) && (n <=? 102)))%nat.

Definition not_terminator (c : ascii) : bool :=
  negb (Ascii.eqb c Net.LF) && negb (Ascii.eqb c Net.CR).

(** ** Hook slots *)

(** The hook directory [install_hooks.ps1] settles on: under the parent of
    the script's directory when that holds [.git], else under what
    [git rev-parse --show-toplevel] prints, trimmed. *)
Definition hooks_dir (w : World) (m : gmap string Node) : option string :=
  let repoRoot := Split_Path_Parent (PSScriptRoot w) in
  option_map (fun r => Join_Path r ".git\hooks")
    (if exists_at m (Join_Path repoRoot ".git") then Some repoRoot
     else option_map Net.Trim (git_toplevel w)).

(** What a hook slot holds after installation. *)
Definition stub (w : World) : Node := File (bat w +:+ NewLine w).

Definition slot (hooks t : string) : string := Join_Path hooks t.

(** The line of the stub that starts the sync. *)
Definition sync_invocation : string :=
  "powershell -NoProfile -ExecutionPolicy Bypass -File " +:+
  dq +:+ "%~dp0..\..\scripts\sync_db.ps1" +:+ dq.

(** [powershell -File "script" args]: the script and what is passed to it. *)
Definition File_call : PS.regex :=
  PS.rSeq (PS.rStr "-File ")
 (PS.rSeq (PS.rStr dq)
 (PS.rSeq (PS.rGroup "script" (PS.rStar (PS.rChr (PS.none_of dq))))
 (PS.rSeq (PS.rStr dq)
 (PS.rSeq (PS.rGroup "args" (PS.rStar (PS.rChr (fun _ => true))))
          PS.rEol)))).

Definition script_and_arguments (line : string) : option (string * string) :=
  match PS.search File_call line with
  | Some m => Some (PS.group "script" m, PS.group "args" m)
  | None => None
  end.

(** The first run of [n] hexadecimal digits, line by line. *)
Fixpoint first_run_in_lines (n : nat) (ls : list string) : option string :=
  match ls with
  | [] => None
  | l :: ls' =>
      match first_hex_run n l with
      | Some x => Some x
      | None => first_run_in_lines n ls'
      end
  end.

(** ** Remote URLs, as the pattern of [Parse-GitRemote] sees them *)

(** What the pattern lets follow the repository name: an optional [.git],
    in any case, and an optional final line feed. *)
Definition remote_tail (t : string) : Prop :=
  exists git nl,
    t = git +:+ nl /\
    (git = "" \/ PS.eq git ".git" = true) /\
    (nl = "" \/ nl = String Net.LF EmptyString).

(** [url] ends with the host name, in any case, [:] or [/], [o], a slash,
    [n] and such a tail; anything may stand before the host name. *)
Definition remote_shape (url o n : string) : Prop :=
  exists pre host sep tail,
    url = pre +:+ host +:+ sep +:+ o +:+ "/" +:+ n +:+ tail /\
    PS.eq host "github.com" = true /\
    In sep [":"; "/"] /\
    remote_tail tail.

(** A property of characters that holds of all 256 of them. *)
Definition every_char (P : ascii -> bool) : bool :=
  forallb (fun n => P (ascii_of_nat n)) (seq 0 256).

(** ** Requests of a run *)

(** The order of the script: the remote is asked of git at most once and
    first, the release store is queried at most once, and at most two
    downloads follow the query. *)
Definition trace_shape (l : list Request) : bool :=
  match l with
  | [] | [GitRemoteQuery] => true
  | ReleaseQuery _ :: d | GitRemoteQuery :: ReleaseQuery _ :: d =>
      forallb is_download d && (length d <=? 2)%nat
  | _ => false
  end.

(** The asset of a release that a run with parameters [P] may download. *)
Definition wanted_asset (P : Params) (rel : Release) (a : Asset) : Prop :=
  find_asset rel (AssetName P) = Some a \/ find_asset rel (ShaAssetName P) = Some a.

(** The errors of the steps before the first download. *)
Definition before_download (e : Error) : bool :=
  match e with
  | ConfigurationError | RemoteUnavailableError | AssetNotFoundError => true
  | _ => false
  end.

(** ** Runs in a row *)

(** The state after [k] more runs, whatever their results. *)
Fixpoint again (SHA256 : string -> string) (w : World) (v : Variant) (P : Params)
    (k : nat) (st : State) : State :=
  match k with
  | O => st
  | S k' => again SHA256 w v P k' (snd (sync_db SHA256 w v P st))
  end.

(** ** Verification *)

(** What lets a download pass the verifier: the expected digest that the
    variant extracts from the checksum text [raw] is [-eq] to the hash of
    the staged artifact.  No digest is extracted from an empty text, which
    is [$null] to both variants. *)
Definition digest_accepted (v : Variant) (raw hash : string) : bool :=
  match v with
  | V1 =>
      match extract_v1 raw with
      | Some expected => PS.eq expected hash
      | None => false
      end
  | V2 => PS.truthy raw && PS.eq (extract_v2 raw) hash
  end.

(** ** The release store, as seen from a run *)

(** Two surroundings that differ in the release store only. *)
Definition same_but_store (w w' : World) : Prop :=
  PSScriptRoot w = PSScriptRoot w' /\ TEMP w = TEMP w' /\
  GITHUB_TOKEN w = GITHUB_TOKEN w' /\
  git_toplevel w = git_toplevel w' /\
  git_remote_origin_url w = git_remote_origin_url w' /\
  Get_Date w = Get_Date w' /\ NewLine w = NewLine w' /\ fault w = fault w'.
(** * Properties *)

(** ** Paths *)

Lemma append_cons (c : ascii) (a b : string) : String c a +:+ b = String c (a +:+ b).
Proof. reflexivity. Qed.

Lemma append_nil_l (a : string) : "" +:+ a = a.
Proof. reflexivity. Qed.

Lemma append_assoc (a b c : string) : (a +:+ b) +:+ c = a +:+ (b +:+ c).
Proof.
  induction a as [|x a IH]; [reflexivity |].
  rewrite !append_cons. now rewrite IH.
Qed.

Lemma append_inj_l (a x y : string) : a +:+ x = a +:+ y -> x = y.
Proof. apply (inj (String.append a)). Qed.

Lemma append_nil_r (a : string) : a +:+ "" = a.
Proof.
  induction a as [|c a IH]; [reflexivity |].
  rewrite append_cons. now rewrite IH.
Qed.

Lemma prefix_append (a b : string) : String.prefix a (a +:+ b) = true.
Proof.
  induction a as [|c a IH]; [now destruct b |].
  rewrite append_cons. simpl.
  destruct (ascii_dec c c); [exact IH | congruence].
Qed.

Lemma prefix_append_inv (a x y : string) :
  String.prefix (a +:+ x) (a +:+ y) = String.prefix x y.
Proof.
  induction a as [|c a IH]; [reflexivity |].
  rewrite !append_cons. simpl.
  destruct (ascii_dec c c); [exact IH | congruence].
Qed.

Lemma targetDb_versionFile root : targetDb root ≠ versionFile root.
Proof. unfold targetDb, versionFile, Join_Path. intros H%append_inj_l. discriminate. Qed.

Lemma backup_shape root ts :
  backup_prefix root +:+ ts = root +:+ ("\db.sqlite3.bak." +:+ ts).
Proof.
  unfold backup_prefix, targetDb, Join_Path. now rewrite !append_assoc.
Qed.

Lemma backupPath_prefix w root :
  backupPath w root = backup_prefix root +:+ Format_yyyyMMdd_HHmmss (Get_Date w).
Proof. unfold backupPath, backup_prefix. now rewrite append_assoc. Qed.

Lemma backupPath_targetDb w root : backupPath w root ≠ targetDb root.
Proof.
  rewrite backupPath_prefix, backup_shape. unfold targetDb, Join_Path.
  intros H%append_inj_l. discriminate.
Qed.

Lemma backupPath_versionFile w root : backupPath w root ≠ versionFile root.
Proof.
  rewrite backupPath_prefix, backup_shape. unfold versionFile, Join_Path.
  intros H%append_inj_l. discriminate.
Qed.

Lemma is_backup_backupPath w root : is_backup root (backupPath w root) = true.
Proof. rewrite backupPath_prefix. apply prefix_append. Qed.

Lemma is_backup_targetDb root : is_backup root (targetDb root) = false.
Proof.
  unfold is_backup. replace (backup_prefix root) with (backup_prefix root +:+ "")
    by apply append_nil_r.
  rewrite backup_shape. unfold targetDb, Join_Path.
  rewrite prefix_append_inv. reflexivity.
Qed.

Lemma is_backup_versionFile root : is_backup root (versionFile root) = false.
Proof.
  unfold is_backup. replace (backup_prefix root) with (backup_prefix root +:+ "")
    by apply append_nil_r.
  rewrite backup_shape. unfold versionFile, Join_Path.
  rewrite prefix_append_inv. reflexivity.
Qed.

(** ** Running a script by cases *)

Ltac unfold_cmdlets :=
  unfold fetch_latest_release, Get_RepoRoot_v1, Get_FileHash_SHA256,
    Invoke_WebRequest_OutFile, git_config_get_remote_origin_url,
    Set_Content, Copy_Item, Move_Item_Force, Remove_Item_Force_Silently,
    Get_Content, Get_Content_Raw, Join_Path_checked, method, Test_Path, write_file,
    when, exit, throw, mbind, mret, Script_bind, Script_ret, bind, ret in *.

(** Split on the innermost scrutinee of the goal. *)
Ltac case_goal :=
  match goal with
  | |- context [match ?x with _ => _ end] =>
      lazymatch x with
      | context [match _ with _ => _ end] => fail
      | _ => destruct x eqn:?
      end
  end.

Ltac case_hyp H :=
  match type of H with
  | context [match ?x with _ => _ end] =>
      lazymatch x with
      | context [match _ with _ => _ end] => fail
      | _ => destruct x eqn:?
      end
  end.

Lemma sync_db_staged SHA256 w v P st :
  sync_db SHA256 w v P st = staged SHA256 w v P st.
Proof.
  destruct v; unfold sync_db, sync_db_v1, sync_db_v2, staged, continue_with, find_root, paths,
    track, locate, read_marker, stage, verify, replace, backup_then_replace, expected_v1,
    expected_v2, repo_root, targetDb, versionFile, tmpDownload, shaTmp;
  unfold_cmdlets; simpl;
  repeat (case_goal; simpl; try reflexivity; try discriminate).
Qed.

(** ** Trimming *)

Lemma line_terminator_space nl : line_terminator nl -> all_space nl = true.
Proof. intros [-> | ->]; reflexivity. Qed.

Lemma TrimEnd_space s : all_space s = true -> Net.TrimEnd s = "".
Proof.
  induction s as [|c s IH]; simpl; [reflexivity |].
  intros [Hc Hs]%andb_true_iff. now rewrite (IH Hs), Hc.
Qed.

Lemma TrimStart_space s : all_space s = true -> Net.TrimStart s = "".
Proof.
  induction s as [|c s IH]; simpl; [reflexivity |].
  intros [Hc Hs]%andb_true_iff. rewrite Hc. auto.
Qed.

Lemma TrimEnd_append_space t nl :
  all_space nl = true -> Net.TrimEnd (t +:+ nl) = Net.TrimEnd t.
Proof.
  intros Hnl. induction t as [|c t IH].
  - rewrite append_nil_l. now apply TrimEnd_space.
  - rewrite append_cons. simpl. now rewrite IH.
Qed.

Lemma TrimEnd_id t : ends_with_space t = false -> Net.TrimEnd t = t.
Proof.
  induction t as [|c t IH]; [reflexivity |].
  intros H. simpl in *. destruct t as [|d t].
  - simpl. now rewrite H.
  - rewrite (IH H). reflexivity.
Qed.

Lemma TrimStart_id t : starts_with_space t = false -> Net.TrimStart t = t.
Proof. destruct t as [|c t]; simpl; [reflexivity | now intros ->]. Qed.

Lemma Trim_id t :
  starts_with_space t = false -> ends_with_space t = false -> Net.Trim t = t.
Proof. intros Hs He. unfold Net.Trim. now rewrite (TrimStart_id _ Hs), TrimEnd_id. Qed.

(** Reading back what [Set-Content] wrote, with [Trim]. *)
Lemma Trim_written t nl :
  starts_with_space t = false -> ends_with_space t = false -> all_space nl = true ->
  Net.Trim (t +:+ nl) = t.
Proof.
  intros Hs He Hnl. unfold Net.Trim. destruct t as [|c t].
  - rewrite append_nil_l, (TrimStart_space _ Hnl). reflexivity.
  - rewrite append_cons. simpl in Hs. simpl Net.TrimStart. rewrite Hs.
    rewrite <- append_cons, (TrimEnd_append_space _ _ Hnl). now apply TrimEnd_id.
Qed.

(** Without [Trim] the line terminator stays. *)
Lemma written_not_tag t nl : nl <> "" -> t +:+ nl <> t.
Proof.
  intros Hnl H. apply Hnl. apply (append_inj_l t).
  now rewrite append_nil_r.
Qed.

(** ** The matcher on texts of a known shape *)

Section MatcherLemmas.
Context {A : Type}.
Implicit Types (k : nat -> string -> PS.captures -> option A).

Lemma rx_lit c i s cs k :
  PS.rx (PS.rLit c) i (String c s) cs k = k (S i) s cs.
Proof. simpl. now rewrite Ascii.eqb_refl. Qed.

Lemma rx_str t i s cs k :
  PS.rx (PS.rStr t) i (t +:+ s) cs k = k (String.length t + i) s cs.
Proof.
  revert i. induction t as [|c t IH]; intros i; [reflexivity |].
  rewrite append_cons. cbn [PS.rStr].
  change (PS.rx (PS.rSeq ?a ?b) i ?s cs k)
    with (PS.rx a i s cs (fun i' s' cs' => PS.rx b i' s' cs' k)).
  rewrite rx_lit, IH. simpl. f_equal. lia.
Qed.

Lemma rx_chr p i c s cs k :
  PS.rx (PS.rChr p) i (String c s) cs k = if p c then k (S i) s cs else None.
Proof. reflexivity. Qed.

Lemma rx_chr_nil p i cs k : PS.rx (PS.rChr p) i "" cs k = None.
Proof. reflexivity. Qed.

Lemma star_loop_S step k fuel i s cs :
  PS.star_loop step k (S fuel) i s cs =
  match step i s cs
          (fun i' s' cs' =>
             if (i <? i')%nat then PS.star_loop step k fuel i' s' cs' else None) with
  | Some v => Some v
  | None => k i s cs
  end.
Proof. reflexivity. Qed.

(** A greedy run over a class stops where the class stops. *)
Lemma star_class p k fuel i o s cs v :
  all_chars p o = true ->
  (String.length o <= fuel)%nat ->
  match s with String d _ => p d = false | EmptyString => True end ->
  k (String.length o + i) s cs = Some v ->
  PS.star_loop (PS.rx (PS.rChr p)) k fuel i (o +:+ s) cs = Some v.
Proof.
  intros Ho Hf Hs Hk. revert fuel i Ho Hf Hk.
  induction o as [|c o IH]; intros fuel i Ho Hf Hk.
  - rewrite append_nil_l. simpl in Hk. destruct fuel as [|fuel]; [exact Hk |].
    rewrite star_loop_S. destruct s as [|d s].
    + now rewrite rx_chr_nil.
    + now rewrite rx_chr, Hs.
  - simpl in Ho. apply andb_true_iff in Ho as [Hc Ho].
    destruct fuel as [|fuel]; [simpl in Hf; lia |].
    rewrite append_cons, star_loop_S, rx_chr, Hc.
    replace (i <? S i)%nat with true by (symmetry; apply Nat.ltb_lt; lia).
    rewrite (IH fuel (S i)); [reflexivity | exact Ho | simpl in Hf; lia |].
    simpl in Hk. now replace (String.length o + S i) with (S (String.length o + i)) by lia.
Qed.

Lemma length_append (a b : string) :
  String.length (a +:+ b) = String.length a + String.length b.
Proof.
  induction a as [|c a IH]; [reflexivity |].
  rewrite append_cons. simpl. now rewrite IH.
Qed.

Lemma plus_class p k i o s cs v :
  o <> "" ->
  all_chars p o = true ->
  match s with String d _ => p d = false | EmptyString => True end ->
  k (String.length o + i) s cs = Some v ->
  PS.rx (PS.rPlus (PS.rChr p)) i (o +:+ s) cs k = Some v.
Proof.
  intros Hne Ho Hs Hk. destruct o as [|c o]; [congruence |].
  simpl in Ho. apply andb_true_iff in Ho as [Hc Ho].
  rewrite append_cons. unfold PS.rPlus.
  change (PS.rx (PS.rSeq ?a ?b) i ?s cs k)
    with (PS.rx a i s cs (fun i' s' cs' => PS.rx b i' s' cs' k)).
  rewrite rx_chr, Hc.
  change (PS.rx (PS.rStar ?a) ?j ?s cs k)
    with (PS.star_loop (PS.rx a) k (String.length s) j s cs).
  apply star_class; [exact Ho | rewrite length_append; lia | exact Hs |].
  simpl in Hk. now replace (String.length o + S i) with (S (String.length o + i)) by lia.
Qed.

Lemma substring_prefix (o s : string) :
  substring 0 (String.length o) (o +:+ s) = o.
Proof.
  induction o as [|c o IH]; [now destruct s |].
  rewrite append_cons. simpl. now rewrite IH.
Qed.

End MatcherLemmas.

Lemma search_from_eq r i s :
  PS.search_from r i s =
  match PS.rx (PS.rGroup "0" r) i s [] (fun _ _ cs => Some cs) with
  | Some cs => Some cs
  | None =>
      match s with
      | EmptyString => None
      | String _ s' => PS.search_from r (S i) s'
      end
  end.
Proof. destruct s; reflexivity. Qed.

Lemma search_from_miss r i c s :
  PS.rx (PS.rGroup "0" r) i (String c s) [] (fun _ _ cs => Some cs) = None ->
  PS.search_from r i (String c s) = PS.search_from r (S i) s.
Proof. intros H. rewrite search_from_eq. now rewrite H. Qed.

Lemma search_from_hit r i s cs :
  PS.rx (PS.rGroup "0" r) i s [] (fun _ _ cs => Some cs) = Some cs ->
  PS.search_from r i s = Some cs.
Proof. intros H. rewrite search_from_eq. now rewrite H. Qed.

Lemma none_of_slash c : PS.none_of "/" c = negb (Ascii.eqb c "/").
Proof. destruct c as [[] [] [] [] [] [] [] []]; reflexivity. Qed.

Lemma none_of_slash_dot c :
  PS.none_of "/." c = negb (Ascii.eqb c "/") && negb (Ascii.eqb c ".").
Proof. destruct c as [[] [] [] [] [] [] [] []]; reflexivity. Qed.

Lemma all_chars_ext p q s :
  (forall c, p c = q c) -> all_chars p s = all_chars q s.
Proof. intros H. induction s as [|c s IH]; simpl; [reflexivity | now rewrite H, IH]. Qed.

Ltac rx_seq :=
  match goal with
  | |- context [PS.rx (PS.rSeq ?a ?b) ?i ?s ?cs ?k] =>
      change (PS.rx (PS.rSeq a b) i s cs k)
        with (PS.rx a i s cs (fun i' s' cs' => PS.rx b i' s' cs' k))
  end.
Ltac rx_group :=
  match goal with
  | |- context [PS.rx (PS.rGroup ?n ?a) ?i ?s ?cs ?k] =>
      change (PS.rx (PS.rGroup n a) i s cs k)
        with (PS.rx a i s cs (fun i' s' cs' => k i' s' ((n, substring 0 (i' - i) s) :: cs')))
  end.

Lemma git_remote_at i sep o n suffix :
  In sep [":"; "/"] -> owner_text o -> repo_text n -> In suffix [""; ".git"] ->
  exists cs,
    PS.rx (PS.rGroup "0" Patterns.git_remote) i
      ("github.com" +:+ sep +:+ o +:+ "/" +:+ n +:+ suffix) [] (fun _ _ cs => Some cs) = Some cs /\
    PS.group "owner" cs = o /\ PS.group "repo" cs = n.
Proof.
  intros Hsep [Ho1 Ho2] [Hn1 Hn2] Hsuf.
  rewrite (all_chars_ext _ (PS.none_of "/")) in Ho2 by (intros; now rewrite none_of_slash).
  rewrite (all_chars_ext _ (PS.none_of "/.")) in Hn2 by (intros; now rewrite none_of_slash_dot).
  assert (Hs : exists c, sep = String c "" /\ PS.one_of ":/" c = true).
  { destruct Hsep as [<- | [<- | []]]; eexists; split; reflexivity. }
  destruct Hs as (c & -> & Hc). clear Hsep.
  assert (Hsuf' : suffix = "" \/ suffix = ".git") by (simpl in Hsuf; intuition).
  clear Hsuf.
  destruct Hsuf' as [-> | ->]; eexists; (split; [
    unfold Patterns.git_remote; rx_group; rx_seq; rewrite rx_str; rx_seq;
    change (String c "" +:+ ?x) with (String c x);
    rewrite rx_chr, Hc; rx_seq; rx_group;
    apply plus_class; [exact Ho1 | exact Ho2 | reflexivity |];
    rx_seq; change ("/" +:+ ?x) with (String "/"%char x); rewrite rx_lit;
    rx_seq; rx_group;
    apply plus_class; [exact Hn1 | exact Hn2 | first [exact I | reflexivity] | ];
    reflexivity
  | ]).
  all: unfold PS.group; simpl String.eqb; cbv iota; rewrite !Nat.add_sub;
    split; apply substring_prefix.
Qed.

Lemma Parse_GitRemote_host_path url o n :
  owner_text o -> repo_text n -> host_path url o n -> Parse_GitRemote url = (o, n).
Proof.
  intros Ho Hn (scheme & sep & suffix & Hsch & Hsep & Hsuf & ->).
  unfold Parse_GitRemote, PS.search.
  assert (H : exists cs, PS.search_from Patterns.git_remote 0
     (scheme +:+ "github.com" +:+ sep +:+ o +:+ "/" +:+ n +:+ suffix) = Some cs /\
     PS.group "owner" cs = o /\ PS.group "repo" cs = n).
  { remember ("github.com" +:+ sep +:+ o +:+ "/" +:+ n +:+ suffix) as rest eqn:Hrest.
    simpl in Hsch.
    destruct Hsch as [<- | [<- | [<- | [<- | [<- | []]]]]];
      rewrite ?append_cons, append_nil_l;
      repeat (rewrite search_from_miss by reflexivity);
      subst rest;
      match goal with
      | |- context [PS.search_from _ ?i _] =>
          destruct (git_remote_at i sep o n suffix Hsep Ho Hn Hsuf) as (cs & Hcs & Hg)
      end;
      exists cs; (split; [now apply search_from_hit | exact Hg]). }
  destruct H as (cs & -> & -> & ->). reflexivity.
Qed.

(** ** Remote Locator *)

Lemma truthy_true s : PS.truthy s = true <-> s <> "".
Proof.
  unfold PS.truthy. destruct (String.eqb_spec s ""); simpl; split; congruence.
Qed.

Lemma truthy_false s : PS.truthy s = false <-> s = "".
Proof.
  unfold PS.truthy. destruct (String.eqb_spec s ""); simpl; split; congruence.
Qed.

Lemma locate_explicit w P st :
  Owner P <> "" -> Repo P <> "" -> locate w P st = (Ok (Owner P, Repo P), st).
Proof.
  intros Ho%truthy_true Hr%truthy_true. unfold locate. now rewrite Ho, Hr.
Qed.

Lemma locate_remote w P st :
  Owner P = "" \/ Repo P = "" ->
  let found := Parse_GitRemote (default "" (git_remote_origin_url w)) in
  locate w P st =
    (if negb (PS.truthy (fst found)) || negb (PS.truthy (snd found))
     then Throw ConfigurationError else Ok found,
     mkState (fs st) (log st ++ [GitRemoteQuery])).
Proof.
  intros H found. unfold locate.
  replace (negb (PS.truthy (Owner P)) || negb (PS.truthy (Repo P))) with true.
  - unfold_cmdlets. fold found.
    now destruct (negb (PS.truthy found.1) || negb (PS.truthy found.2)).
  - symmetry. apply orb_true_iff.
    destruct H as [H | H]; [left | right]; apply negb_true_iff, truthy_false, H.
Qed.

Lemma locate_fs w P st r st' : locate w P st = (r, st') -> fs st' = fs st.
Proof.
  unfold locate. unfold_cmdlets. intros H.
  repeat (case_hyp H; simpl in H); injection H as <- <-; reflexivity.
Qed.

Lemma locate_result w P st r st' :
  locate w P st = (r, st') -> match r with Exit _ => False | _ => True end.
Proof.
  unfold locate. unfold_cmdlets. intros H.
  repeat (case_hyp H; simpl in H); injection H as <- <-; exact I.
Qed.

Lemma staged_from_root SHA256 w v P root st :
  repo_root w v = Some root ->
  staged SHA256 w v P st =
  match locate w P st with
  | (Ok owner_repo, st') => continue_with SHA256 w v P root owner_repo st'
  | (Exit c, st') => (Exit c, st')
  | (Throw e, st') => (Throw e, st')
  end.
Proof.
  intros H. unfold staged, find_root. rewrite H. reflexivity.
Qed.

(** ** The stages, one by one *)

Lemma backupPath_not_scratch w root p :
  is_backup root p = false -> p <> backupPath w root.
Proof. intros H ->. now rewrite is_backup_backupPath in H. Qed.

Lemma replace_inv w P root rel st r st' :
  tmpDownload w P <> targetDb root ->
  tmpDownload w P <> versionFile root ->
  is_backup root (tmpDownload w P) = false ->
  replace w P root rel st = (r, st') ->
  log st' = log st /\
  (forall p, p <> targetDb root -> p <> versionFile root -> p <> tmpDownload w P ->
             p <> backupPath w root -> fs st' !! p = fs st !! p) /\
  (fs st' !! backupPath w root = fs st !! backupPath w root \/
   (is_Some (fs st !! targetDb root) /\ fs st' !! backupPath w root = fs st !! targetDb root)) /\
  match r with
  | Ok _ =>
      fs st' !! versionFile root = Some (File (tag_name rel +:+ NewLine w)) /\
      is_Some (fs st !! tmpDownload w P) /\
      fs st' !! targetDb root = fs st !! tmpDownload w P /\
      fs st' !! tmpDownload w P = None /\
      match fs st !! targetDb root with
      | Some n => fs st' !! backupPath w root = Some n
      | None => fs st' !! backupPath w root = fs st !! backupPath w root
      end
  | Throw e =>
      fs st' !! versionFile root = fs st !! versionFile root /\
      (e <> RuntimeError "Set-Content" -> fs st' !! targetDb root = fs st !! targetDb root) /\
      (e = RuntimeError "Set-Content" ->
         is_Some (fs st !! tmpDownload w P) /\
         fs st' !! targetDb root = fs st !! tmpDownload w P)
  | Exit _ => False
  end.
Proof.
  intros H1 H2 H3 Hrun.
  pose proof (targetDb_versionFile root) as H4.
  pose proof (backupPath_targetDb w root) as H5.
  pose proof (backupPath_versionFile w root) as H6.
  pose proof (backupPath_not_scratch w root _ H3) as H7.
  unfold replace, backup_then_replace in Hrun.
  change (targetDb root +:+ ".bak." +:+ Format_yyyyMMdd_HHmmss (Get_Date w))
    with (backupPath w root) in Hrun.
  unfold_cmdlets. unfold exists_at in *. simpl in Hrun.
  repeat (case_hyp Hrun; simpl in Hrun; try discriminate).
  all: injection Hrun as <- <-; simpl.
  all: repeat split; intros; simplify_map_eq; eauto.
Qed.

Lemma track_run w v root o n st :
  track w v root (o, n) st =
  let st1 := mkState (fs st) (log st ++ [ReleaseQuery (release_uri o n)]) in
  match Invoke_RestMethod w (release_headers w) (release_uri o n) with
  | None => (Throw RemoteUnavailableError, st1)
  | Some rel =>
      match local_tag v (fs st) root with
      | None => (Throw (marker_error (fs st) root), st1)
      | Some _ =>
          if shouldSkip v (fs st) root (tag_name rel) then (Exit 0, st1) else (Ok rel, st1)
      end
  end.
Proof.
  unfold track, read_marker, shouldSkip, local_tag, marker_error. unfold_cmdlets. simpl.
  unfold exists_at.
  repeat (case_goal; simpl in *; try reflexivity; try discriminate).
  all: congruence.
Qed.

Lemma marker_error_runtime m root : exists what, marker_error m root = RuntimeError what.
Proof. unfold marker_error. destruct (m !! versionFile root) as [[] |]; eauto. Qed.

Lemma extract_v2_run p raw st :
  fs st !! p = Some (File raw) ->
  expected_v2 p st =
  (if PS.truthy raw then Ok (extract_v2 raw)
   else Throw (RuntimeError "null-valued expression"), st).
Proof.
  intros H. unfold expected_v2, extract_v2. unfold_cmdlets. rewrite H.
  destruct (PS.truthy raw); [| reflexivity]. simpl.
  destruct (negb _); [| reflexivity]. rewrite H.
  now destruct (Select_String_First _ _).
Qed.

Lemma extract_v1_run p raw st :
  fs st !! p = Some (File raw) ->
  expected_v1 p st =
  (match extract_v1 raw with
   | Some e => Ok e
   | None => Throw (RuntimeError "null-valued expression")
   end, st).
Proof.
  intros H. unfold expected_v1, extract_v1. unfold_cmdlets. rewrite H.
  now destruct (Net.ReadLines raw).
Qed.

(** Fetching and verifying leaves every path but the two scratch files. *)
Lemma stage_frame SHA256 w v P rel st r st' :
  stage SHA256 w v P rel st = (r, st') ->
  forall p, p <> tmpDownload w P -> p <> shaTmp w P -> fs st' !! p = fs st !! p.
Proof.
  intros Hrun p H1 H2. unfold stage, verify, expected_v1, expected_v2 in Hrun.
  unfold_cmdlets. simpl in Hrun.
  destruct v;
    repeat (case_hyp Hrun; simpl in Hrun; try discriminate);
    injection Hrun as <- <-; simpl; simplify_map_eq; reflexivity.
Qed.

(** It only sends asset downloads. *)
Lemma stage_log SHA256 w v P rel st r st' :
  stage SHA256 w v P rel st = (r, st') ->
  exists l, log st' = log st ++ l /\ forallb is_download l = true.
Proof.
  intros Hrun. unfold stage, verify, expected_v1, expected_v2 in Hrun.
  unfold_cmdlets. simpl in Hrun.
  destruct v;
    repeat (case_hyp Hrun; simpl in Hrun; try discriminate);
    injection Hrun as <- <-; simpl;
    first [ exists []; split; [now rewrite app_nil_r | reflexivity]
          | eexists [_]; split; reflexivity
          | eexists [_; _]; split; [now rewrite <- app_assoc | reflexivity] ].
Qed.

(** When it succeeds, the staged artifact is there, and it never exits. *)
Lemma stage_result SHA256 w v P rel st r st' :
  stage SHA256 w v P rel st = (r, st') ->
  match r with
  | Ok _ => is_Some (fs st' !! tmpDownload w P)
  | Exit _ => False
  | Throw _ => True
  end.
Proof.
  intros Hrun. unfold stage, verify, expected_v1, expected_v2 in Hrun.
  unfold_cmdlets. simpl in Hrun.
  destruct v;
    repeat (case_hyp Hrun; simpl in Hrun; try discriminate);
    injection Hrun as <- <-; simpl; try exact I; simplify_map_eq; eauto.
Qed.

(** ** Version Tracker *)

Lemma Set_Content_ok w p v st :
  fault w SetContent p = false -> fs st !! p <> Some Directory ->
  Set_Content w p v st = (Ok tt, write_file p (v +:+ NewLine w) st).
Proof.
  intros Hf Hd. unfold Set_Content. rewrite Hf.
  destruct (fs st !! p) as [[] |]; congruence.
Qed.

Lemma read_marker_file v p raw st :
  fs st !! p = Some (File raw) -> raw <> "" ->
  read_marker v p st = (Ok (Some (match v with V1 => raw | V2 => Net.Trim raw end)), st).
Proof.
  intros H Hraw%truthy_true. unfold read_marker, Test_Path, Get_Content_Raw, method, exists_at,
    mbind, mret, Script_bind, Script_ret, bind, ret.
  rewrite H, H, Hraw. now destruct v.
Qed.

Lemma written_not_empty t nl : nl <> "" -> t +:+ nl <> "".
Proof. destruct t; [now rewrite append_nil_l | discriminate]. Qed.

Lemma line_terminator_not_empty nl : line_terminator nl -> nl <> "".
Proof. intros [-> | ->]; discriminate. Qed.

Lemma bind_ok {A B} (m : Script A) (k : A -> Script B) st a st' :
  m st = (Ok a, st') -> (m ≫= k) st = k a st'.
Proof. intros H. unfold mbind, Script_bind, bind. now rewrite H. Qed.

Lemma marker_roundtrip v w marker tag st :
  NewLine w <> "" ->
  fault w SetContent marker = false -> fs st !! marker <> Some Directory ->
  (Set_Content w marker tag;; read_marker v marker) st =
    (Ok (Some (match v with V1 => tag +:+ NewLine w | V2 => Net.Trim (tag +:+ NewLine w) end)),
     write_file marker (tag +:+ NewLine w) st).
Proof.
  intros Hnl Hf Hd. rewrite (bind_ok _ _ _ _ _ (Set_Content_ok _ _ _ _ Hf Hd)).
  apply read_marker_file; [| now apply written_not_empty].
  unfold write_file. simpl. apply lookup_insert_eq.
Qed.

(** Variant 2 reads back the tag that [Set-Content] wrote. *)
Lemma marker_roundtrip_v2 w marker tag st :
  starts_with_space tag = false -> ends_with_space tag = false ->
  line_terminator (NewLine w) ->
  fault w SetContent marker = false -> fs st !! marker <> Some Directory ->
  (Set_Content w marker tag;; read_marker V2 marker) st =
    (Ok (Some tag), write_file marker (tag +:+ NewLine w) st).
Proof.
  intros Hs He Hnl Hf Hd.
  rewrite (marker_roundtrip V2 _ _ _ _ (line_terminator_not_empty _ Hnl) Hf Hd).
  now rewrite (Trim_written _ _ Hs He (line_terminator_space _ Hnl)).
Qed.

(** Variant 1 reads back the tag and the line terminator. *)
Lemma marker_roundtrip_v1 w marker tag st :
  NewLine w <> "" ->
  fault w SetContent marker = false -> fs st !! marker <> Some Directory ->
  (Set_Content w marker tag;; read_marker V1 marker) st =
    (Ok (Some (tag +:+ NewLine w)), write_file marker (tag +:+ NewLine w) st).
Proof. intros Hnl Hf Hd. apply (marker_roundtrip V1 _ _ _ _ Hnl Hf Hd). Qed.

(** C10 fails in variant 1: it reads the marker without [Trim], so what
    it reads after the write of tag v3 is not v3, and the tag it compares
    with the remote tag v3 is not equal to it; variant 2 reads v3. *)
Lemma variant1_reads_line_terminator :
  let w := Example.world "v3" "sencity v3" None Example.no_fault in
  let marker := versionFile Example.root in
  fst ((Set_Content w marker "v3";; read_marker V1 marker) Example.fresh) =
    Ok (Some ("v3" +:+ Example.crlf)) /\
  PS.eq "v3" ("v3" +:+ Example.crlf) = false /\
  fst ((Set_Content w marker "v3";; read_marker V2 marker) Example.fresh) = Ok (Some "v3").
Proof. vm_compute. repeat split. Qed.

(** ** The short-circuit *)

Lemma ps_eq_refl s : PS.eq s s = true.
Proof. unfold PS.eq. apply String.eqb_refl. Qed.

(** What [locate] answers does not depend on the state. *)
Lemma locate_fst w P st st2 : fst (locate w P st) = fst (locate w P st2).
Proof.
  destruct (String.eqb_spec (Owner P) ""), (String.eqb_spec (Repo P) "").
  1-3: rewrite !locate_remote by auto; reflexivity.
  rewrite !locate_explicit by auto. reflexivity.
Qed.

Lemma locate_log w P st :
  log (snd (locate w P st)) = log st \/
  log (snd (locate w P st)) = log st ++ [GitRemoteQuery].
Proof.
  destruct (String.eqb_spec (Owner P) ""), (String.eqb_spec (Repo P) "").
  1-3: rewrite !locate_remote by auto; right; reflexivity.
  rewrite !locate_explicit by auto. left. reflexivity.
Qed.

(** The run from the answer of the locator on: what it does is decided by
    the store's answer, the marker and the presence of the replica. *)
Lemma paths_run w P root st :
  paths w P root st =
  (if PS.truthy root && PS.truthy (TEMP w) then Ok tt else Throw (RuntimeError "Join-Path"),
   st).
Proof.
  unfold paths. unfold_cmdlets. now destruct (PS.truthy root), (PS.truthy (TEMP w)).
Qed.

Lemma paths_bound_true w root : paths_bound w root = true <-> root <> "" /\ TEMP w <> "".
Proof. unfold paths_bound. now rewrite andb_true_iff, !truthy_true. Qed.

Lemma continue_with_run SHA256 w v P root o n st :
  continue_with SHA256 w v P root (o, n) st =
  if paths_bound w root then
    let st1 := mkState (fs st) (log st ++ [ReleaseQuery (release_uri o n)]) in
    match Invoke_RestMethod w (release_headers w) (release_uri o n) with
    | None => (Throw RemoteUnavailableError, st1)
    | Some rel =>
        match local_tag v (fs st) root with
        | None => (Throw (marker_error (fs st) root), st1)
        | Some _ =>
            if shouldSkip v (fs st) root (tag_name rel) then (Exit 0, st1)
            else (stage SHA256 w v P rel;; replace w P root rel) st1
        end
    end
  else (Throw (RuntimeError "Join-Path"), st).
Proof.
  unfold continue_with. unfold mbind at 1. unfold Script_bind, bind.
  rewrite paths_run. fold (paths_bound w root).
  destruct (paths_bound w root); [| reflexivity].
  unfold mbind at 1. unfold Script_bind, bind.
  rewrite track_run. cbv zeta.
  destruct (Invoke_RestMethod w _ _); [| reflexivity].
  destruct (local_tag v (fs st) root); [| reflexivity].
  now destruct (shouldSkip v (fs st) root (tag_name r)).
Qed.

(** Both variants: when the tag the variant reads from the marker is the
    remote tag and the replica exists, the run is the locator, one query of
    the store, and exit code 0, with the file system untouched. *)
Lemma skip_when_current SHA256 w v P root o n st st0 rel :
  repo_root w v = Some root ->
  paths_bound w root = true ->
  locate w P st = (Ok (o, n), st0) ->
  Invoke_RestMethod w (release_headers w) (release_uri o n) = Some rel ->
  local_tag v (fs st) root = Some (Some (tag_name rel)) ->
  exists_at (fs st) (targetDb root) = true ->
  sync_db SHA256 w v P st =
    (Exit 0, mkState (fs st) (log st0 ++ [ReleaseQuery (release_uri o n)])).
Proof.
  intros Hroot Hpaths Hloc Hrel Htag Hdb.
  rewrite sync_db_staged, (staged_from_root _ _ _ _ _ _ Hroot), Hloc.
  rewrite continue_with_run, Hpaths. cbv zeta.
  apply locate_fs in Hloc. rewrite Hloc, Hrel, Htag.
  unfold shouldSkip. rewrite Htag. cbn [PS.eq_or_null]. now rewrite ps_eq_refl, Hdb.
Qed.

Lemma skip_run SHA256 w v P root o n st st0 rel :
  repo_root w v = Some root ->
  paths_bound w root = true ->
  locate w P st = (Ok (o, n), st0) ->
  Invoke_RestMethod w (release_headers w) (release_uri o n) = Some rel ->
  shouldSkip v (fs st) root (tag_name rel) = true ->
  sync_db SHA256 w v P st =
    (Exit 0, mkState (fs st) (log st0 ++ [ReleaseQuery (release_uri o n)])).
Proof.
  intros Hroot Hpaths Hloc Hrel Hskip.
  rewrite sync_db_staged, (staged_from_root _ _ _ _ _ _ Hroot), Hloc.
  rewrite continue_with_run, Hpaths. cbv zeta.
  apply locate_fs in Hloc. rewrite Hloc, Hrel, Hskip.
  unfold shouldSkip in Hskip. now destruct (local_tag v (fs st) root).
Qed.

Lemma locate_again w P st o n st0 st1 :
  locate w P st = (Ok (o, n), st0) ->
  exists st2, locate w P st1 = (Ok (o, n), st2) /\ fs st2 = fs st1 /\
    (log st2 = log st1 \/ log st2 = log st1 ++ [GitRemoteQuery]).
Proof.
  intros H. pose proof (locate_fst w P st st1) as Hf. rewrite H in Hf. simpl in Hf.
  pose proof (locate_log w P st1) as Hl.
  destruct (locate w P st1) as [r st2] eqn:H1. simpl in Hf, Hl. subst r.
  exists st2. split; [reflexivity |]. split; [| exact Hl].
  now apply locate_fs in H1.
Qed.

(** Variant 2, twice in a row: after a run that installed or skipped, the
    next run with the same release skips and leaves the file system; it
    sends no download. *)
Lemma sync_twice_v2 SHA256 w P st r st1 :
  let root := Get_RepoRoot_v2 w in
  scratch_apart root w P ->
  line_terminator (NewLine w) ->
  (forall h u rel, Invoke_RestMethod w h u = Some rel ->
     starts_with_space (tag_name rel) = false /\ ends_with_space (tag_name rel) = false) ->
  sync_db SHA256 w V2 P st = (r, st1) ->
  r = Ok tt \/ r = Exit 0 ->
  exists st2 l,
    sync_db SHA256 w V2 P st1 = (Exit 0, st2) /\ fs st2 = fs st1 /\
    log st2 = log st1 ++ l /\ forallb is_download l = false.
Proof.
  intros root (A1 & A2 & A3 & A4 & A5 & A6) Hnl Htags Hrun Hr.
  assert (Hroot : repo_root w V2 = Some root) by reflexivity.
  pose proof Hrun as Hrun0.
  rewrite sync_db_staged, (staged_from_root _ _ _ _ _ _ Hroot) in Hrun.
  destruct (locate w P st) as [[[o n] | c | e] st0] eqn:Hloc.
  2: { now apply locate_result in Hloc. }
  2: { injection Hrun as <- <-. destruct Hr; discriminate. }
  destruct (locate_again _ _ _ _ _ _ st1 Hloc) as (st2 & Hloc2 & Hfs2 & Hlog2).
  pose proof (locate_fs _ _ _ _ _ Hloc) as Hfs0.
  rewrite continue_with_run in Hrun. cbv zeta in Hrun. rewrite Hfs0 in Hrun.
  destruct (paths_bound w root) eqn:Hpaths.
  2: { injection Hrun as <- <-. destruct Hr; discriminate. }
  destruct (Invoke_RestMethod w _ _) as [rel |] eqn:Hrel.
  2: { injection Hrun as <- <-. destruct Hr; discriminate. }
  assert (Hskip2 : shouldSkip V2 (fs st1) root (tag_name rel) = true).
  { destruct (local_tag V2 (fs st) root) as [lt |] eqn:Hlt.
    2: { injection Hrun as <- <-. destruct Hr; discriminate. }
    destruct (shouldSkip V2 (fs st) root (tag_name rel)) eqn:Hskip.
    { injection Hrun as <- <-. simpl. exact Hskip. }
    set (sta := mkState (fs st) _) in Hrun.
    unfold mbind, Script_bind, bind in Hrun.
    destruct (stage SHA256 w V2 P rel sta) as [[[] | c | e] stb] eqn:Hstage.
    - destruct (replace_inv _ _ _ _ _ _ _ A1 A2 A5 Hrun) as (_ & _ & _ & Rres).
      destruct r as [[] | c | e]; [| destruct Rres | destruct Hr; discriminate].
      destruct Rres as (R1 & R2 & R3 & _).
      unfold shouldSkip, local_tag. rewrite R1.
      destruct (Htags _ _ _ Hrel) as [Hs He].
      rewrite (proj2 (truthy_true _)
                 (written_not_empty (tag_name rel) _ (line_terminator_not_empty _ Hnl))).
      rewrite (Trim_written _ _ Hs He (line_terminator_space _ Hnl)).
      cbn [PS.eq_or_null]. rewrite ps_eq_refl.
      unfold exists_at. rewrite R3. now destruct R2 as [x ->].
    - now apply stage_result in Hstage.
    - injection Hrun as <- <-. destruct Hr; discriminate. }
  rewrite (skip_run _ _ _ _ _ _ _ _ _ _ Hroot Hpaths Hloc2 Hrel Hskip2).
  destruct Hlog2 as [-> | ->]; eexists.
  - exists [ReleaseQuery (release_uri o n)]. repeat split.
  - exists [GitRemoteQuery; ReleaseQuery (release_uri o n)].
    split; [reflexivity |]. split; [reflexivity |]. split; [| reflexivity].
    simpl. now rewrite <- app_assoc.
Qed.

(** C2 fails in variant 1: a first run installs release v3 and writes the
    marker; a second run against the same release reads the marker with its
    line terminator, finds it different from v3, downloads the asset again,
    makes a backup and installs again.  Variant 2, from the same state,
    skips with exit code 0 and leaves the file system. *)
Lemma variant1_syncs_again :
  let w := Example.world "v3" "sencity v3" None Example.no_fault in
  let first := sync_db Example.sha256 w V1 default_params Example.fresh in
  let second := sync_db Example.sha256 w V1 default_params (snd first) in
  let second_v2 := sync_db Example.sha256 w V2 default_params (snd first) in
  fst first = Ok tt /\
  fs (snd first) !! versionFile Example.root = Some (File ("v3" +:+ Example.crlf)) /\
  fst second = Ok tt /\
  fs (snd second) !! "C:\repo\db.sqlite3.bak.20251103-093007" = Some (File "sencity v3") /\
  fs (snd first) !! "C:\repo\db.sqlite3.bak.20251103-093007" = None /\
  skipn (length (log (snd first))) (log (snd second)) =
    [GitRemoteQuery; ReleaseQuery Example.api; AssetDownload Example.db_url] /\
  fst second_v2 = Exit 0 /\
  map_to_list (fs (snd second_v2)) = map_to_list (fs (snd first)).
Proof. vm_compute. repeat split. Qed.

(** ** Failure and success of a run *)

(** Past the short-circuit the run is the two later stages. *)
Lemma proceeds_run SHA256 w v P root st o n rel :
  repo_root w v = Some root ->
  proceeds w v P root st o n rel ->
  sync_db SHA256 w v P st =
    (stage SHA256 w v P rel;; replace w P root rel)
      (mkState (fs st) (log (snd (locate w P st)) ++ [ReleaseQuery (release_uri o n)])).
Proof.
  intros Hroot (Hloc & Hr & Ht & Hrel & [lt Hlt] & Hskip).
  rewrite sync_db_staged, (staged_from_root _ _ _ _ _ _ Hroot).
  destruct (locate w P st) as [res st0] eqn:H0. simpl in Hloc. subst res.
  rewrite continue_with_run, (proj2 (paths_bound_true w root) (conj Hr Ht)). cbv zeta.
  rewrite (locate_fs _ _ _ _ _ H0), Hrel, Hlt, Hskip. reflexivity.
Qed.

(** A run ends before it fetches (and leaves the file system), or in the
    fetch and verify stage, or in the Replacer. *)
Lemma sync_db_cases SHA256 w v P root st r st' :
  repo_root w v = Some root ->
  sync_db SHA256 w v P st = (r, st') ->
  (fs st' = fs st /\ r <> Ok tt) \/
  (exists o n rel st1,
     proceeds w v P root st o n rel /\ fs st1 = fs st /\
     In (ReleaseQuery (release_uri o n)) (log st1) /\
     match stage SHA256 w v P rel st1 with
     | (Ok _, st2) => replace w P root rel st2 = (r, st')
     | (Throw e, st2) => r = Throw e /\ st' = st2
     | (Exit _, _) => False
     end).
Proof.
  intros Hroot Hrun.
  pose proof Hrun as Hrun0.
  rewrite sync_db_staged, (staged_from_root _ _ _ _ _ _ Hroot) in Hrun.
  destruct (locate w P st) as [[[o n] | c | e] st0] eqn:Hloc.
  2: { now apply locate_result in Hloc. }
  2: { injection Hrun as <- <-. apply locate_fs in Hloc. left. now split. }
  pose proof (locate_fs _ _ _ _ _ Hloc) as Hfs0.
  rewrite continue_with_run in Hrun. cbv zeta in Hrun. rewrite Hfs0 in Hrun.
  destruct (paths_bound w root) eqn:Hpaths.
  2: { injection Hrun as <- <-. left. now split. }
  apply paths_bound_true in Hpaths as [Hr Ht].
  destruct (Invoke_RestMethod w _ _) as [rel |] eqn:Hrel.
  2: { injection Hrun as <- <-. left. now split. }
  destruct (local_tag v (fs st) root) as [lt |] eqn:Hlt.
  2: { injection Hrun as <- <-. left. now split. }
  destruct (shouldSkip v (fs st) root (tag_name rel)) eqn:Hskip.
  { injection Hrun as <- <-. left. now split. }
  right. exists o, n, rel.
  exists (mkState (fs st) (log st0 ++ [ReleaseQuery (release_uri o n)])).
  split; [| split; [| split]].
  - unfold proceeds. rewrite Hloc, Hlt. eauto 10.
  - reflexivity.
  - simpl. apply in_app_iff. simpl. auto.
  - simpl. unfold mbind, Script_bind, bind in Hrun.
    destruct (stage SHA256 w v P rel _) as [[[] | c | e] st2] eqn:Hstage.
    + exact Hrun.
    + now apply stage_result in Hstage.
    + now injection Hrun as <- <-.
Qed.

(** What a run that installs leaves behind. *)
Lemma sync_db_ok_inv SHA256 w v P root st st' :
  repo_root w v = Some root ->
  scratch_apart root w P ->
  sync_db SHA256 w v P st = (Ok tt, st') ->
  (exists rel, store_answer w st' rel /\
     fs st' !! versionFile root = Some (File (tag_name rel +:+ NewLine w))) /\
  is_Some (fs st' !! targetDb root) /\
  match fs st !! targetDb root with
  | Some n => fs st' !! backupPath w root = Some n
  | None => fs st' !! backupPath w root = fs st !! backupPath w root
  end /\
  (forall p, is_backup root p = true -> p <> backupPath w root ->
             fs st' !! p = fs st !! p).
Proof.
  intros Hroot (A1 & A2 & A3 & A4 & A5 & A6) Hrun.
  destruct (sync_db_cases _ _ _ _ _ _ _ _ Hroot Hrun)
    as [[Hfs Hr] | (o & n & rel & st1 & Hp & Hfs1 & Hq & Hcase)]; [congruence |].
  destruct (stage SHA256 w v P rel st1) as [[[] | c | e] st2] eqn:Hstage;
    [rename Hcase into Hrep | destruct Hcase | destruct Hcase; discriminate].
  pose proof (stage_frame _ _ _ _ _ _ _ _ Hstage) as Hframe.
  pose proof (stage_log _ _ _ _ _ _ _ _ Hstage) as (l & Hlog & _).
  destruct (replace_inv _ _ _ _ _ _ _ A1 A2 A5 Hrep)
    as (Rlog & Rframe & Rbak & R1 & R2 & R3 & R4 & R5).
  rewrite Hfs1 in Hframe.
  assert (Htd : fs st2 !! targetDb root = fs st !! targetDb root)
    by (apply (Hframe (targetDb root)); congruence).
  assert (Hbk : forall p, is_backup root p = true -> fs st2 !! p = fs st !! p).
  { intros p Hb. apply (Hframe p); intros ->; congruence. }
  split; [| split; [| split]].
  - exists rel. split; [| exact R1].
    destruct Hp as (Hloc & _ & _ & Hrel & _).
    exists o, n. split; [exact Hrel |].
    rewrite Rlog, Hlog. apply in_app_iff. auto.
  - now rewrite R3.
  - rewrite Htd in R5. destruct (fs st !! targetDb root); [exact R5 |].
    rewrite R5. apply Hbk, is_backup_backupPath.
  - intros p Hb Hne. rewrite <- (Hbk p Hb). apply Rframe; try exact Hne.
    + intros ->. now rewrite is_backup_targetDb in Hb.
    + intros ->. now rewrite is_backup_versionFile in Hb.
    + intros ->. congruence.
Qed.

(** C1, as amended: a run that fails leaves the VersionMarker as it was,
    and LocalReplica too unless the step that failed is the last one, the
    write of the marker; a skipped run leaves the whole file system; a run
    that installs leaves the remote tag and a line terminator in the marker,
    a replica in place and, when a replica was there before, its node at the
    backup path of the run, every other backup being as before. *)
Theorem failure_keeps_marker_success_commits SHA256 w v P root st r st' :
  repo_root w v = Some root ->
  scratch_apart root w P ->
  sync_db SHA256 w v P st = (r, st') ->
  match r with
  | Throw e =>
      fs st' !! versionFile root = fs st !! versionFile root /\
      (e <> RuntimeError "Set-Content" -> fs st' !! targetDb root = fs st !! targetDb root)
  | Exit _ =>
      fs st' = fs st
  | Ok _ =>
      (exists rel, store_answer w st' rel /\
         fs st' !! versionFile root = Some (File (tag_name rel +:+ NewLine w))) /\
      is_Some (fs st' !! targetDb root) /\
      match fs st !! targetDb root with
      | Some n => fs st' !! backupPath w root = Some n
      | None => fs st' !! backupPath w root = fs st !! backupPath w root
      end /\
      (forall p, is_backup root p = true -> p <> backupPath w root ->
                 fs st' !! p = fs st !! p)
  end.
Proof.
  intros Hroot Hapart Hrun.
  destruct r as [[] | c | e].
  { exact (sync_db_ok_inv _ _ _ _ _ _ _ Hroot Hapart Hrun). }
  all: destruct Hapart as (A1 & A2 & A3 & A4 & A5 & A6).
  all: destruct (sync_db_cases _ _ _ _ _ _ _ _ Hroot Hrun)
    as [[Hfs Hr] | (o & n & rel & st1 & Hp & Hfs1 & Hq & Hcase)];
    [rewrite Hfs; auto |].
  all: destruct (stage SHA256 w v P rel st1) as [[[] | c' | e'] st2] eqn:Hstage;
    [rename Hcase into Hrep | destruct Hcase | destruct Hcase as [He ->]];
    pose proof (stage_frame _ _ _ _ _ _ _ _ Hstage) as Hframe;
    rewrite Hfs1 in Hframe.
  - (* an exit code comes from the short-circuit only *)
    now destruct (replace_inv _ _ _ _ _ _ _ A1 A2 A5 Hrep) as (_ & _ & _ & []).
  - discriminate.
  - (* the Replacer failed *)
    destruct (replace_inv _ _ _ _ _ _ _ A1 A2 A5 Hrep) as (_ & _ & _ & R1 & R2 & _).
    split.
    + rewrite R1. apply Hframe; congruence.
    + intros He. rewrite (R2 He). apply Hframe; congruence.
  - (* fetching or verifying failed *)
    split; [| intros _]; apply Hframe; congruence.
Qed.

(** C1 as stated fails: when the marker cannot be written, the run fails
    after the staged artifact has replaced the replica. *)
Lemma marker_write_failure_changes_replica :
  let w := Example.world "v4" "sencity v4" None Example.marker_locked in
  let run := sync_db Example.sha256 w V2 default_params Example.at_v3 in
  fst run = Throw (RuntimeError "Set-Content") /\
  fs Example.at_v3 !! targetDb Example.root = Some (File "sencity v3") /\
  fs (snd run) !! targetDb Example.root = Some (File "sencity v4") /\
  fs (snd run) !! versionFile Example.root = fs Example.at_v3 !! versionFile Example.root.
Proof. vm_compute. repeat split. Qed.

Lemma failure_keeps_marker_witness :
  let w := Example.world "v4" "sencity v4" None Example.marker_locked in
  let run := sync_db Example.sha256 w V2 default_params Example.at_v3 in
  repo_root w V2 = Some Example.root /\
  scratch_apart Example.root w default_params /\
  fs (snd run) !! versionFile Example.root = fs Example.at_v3 !! versionFile Example.root.
Proof.
  intros w run.
  assert (Hroot : repo_root w V2 = Some Example.root) by reflexivity.
  assert (Hapart : scratch_apart Example.root w default_params)
    by (repeat split; (discriminate || reflexivity)).
  split; [exact Hroot | split; [exact Hapart |]].
  pose proof (failure_keeps_marker_success_commits Example.sha256 w V2 default_params
                Example.root Example.at_v3 (fst run) (snd run) Hroot Hapart
                (surjective_pairing run)) as H.
  change (fst run) with (@Throw unit (RuntimeError "Set-Content")) in H.
  exact (proj1 H).
Defined.

(** ** The stages, run forward *)

Lemma stage_no_checksum SHA256 w v P rel st asset body :
  find_asset rel (AssetName P) = Some asset ->
  find_asset rel (ShaAssetName P) = None ->
  Invoke_WebRequest w octet_headers (browser_download_url asset) = Some body ->
  stage SHA256 w v P rel st =
    (Ok tt, mkState (<[tmpDownload w P := File body]> (fs st))
                    (log st ++ [AssetDownload (browser_download_url asset)])).
Proof.
  intros Ha Hs Hb. unfold stage, verify. rewrite Ha, Hs.
  unfold_cmdlets. rewrite Hb. reflexivity.
Qed.

Lemma stage_mismatch_v2 SHA256 w P rel st asset body shaAsset raw :
  find_asset rel (AssetName P) = Some asset ->
  Invoke_WebRequest w octet_headers (browser_download_url asset) = Some body ->
  find_asset rel (ShaAssetName P) = Some shaAsset ->
  Invoke_WebRequest w octet_headers (browser_download_url shaAsset) = Some raw ->
  tmpDownload w P <> shaTmp w P ->
  raw <> "" ->
  PS.ne (extract_v2 raw) (Net.ToLower (SHA256 body)) = true ->
  stage SHA256 w V2 P rel st =
    (Throw IntegrityError,
     mkState (delete (tmpDownload w P)
                (<[shaTmp w P := File raw]> (<[tmpDownload w P := File body]> (fs st))))
             (log st ++ [AssetDownload (browser_download_url asset);
                         AssetDownload (browser_download_url shaAsset)])).
Proof.
  intros Ha Hb Hs Hr Hne Hraw%truthy_true Hmis. unfold stage, verify. rewrite Ha, Hs.
  unfold Invoke_WebRequest_OutFile, mbind, Script_bind, bind. rewrite Hb, Hr.
  unfold write_file. cbn [fs log].
  rewrite (extract_v2_run _ raw) by (cbn [fs]; apply lookup_insert_eq).
  rewrite Hraw.
  unfold Get_FileHash_SHA256. cbn [fs].
  rewrite lookup_insert_ne by congruence. rewrite lookup_insert_eq.
  rewrite Hmis. unfold when, Remove_Item_Force_Silently, throw. cbn [fs log].
  now rewrite <- app_assoc.
Qed.

Lemma stage_mismatch_v1 SHA256 w P rel st asset body shaAsset raw e :
  find_asset rel (AssetName P) = Some asset ->
  Invoke_WebRequest w octet_headers (browser_download_url asset) = Some body ->
  find_asset rel (ShaAssetName P) = Some shaAsset ->
  Invoke_WebRequest w octet_headers (browser_download_url shaAsset) = Some raw ->
  tmpDownload w P <> shaTmp w P ->
  extract_v1 raw = Some e ->
  PS.ne (Net.ToLower e) (Net.ToLower (SHA256 body)) = true ->
  stage SHA256 w V1 P rel st =
    (Throw IntegrityError,
     mkState (<[shaTmp w P := File raw]> (<[tmpDownload w P := File body]> (fs st)))
             (log st ++ [AssetDownload (browser_download_url asset);
                         AssetDownload (browser_download_url shaAsset)])).
Proof.
  intros Ha Hb Hs Hr Hne He Hmis. unfold stage, verify. rewrite Ha, Hs.
  unfold Invoke_WebRequest_OutFile, mbind, Script_bind, bind. rewrite Hb, Hr.
  unfold write_file. cbn [fs log].
  rewrite (extract_v1_run _ raw) by (cbn [fs]; apply lookup_insert_eq).
  rewrite He.
  unfold Get_FileHash_SHA256. cbn [fs].
  rewrite lookup_insert_ne by congruence. rewrite lookup_insert_eq.
  rewrite Hmis. unfold when, throw. cbn [fs log].
  now rewrite <- app_assoc.
Qed.

Lemma replace_ok w P root rel st node :
  replacer_unhindered w root ->
  tmpDownload w P <> targetDb root ->
  tmpDownload w P <> versionFile root ->
  is_backup root (tmpDownload w P) = false ->
  fs st !! tmpDownload w P = Some node ->
  fs st !! versionFile root <> Some Directory ->
  replace w P root rel st =
    (Ok tt,
     mkState (<[versionFile root := File (tag_name rel +:+ NewLine w)]>
                (<[targetDb root := node]>
                   (delete (tmpDownload w P) (with_backup w root (fs st)))))
             (log st)).
Proof.
  intros (F1 & F2 & F3) H1 H2 H3 Htmp Hvf.
  pose proof (targetDb_versionFile root) as H4.
  pose proof (backupPath_versionFile w root) as H6.
  pose proof (backupPath_not_scratch w root _ H3) as H7.
  unfold replace, backup_then_replace, with_backup.
  change (targetDb root +:+ ".bak." +:+ Format_yyyyMMdd_HHmmss (Get_Date w))
    with (backupPath w root).
  unfold_cmdlets. unfold exists_at. rewrite F1, F2, F3.
  destruct (fs st !! versionFile root) as [[] |] eqn:Hv; try congruence;
    destruct (fs st !! targetDb root) as [old |] eqn:Hold; cbn [fs log];
    rewrite ?Hold; cbn [fs log]; simplify_map_eq; cbn [fs log]; simplify_map_eq;
    reflexivity.
Qed.

Lemma requests_app st st' l : log st' = log st ++ l -> requests st st' = l.
Proof.
  intros H. unfold requests. rewrite H.
  rewrite skipn_app, skipn_all, Nat.sub_diag. reflexivity.
Qed.

Lemma local_tag_file v m root :
  is_Some (local_tag v m root) -> m !! versionFile root <> Some Directory.
Proof.
  unfold local_tag. intros [x Hx] H. rewrite H in Hx. discriminate.
Qed.

(** The state a run without checksum asset ends in. *)
Lemma no_checksum_run SHA256 w v P root st o n rel asset body :
  repo_root w v = Some root ->
  scratch_apart root w P ->
  replacer_unhindered w root ->
  proceeds w v P root st o n rel ->
  find_asset rel (AssetName P) = Some asset ->
  find_asset rel (ShaAssetName P) = None ->
  Invoke_WebRequest w octet_headers (browser_download_url asset) = Some body ->
  sync_db SHA256 w v P st =
    (Ok tt,
     mkState
       (<[versionFile root := File (tag_name rel +:+ NewLine w)]>
          (<[targetDb root := File body]>
             (delete (tmpDownload w P)
                (with_backup w root (<[tmpDownload w P := File body]> (fs st))))))
       ((log (snd (locate w P st)) ++ [ReleaseQuery (release_uri o n)]) ++
        [AssetDownload (browser_download_url asset)])).
Proof.
  intros Hroot (A1 & A2 & A3 & A4 & A5 & A6) Hfault Hp Ha Hs Hb.
  rewrite (proceeds_run _ _ _ _ _ _ _ _ _ Hroot Hp).
  rewrite (bind_ok _ _ _ _ _ (stage_no_checksum _ _ _ _ _ _ _ _ Ha Hs Hb)).
  cbn [fs log].
  rewrite (replace_ok _ _ _ _ _ (File body) Hfault A1 A2 A5); [reflexivity | |].
  - cbn [fs]. apply lookup_insert_eq.
  - cbn [fs]. rewrite lookup_insert_ne by exact A2.
    destruct Hp as (_ & _ & _ & _ & Hlt & _). now apply local_tag_file in Hlt.
Qed.

(** C6: when the release has the data asset and no asset named as the
    checksum asset, a run that gets past the short-circuit, whose download
    is served and whose file cmdlets do not fail, does not verify and does
    not fail: it installs what it downloaded and writes the remote tag to
    the marker; the only download is the data asset, the hash function
    plays no part, and with no replica before the run no backup appears. *)
Theorem no_checksum_installs SHA256 w v P root st o n rel asset body :
  repo_root w v = Some root ->
  scratch_apart root w P ->
  replacer_unhindered w root ->
  proceeds w v P root st o n rel ->
  find_asset rel (AssetName P) = Some asset ->
  find_asset rel (ShaAssetName P) = None ->
  Invoke_WebRequest w octet_headers (browser_download_url asset) = Some body ->
  exists st',
    sync_db SHA256 w v P st = (Ok tt, st') /\
    fs st' !! targetDb root = Some (File body) /\
    fs st' !! versionFile root = Some (File (tag_name rel +:+ NewLine w)) /\
    filter (fun r => is_download r = true) (requests st st') =
      [AssetDownload (browser_download_url asset)] /\
    (forall hash, sync_db hash w v P st = (Ok tt, st')) /\
    (fs st !! targetDb root = None ->
     forall p, is_backup root p = true -> fs st' !! p = fs st !! p).
Proof.
  intros Hroot Hapart Hfault Hp Ha Hs Hb.
  pose proof (no_checksum_run SHA256 _ _ _ _ _ _ _ _ _ _ Hroot Hapart Hfault Hp Ha Hs Hb)
    as Hrun.
  destruct Hapart as (A1 & A2 & A3 & A4 & A5 & A6).
  pose proof (targetDb_versionFile root) as H4.
  eexists. split; [exact Hrun |]. cbn [fs log].
  split; [| split; [| split; [| split]]].
  - rewrite lookup_insert_ne by congruence. apply lookup_insert_eq.
  - apply lookup_insert_eq.
  - destruct (locate_log w P st) as [Hl | Hl].
    + rewrite (requests_app st _ [ReleaseQuery (release_uri o n);
                                  AssetDownload (browser_download_url asset)]).
      * reflexivity.
      * cbn [log]. rewrite Hl. now rewrite <- app_assoc.
    + rewrite (requests_app st _ [GitRemoteQuery; ReleaseQuery (release_uri o n);
                                  AssetDownload (browser_download_url asset)]).
      * reflexivity.
      * cbn [log]. rewrite Hl. now rewrite <- !app_assoc.
  - intros hash.
    apply (no_checksum_run hash _ _ _ _ _ _ _ _ _ _ Hroot); try assumption.
    now repeat split.
  - intros Hnone p Hb'.
    assert (p <> targetDb root) by (intros ->; now rewrite is_backup_targetDb in Hb').
    assert (p <> versionFile root) by (intros ->; now rewrite is_backup_versionFile in Hb').
    assert (p <> tmpDownload w P) by (intros ->; congruence).
    assert (Hin : <[tmpDownload w P := File body]> (fs st) !! targetDb root = None)
      by (rewrite lookup_insert_ne by congruence; exact Hnone).
    unfold with_backup. rewrite Hin. now simplify_map_eq.
Qed.

(** Scenario A: remote tag v3, no marker, no replica, no checksum asset;
    in variant 2, and in variant 1. *)
Lemma no_checksum_installs_witness :
  let w := Example.world "v3" "sencity v3" None Example.no_fault in
  (exists st',
     sync_db Example.sha256 w V2 default_params Example.fresh = (Ok tt, st') /\
     fs st' !! targetDb Example.root = Some (File "sencity v3") /\
     fs st' !! versionFile Example.root = Some (File ("v3" +:+ Example.crlf)) /\
     filter (fun r => is_download r = true) (requests Example.fresh st') =
       [AssetDownload Example.db_url] /\
     (forall p, is_backup Example.root p = true -> fs st' !! p = None)) /\
  (exists st',
     sync_db Example.sha256 w V1 default_params Example.fresh = (Ok tt, st') /\
     fs st' !! targetDb Example.root = Some (File "sencity v3") /\
     fs st' !! versionFile Example.root = Some (File ("v3" +:+ Example.crlf))).
Proof.
  intros w. split.
  - destruct (no_checksum_installs Example.sha256 w V2 default_params Example.root
                Example.fresh "yoona8030" "sencity_backend"
                (Example.release "v3" None) (mkAsset "db_release.sqlite3" Example.db_url)
                "sencity v3")
      as (st' & Hrun & Hdb & Hver & Hreq & _ & Hbak).
    + reflexivity.
    + repeat split; (discriminate || reflexivity).
    + repeat split.
    + repeat split; try discriminate; try reflexivity. exists (Some ""). reflexivity.
    + reflexivity.
    + reflexivity.
    + reflexivity.
    + exists st'. repeat split; try assumption.
      intros p Hp. rewrite (Hbak eq_refl p Hp). reflexivity.
  - destruct (no_checksum_installs Example.sha256 w V1 default_params Example.root
                Example.fresh "yoona8030" "sencity_backend"
                (Example.release "v3" None) (mkAsset "db_release.sqlite3" Example.db_url)
                "sencity v3")
      as (st' & Hrun & Hdb & Hver & _).
    + reflexivity.
    + repeat split; (discriminate || reflexivity).
    + repeat split.
    + repeat split; try discriminate; try reflexivity. exists (Some ""). reflexivity.
    + reflexivity.
    + reflexivity.
    + reflexivity.
    + exists st'. repeat split; assumption.
Defined.

(** ** Time stamps sort as times do *)

Lemma compare_append (a b x y : string) :
  String.length a = String.length b ->
  String.compare (a +:+ x) (b +:+ y) =
    then_compare (String.compare a b) (String.compare x y).
Proof.
  revert b. induction a as [|c a IH]; intros [|d b] Hlen; try discriminate.
  - reflexivity.
  - rewrite !append_cons. simpl in *.
    destruct (Ascii.compare c d); try reflexivity.
    apply IH. congruence.
Qed.

Lemma pad2_compare_small :
  forallb (fun m => forallb (fun n =>
      comparison_eqb (String.compare (pad2 m) (pad2 n)) (Nat.compare m n))
    (seq 0 100)) (seq 0 100) = true.
Proof. vm_compute. reflexivity. Qed.

Lemma comparison_eqb_eq c d : comparison_eqb c d = true -> c = d.
Proof. destruct c, d; simpl; congruence. Qed.

Lemma pad2_compare m n :
  m < 100 -> n < 100 -> String.compare (pad2 m) (pad2 n) = Nat.compare m n.
Proof.
  intros Hm Hn. apply comparison_eqb_eq.
  pose proof pad2_compare_small as H.
  rewrite forallb_forall in H.
  assert (Im : In m (seq 0 100)) by (apply in_seq; lia).
  assert (In' : In n (seq 0 100)) by (apply in_seq; lia).
  specialize (H m Im). rewrite forallb_forall in H. exact (H n In').
Qed.

Lemma mod_100 n : n mod 100 = n mod 10 + 10 * ((n / 10) mod 10).
Proof. change 100 with (10 * 10). apply Nat.Div0.mod_mul_r. Qed.

Lemma pad2_mod n : pad2 n = pad2 (n mod 100).
Proof.
  assert (H1 : n mod 10 < 10) by (apply Nat.mod_upper_bound; lia).
  assert (H2 : (n / 10) mod 10 < 10) by (apply Nat.mod_upper_bound; lia).
  unfold pad2, digit. rewrite (mod_100 n).
  set (r := n mod 10) in *. set (q := (n / 10) mod 10) in *.
  replace ((r + 10 * q) / 10) with q.
  - replace ((r + 10 * q) mod 10) with r.
    + now rewrite (Nat.mod_small q) by exact H2.
    + rewrite (Nat.mul_comm 10), Nat.Div0.mod_add. symmetry. now apply Nat.mod_small.
  - rewrite (Nat.mul_comm 10), Nat.div_add by lia.
    now rewrite (Nat.div_small r) by exact H1.
Qed.

Lemma pad2_length n : String.length (pad2 n) = 2.
Proof. reflexivity. Qed.

Lemma pad4_length n : String.length (pad4 n) = 4.
Proof. reflexivity. Qed.

Lemma compare_hundreds a b :
  Nat.compare a b =
  then_compare (Nat.compare (a / 100) (b / 100)) (Nat.compare (a mod 100) (b mod 100)).
Proof.
  pose proof (Nat.div_mod_eq a 100). pose proof (Nat.div_mod_eq b 100).
  assert (a mod 100 < 100) by (apply Nat.mod_upper_bound; lia).
  assert (b mod 100 < 100) by (apply Nat.mod_upper_bound; lia).
  destruct (Nat.compare_spec (a / 100) (b / 100)); cbn [then_compare];
    destruct (Nat.compare_spec a b); try reflexivity; try lia;
    destruct (Nat.compare_spec (a mod 100) (b mod 100)); try reflexivity; lia.
Qed.

Lemma pad4_compare m n :
  m < 100 * 100 -> n < 100 * 100 ->
  String.compare (pad4 m) (pad4 n) = Nat.compare m n.
Proof.
  intros Hm Hn. unfold pad4.
  rewrite compare_append by reflexivity.
  rewrite pad2_compare by (apply Nat.Div0.div_lt_upper_bound; lia).
  rewrite (pad2_mod m), (pad2_mod n).
  rewrite pad2_compare by (apply Nat.mod_upper_bound; lia).
  symmetry. apply compare_hundreds.
Qed.

(** The text order of two time stamps is the order of the times. *)
Lemma Format_sortable a b :
  fits a -> fits b ->
  String.compare (Format_yyyyMMdd_HHmmss a) (Format_yyyyMMdd_HHmmss b) = DateTime_compare a b.
Proof.
  intros (A1 & A2 & A3 & A4 & A5 & A6) (B1 & B2 & B3 & B4 & B5 & B6).
  unfold Format_yyyyMMdd_HHmmss, DateTime_compare.
  rewrite compare_append, pad4_compare by (reflexivity || assumption). f_equal.
  rewrite compare_append, pad2_compare by (reflexivity || assumption). f_equal.
  rewrite compare_append, pad2_compare by (reflexivity || assumption). f_equal.
  rewrite (compare_append "-" "-") by reflexivity.
  change (String.compare "-" "-") with Eq. cbn [then_compare].
  rewrite compare_append, pad2_compare by (reflexivity || assumption). f_equal.
  rewrite compare_append, pad2_compare by (reflexivity || assumption). f_equal.
  now apply pad2_compare.
Qed.

Lemma digit_is_digit n : is_digit (digit n) = true.
Proof.
  unfold digit. assert (H : n mod 10 < 10) by (apply Nat.mod_upper_bound; lia).
  destruct (n mod 10) as [|[|[|[|[|[|[|[|[|[|k]]]]]]]]]]; try (exfalso; lia);
    reflexivity.
Qed.

Lemma all_chars_append p a b :
  all_chars p (a +:+ b) = all_chars p a && all_chars p b.
Proof.
  induction a as [|c a IH]; [reflexivity |].
  rewrite append_cons. simpl. now rewrite IH, andb_assoc.
Qed.

Lemma pad2_digits n : all_chars is_digit (pad2 n) = true.
Proof. unfold pad2. cbn [all_chars]. now rewrite !digit_is_digit. Qed.

Lemma Format_shape d : stamp_shape (Format_yyyyMMdd_HHmmss d).
Proof.
  exists (pad4 (year d) +:+ pad2 (month d) +:+ pad2 (day d)),
         (pad2 (hour d) +:+ pad2 (minute d) +:+ pad2 (second d)).
  split; [| split; [| split; [| split]]].
  - unfold Format_yyyyMMdd_HHmmss. now rewrite !append_assoc.
  - rewrite !length_append. reflexivity.
  - rewrite !length_append. reflexivity.
  - unfold pad4. now rewrite !all_chars_append, !pad2_digits.
  - now rewrite !all_chars_append, !pad2_digits.
Qed.

Lemma Format_length d : String.length (Format_yyyyMMdd_HHmmss d) = 15.
Proof.
  unfold Format_yyyyMMdd_HHmmss. rewrite !length_append. reflexivity.
Qed.

(** ** Backups *)

Lemma backups_lookup root (m : gmap string Node) p :
  backups root m !! p = if is_backup root p then m !! p else None.
Proof.
  unfold backups. destruct (is_backup root p) eqn:Hp.
  - apply option_eq. intros y. rewrite map_lookup_filter_Some. simpl.
    split; [now intros [Hy _] | now intros Hy].
  - apply map_lookup_filter_None. right. intros x _. simpl. congruence.
Qed.

(** C5, as amended: a run that installs over an existing replica leaves
    the node of that replica at the path [<replica>.bak.<yyyyMMdd-HHmmss>]
    and changes no other backup, so that the backups are those before the
    run and this one: one more when the name was free, and as many as
    before, the file of that name overwritten, when it was taken; the time
    stamp is eight digits, a hyphen and six digits, and the text order of
    time stamps is the order of the times; with no replica before the run
    the backups are unchanged. *)
Theorem backup_of_previous_replica SHA256 w v P root st st' :
  repo_root w v = Some root ->
  scratch_apart root w P ->
  sync_db SHA256 w v P st = (Ok tt, st') ->
  (backupPath w root = targetDb root +:+ ".bak." +:+ Format_yyyyMMdd_HHmmss (Get_Date w) /\
   stamp_shape (Format_yyyyMMdd_HHmmss (Get_Date w)) /\
   forall a b, fits a -> fits b ->
     String.compare (Format_yyyyMMdd_HHmmss a) (Format_yyyyMMdd_HHmmss b) =
       DateTime_compare a b) /\
  match fs st !! targetDb root with
  | Some old =>
      fs st' !! backupPath w root = Some old /\
      backups root (fs st') = <[backupPath w root := old]> (backups root (fs st)) /\
      (fs st !! backupPath w root = None ->
       size (backups root (fs st')) = S (size (backups root (fs st)))) /\
      (is_Some (fs st !! backupPath w root) ->
       size (backups root (fs st')) = size (backups root (fs st)))
  | None => backups root (fs st') = backups root (fs st)
  end.
Proof.
  intros Hroot Hapart Hrun.
  destruct (sync_db_ok_inv _ _ _ _ _ _ _ Hroot Hapart Hrun) as (_ & _ & Hbak & Hothers).
  split.
  { split; [reflexivity |]. split; [apply Format_shape |]. apply Format_sortable. }
  destruct (fs st !! targetDb root) as [old |] eqn:Hold.
  - assert (Heq : backups root (fs st') = <[backupPath w root := old]> (backups root (fs st))).
    { apply map_eq. intros p. rewrite backups_lookup.
      destruct (decide (p = backupPath w root)) as [-> | Hne].
      - rewrite is_backup_backupPath, lookup_insert_eq. exact Hbak.
      - rewrite lookup_insert_ne by congruence. rewrite backups_lookup.
        destruct (is_backup root p) eqn:Hp; [| reflexivity]. now apply Hothers. }
    split; [exact Hbak |]. split; [exact Heq |]. split.
    + intros Hfree. rewrite Heq. apply map_size_insert_None.
      rewrite backups_lookup, is_backup_backupPath. exact Hfree.
    + intros Hother. rewrite Heq. apply map_size_insert_Some.
      rewrite backups_lookup, is_backup_backupPath. exact Hother.
  - apply map_eq. intros p. rewrite !backups_lookup.
    destruct (is_backup root p) eqn:Hp; [| reflexivity].
    destruct (decide (p = backupPath w root)) as [-> | Hne]; [exact Hbak |].
    now apply Hothers.
Qed.

Lemma backup_of_previous_replica_witness :
  let w := Example.world "v4" "sencity v4" None Example.no_fault in
  let run1 := sync_db Example.sha256 w V1 default_params Example.at_v3 in
  let run2 := sync_db Example.sha256 w V2 default_params Example.at_v3 in
  backupPath w Example.root = "C:\repo\db.sqlite3.bak.20251103-093007" /\
  (fst run1 = Ok tt /\
   fs (snd run1) !! backupPath w Example.root = Some (File "sencity v3") /\
   size (backups Example.root (fs (snd run1))) =
     S (size (backups Example.root (fs Example.at_v3)))) /\
  (fst run2 = Ok tt /\
   fs (snd run2) !! backupPath w Example.root = Some (File "sencity v3") /\
   size (backups Example.root (fs (snd run2))) =
     S (size (backups Example.root (fs Example.at_v3)))).
Proof.
  intros w run1 run2. split; [reflexivity |]. split.
  - destruct (backup_of_previous_replica Example.sha256 w V1 default_params Example.root
                Example.at_v3 (snd run1)) as (_ & H).
    + reflexivity.
    + repeat split; (discriminate || reflexivity).
    + rewrite (surjective_pairing (sync_db _ _ _ _ _)). reflexivity.
    + change (fs Example.at_v3 !! targetDb Example.root) with (Some (File "sencity v3")) in H.
      destruct H as (H1 & _ & H3 & _).
      split; [reflexivity |]. split; [exact H1 |]. apply H3. reflexivity.
  - destruct (backup_of_previous_replica Example.sha256 w V2 default_params Example.root
                Example.at_v3 (snd run2)) as (_ & H).
    + reflexivity.
    + repeat split; (discriminate || reflexivity).
    + rewrite (surjective_pairing (sync_db _ _ _ _ _)). reflexivity.
    + change (fs Example.at_v3 !! targetDb Example.root) with (Some (File "sencity v3")) in H.
      destruct H as (H1 & _ & H3 & _).
      split; [reflexivity |]. split; [exact H1 |]. apply H3. reflexivity.
Defined.

(** C5 as stated fails: two runs in the same second, the store serving
    release v4 to the first and v5 to the second.  Both install over an
    existing replica; the second finds the backup of the first at its own
    backup path and overwrites it, so that it creates no new backup file and
    the replica of release v3 is in no backup any more. *)
Lemma backup_overwritten_within_a_second :
  let w4 := Example.world "v4" "sencity v4" None Example.no_fault in
  let w5 := Example.world "v5" "sencity v5" None Example.no_fault in
  let first := sync_db Example.sha256 w4 V2 default_params Example.at_v3 in
  let second := sync_db Example.sha256 w5 V2 default_params (snd first) in
  let second_v1 := sync_db Example.sha256 w5 V1 default_params (snd first) in
  Get_Date w4 = Get_Date w5 /\
  fst first = Ok tt /\
  map_to_list (backups Example.root (fs (snd first))) =
    [("C:\repo\db.sqlite3.bak.20251103-093007", File "sencity v3")] /\
  fs (snd first) !! targetDb Example.root = Some (File "sencity v4") /\
  fst second = Ok tt /\
  fs (snd second) !! targetDb Example.root = Some (File "sencity v5") /\
  map_to_list (backups Example.root (fs (snd second))) =
    [("C:\repo\db.sqlite3.bak.20251103-093007", File "sencity v4")] /\
  fst second_v1 = Ok tt /\
  map_to_list (backups Example.root (fs (snd second_v1))) =
    [("C:\repo\db.sqlite3.bak.20251103-093007", File "sencity v4")].
Proof. vm_compute. repeat split. Qed.

(** ** Integrity gate *)

(** A failure in the fetch and verify stage leaves replica, marker and
    backups. *)
Lemma stage_failure_frame SHA256 w v P root st o n rel e st1 :
  repo_root w v = Some root ->
  scratch_apart root w P ->
  proceeds w v P root st o n rel ->
  stage SHA256 w v P rel
    (mkState (fs st) (log (snd (locate w P st)) ++ [ReleaseQuery (release_uri o n)])) =
    (Throw e, st1) ->
  sync_db SHA256 w v P st = (Throw e, st1) /\
  fs st1 !! targetDb root = fs st !! targetDb root /\
  fs st1 !! versionFile root = fs st !! versionFile root /\
  backups root (fs st1) = backups root (fs st).
Proof.
  intros Hroot (A1 & A2 & A3 & A4 & A5 & A6) Hp Hstage.
  pose proof (stage_frame _ _ _ _ _ _ _ _ Hstage) as Hframe. cbn [fs] in Hframe.
  split; [| split; [| split]].
  - rewrite (proceeds_run _ _ _ _ _ _ _ _ _ Hroot Hp).
    unfold mbind, Script_bind, bind. now rewrite Hstage.
  - apply Hframe; congruence.
  - apply Hframe; congruence.
  - apply map_eq. intros p. rewrite !backups_lookup.
    destruct (is_backup root p) eqn:Hb; [| reflexivity].
    apply Hframe; intros ->; congruence.
Qed.

(** Variant 2: a digest that differs from the one expected from a checksum
    text that is not empty ends the run with an IntegrityError, the staged
    artifact deleted, the Replacer not run. *)
Lemma integrity_gate_v2 SHA256 w P root st o n rel asset body shaAsset raw :
  repo_root w V2 = Some root ->
  scratch_apart root w P ->
  tmpDownload w P <> shaTmp w P ->
  proceeds w V2 P root st o n rel ->
  find_asset rel (AssetName P) = Some asset ->
  Invoke_WebRequest w octet_headers (browser_download_url asset) = Some body ->
  find_asset rel (ShaAssetName P) = Some shaAsset ->
  Invoke_WebRequest w octet_headers (browser_download_url shaAsset) = Some raw ->
  raw <> "" ->
  PS.ne (extract_v2 raw) (Net.ToLower (SHA256 body)) = true ->
  exists st',
    sync_db SHA256 w V2 P st = (Throw IntegrityError, st') /\
    fs st' !! tmpDownload w P = None /\
    fs st' !! targetDb root = fs st !! targetDb root /\
    fs st' !! versionFile root = fs st !! versionFile root /\
    backups root (fs st') = backups root (fs st).
Proof.
  intros Hroot Hapart Hne Hp Ha Hb Hs Hr Hraw Hmis.
  eexists.
  destruct (stage_failure_frame SHA256 w V2 P root st o n rel _ _ Hroot Hapart Hp
              (stage_mismatch_v2 _ _ _ _ _ _ _ _ _ Ha Hb Hs Hr Hne Hraw Hmis))
    as (H1 & H2 & H3 & H4).
  split; [exact H1 |]. split; [| now repeat split].
  cbn [fs]. apply lookup_delete_eq.
Qed.

(** Variant 1: the same, but the staged artifact stays where it was
    downloaded. *)
Lemma integrity_gate_v1 SHA256 w P root st o n rel asset body shaAsset raw e :
  repo_root w V1 = Some root ->
  scratch_apart root w P ->
  tmpDownload w P <> shaTmp w P ->
  proceeds w V1 P root st o n rel ->
  find_asset rel (AssetName P) = Some asset ->
  Invoke_WebRequest w octet_headers (browser_download_url asset) = Some body ->
  find_asset rel (ShaAssetName P) = Some shaAsset ->
  Invoke_WebRequest w octet_headers (browser_download_url shaAsset) = Some raw ->
  extract_v1 raw = Some e ->
  PS.ne (Net.ToLower e) (Net.ToLower (SHA256 body)) = true ->
  exists st',
    sync_db SHA256 w V1 P st = (Throw IntegrityError, st') /\
    fs st' !! tmpDownload w P = Some (File body) /\
    fs st' !! targetDb root = fs st !! targetDb root /\
    fs st' !! versionFile root = fs st !! versionFile root /\
    backups root (fs st') = backups root (fs st).
Proof.
  intros Hroot Hapart Hne Hp Ha Hb Hs Hr He Hmis.
  eexists.
  destruct (stage_failure_frame SHA256 w V1 P root st o n rel _ _ Hroot Hapart Hp
              (stage_mismatch_v1 _ _ _ _ _ _ _ _ _ _ Ha Hb Hs Hr Hne He Hmis))
    as (H1 & H2 & H3 & H4).
  split; [exact H1 |]. split; [| now repeat split].
  cbn [fs]. rewrite lookup_insert_ne by congruence. apply lookup_insert_eq.
Qed.

(** C3 fails in variant 1: release v4 comes with the checksum of another
    text.  Both variants end with an IntegrityError and leave replica and
    marker, but variant 1 leaves the staged artifact in the scratch
    directory, where variant 2 deletes it. *)
Lemma variant1_keeps_staged_artifact :
  let checksum := "3be1f6624e828d73362db49ff35fd0daaa06570b3a0068c87c85506fb3d811aa" in
  let w := Example.world "v4" "sencity v4" (Some checksum) Example.no_fault in
  let run1 := sync_db Example.sha256 w V1 default_params Example.at_v3 in
  let run2 := sync_db Example.sha256 w V2 default_params Example.at_v3 in
  fst run1 = Throw IntegrityError /\
  fs (snd run1) !! tmpDownload w default_params = Some (File "sencity v4") /\
  fs (snd run1) !! targetDb Example.root = Some (File "sencity v3") /\
  fs (snd run1) !! versionFile Example.root = Some (File ("v3" +:+ Example.crlf)) /\
  fst run2 = Throw IntegrityError /\
  fs (snd run2) !! tmpDownload w default_params = None.
Proof. vm_compute. repeat split. Qed.

(** ** The expected digest *)

Lemma rx_rep {A} p n i s cs (k : nat -> string -> PS.captures -> option A) :
  PS.rx (PS.rRep n (PS.rChr p)) i s cs k =
  match run_of p n s with
  | Some s' => k (n + i) s' cs
  | None => None
  end.
Proof.
  revert i s. induction n as [|n IH]; intros i s; [reflexivity |].
  cbn [PS.rRep run_of].
  change (PS.rx (PS.rSeq ?a ?b) i s cs k)
    with (PS.rx a i s cs (fun i' s' cs' => PS.rx b i' s' cs' k)).
  destruct s as [|c s]; [reflexivity |].
  rewrite rx_chr. destruct (p c); [| reflexivity].
  rewrite IH. now replace (n + S i) with (S n + i) by lia.
Qed.

Lemma run_of_append p h s :
  all_chars p h = true -> run_of p (String.length h) (h +:+ s) = Some s.
Proof.
  induction h as [|c h IH]; [reflexivity |].
  rewrite append_cons. simpl. intros [Hc Hh]%andb_true_iff. rewrite Hc. auto.
Qed.

Lemma hex_ToLowerChar c : PS.hex (Net.ToLowerChar c) = PS.hex c.
Proof. destruct c as [[] [] [] [] [] [] [] []]; reflexivity. Qed.

Lemma hex_not_space c : PS.hex c = true -> Net.IsWhiteSpace c = false.
Proof.
  destruct c as [[] [] [] [] [] [] [] []]; vm_compute; intros H;
    first [reflexivity | discriminate H].
Qed.

Lemma hex_not_terminator c :
  PS.hex c = true -> Ascii.eqb c Net.LF = false /\ Ascii.eqb c Net.CR = false.
Proof.
  destruct c as [[] [] [] [] [] [] [] []]; vm_compute; intros H;
    first [split; reflexivity | discriminate H].
Qed.

Lemma ToLower_append a b : Net.ToLower (a +:+ b) = Net.ToLower a +:+ Net.ToLower b.
Proof.
  induction a as [|c a IH]; [reflexivity |].
  rewrite append_cons. simpl. rewrite append_cons. now rewrite IH.
Qed.

Lemma ToLower_length a : String.length (Net.ToLower a) = String.length a.
Proof. induction a as [|c a IH]; simpl; congruence. Qed.

Lemma ToLower_hex h : all_chars PS.hex (Net.ToLower h) = all_chars PS.hex h.
Proof. induction h as [|c h IH]; simpl; [reflexivity | now rewrite hex_ToLowerChar, IH]. Qed.

(** ["^[0-9a-f]{64}$"] on a text: 64 digits and then the end, or a last
    line feed. *)
Lemma matches_exact_digest e :
  matches e Patterns.exact_digest =
  match run_of PS.hex 64 e with
  | Some r => String.eqb r "" || String.eqb r (String Net.LF "")
  | None => false
  end.
Proof.
  unfold matches, PS.search.
  assert (Hlater : forall s i, PS.search_from Patterns.exact_digest (S i) s = None).
  { induction s as [|c s IH]; intros i; rewrite search_from_eq;
      unfold Patterns.exact_digest; rx_group; rx_seq; cbn [PS.rx Nat.eqb]; auto. }
  rewrite search_from_eq.
  unfold Patterns.exact_digest at 1. rx_group. rx_seq.
  change (PS.rx PS.rBol 0 e ?cs ?k) with (k 0 e cs).
  cbv beta. rx_seq. rewrite rx_rep.
  destruct (run_of PS.hex 64 e) as [r |] eqn:Hr.
  - destruct r as [|c [|d r]]; cbn [PS.rx].
    + reflexivity.
    + destruct (Ascii.eqb_spec c Net.LF) as [-> | Hc].
      * reflexivity.
      * destruct e; [discriminate | rewrite Hlater]. cbn.
        destruct (Ascii.eqb_spec c Net.LF); [contradiction | reflexivity].
    + destruct e; [discriminate | rewrite Hlater]. simpl.
      now destruct (Ascii.eqb c _).
  - destruct e; [reflexivity | now rewrite Hlater].
Qed.

Lemma first_hex_run_eq n s :
  first_hex_run n s =
  match run_of PS.hex n s with
  | Some _ => Some (substring 0 n s)
  | None =>
      match s with
      | EmptyString => None
      | String _ s' => first_hex_run n s'
      end
  end.
Proof. destruct s; reflexivity. Qed.

(** [Select-String] with ["[0-9a-fA-F]{64}"] on one line. *)
Lemma search_any_digest l i :
  option_map (PS.group "0") (PS.search_from Patterns.any_digest i l) = first_hex_run 64 l.
Proof.
  revert i. induction l as [|c l IH]; intros i;
    rewrite search_from_eq, first_hex_run_eq;
    unfold Patterns.any_digest; rx_group; rewrite rx_rep;
    match goal with |- context [run_of PS.hex 64 ?s] => destruct (run_of PS.hex 64 s) end.
  - cbn [option_map PS.group String.eqb Ascii.eqb]. now rewrite Nat.add_sub.
  - reflexivity.
  - unfold option_map, PS.group. simpl String.eqb. cbv iota. now rewrite Nat.add_sub.
  - apply IH.
Qed.

Lemma segments_nonempty s : exists l ls, Net.segments s = l :: ls.
Proof.
  induction s as [|c s (l & ls & IH)]; [now exists "", [] |].
  simpl. destruct (Ascii.eqb c Net.LF); [eauto |].
  destruct (Ascii.eqb c Net.CR).
  - destruct s as [|d s]; [eauto |]. destruct (Ascii.eqb d Net.LF); eauto.
  - rewrite IH. eauto.
Qed.

(** A text without line terminator in front stays in front of the first
    line. *)
Lemma segments_prefix a b :
  all_chars not_terminator a = true ->
  exists l ls, Net.segments (a +:+ b) = (a +:+ l) :: ls.
Proof.
  induction a as [|c a IH]; intros Ha.
  - apply segments_nonempty.
  - simpl in Ha. apply andb_true_iff in Ha as [Hc Ha].
    destruct (IH Ha) as (l & ls & Hl).
    exists l, ls. rewrite !append_cons. simpl.
    unfold not_terminator in Hc. apply andb_true_iff in Hc as [H1 H2].
    apply negb_true_iff in H1, H2. now rewrite H1, H2, Hl.
Qed.

Lemma ReadLines_prefix a b :
  a <> "" -> all_chars not_terminator a = true ->
  exists l ls, Net.ReadLines (a +:+ b) = (a +:+ l) :: ls.
Proof.
  intros Hne Ha. destruct (segments_prefix a b Ha) as (l & ls & Hl).
  unfold Net.ReadLines. rewrite Hl. exists l.
  assert (Hx : String.eqb (a +:+ l) "" = false).
  { destruct a; [congruence | reflexivity]. }
  destruct ls as [|y ls]; simpl; rewrite ?Hx; eauto.
Qed.

Lemma all_chars_impl (p q : ascii -> bool) s :
  (forall c, p c = true -> q c = true) -> all_chars p s = true -> all_chars q s = true.
Proof.
  intros H. induction s as [|c s IH]; simpl; [reflexivity |].
  intros [Hc Hs]%andb_true_iff. now rewrite (H c Hc), IH.
Qed.

Lemma hex_not_terminator' c : PS.hex c = true -> not_terminator c = true.
Proof.
  intros H. destruct (hex_not_terminator c H) as [H1 H2].
  unfold not_terminator. now rewrite H1, H2.
Qed.

Lemma digest_text_nonempty h : digest_text h -> h <> "".
Proof. intros [Hl _] ->. discriminate. Qed.

(** On a text that starts with a digest, the search finds that digest. *)
Lemma Select_String_leading h b :
  digest_text h ->
  Select_String_First Patterns.any_digest (Net.ReadLines (h +:+ b)) = Some h.
Proof.
  intros Hd. pose proof (digest_text_nonempty h Hd) as Hne. destruct Hd as [Hlen Hhex].
  destruct (ReadLines_prefix h b Hne (all_chars_impl _ _ _ hex_not_terminator' Hhex))
    as (l & ls & ->).
  cbn [Select_String_First]. unfold PS.search.
  pose proof (search_any_digest (h +:+ l) 0) as Hs.
  assert (H1 : run_of PS.hex 64 (h +:+ l) = Some l)
    by (rewrite <- Hlen; now apply run_of_append).
  assert (H2 : substring 0 64 (h +:+ l) = h)
    by (rewrite <- Hlen; apply substring_prefix).
  rewrite first_hex_run_eq, H1, H2 in Hs.
  destruct (PS.search_from _ _ _); simpl in Hs; congruence.
Qed.

Lemma TrimEnd_keeps_prefix h b :
  all_chars (fun c => negb (Net.IsWhiteSpace c)) h = true ->
  Net.TrimEnd (h +:+ b) = h +:+ Net.TrimEnd b.
Proof.
  induction h as [|c h IH]; intros Hh; [reflexivity |].
  simpl in Hh. apply andb_true_iff in Hh as [Hc Hh]. apply negb_true_iff in Hc.
  rewrite !append_cons. simpl. rewrite (IH Hh).
  destruct (h +:+ Net.TrimEnd b); [now rewrite Hc | reflexivity].
Qed.

Lemma TrimEnd_ends s : ends_with_space (Net.TrimEnd s) = false.
Proof.
  induction s as [|c s IH]; [reflexivity |].
  simpl. destruct (Net.TrimEnd s) as [|d t] eqn:Ht.
  - destruct (Net.IsWhiteSpace c) eqn:Hc; simpl; [reflexivity | exact Hc].
  - exact IH.
Qed.

Lemma ToLower_nil_inv s : Net.ToLower s = "" -> s = "".
Proof. destruct s; simpl; congruence. Qed.

Lemma ToLowerChar_space c : Net.IsWhiteSpace (Net.ToLowerChar c) = Net.IsWhiteSpace c.
Proof. destruct c as [[] [] [] [] [] [] [] []]; reflexivity. Qed.

Lemma ToLower_ends s : ends_with_space (Net.ToLower s) = ends_with_space s.
Proof.
  induction s as [|c [|d s] IH]; [reflexivity | apply ToLowerChar_space |].
  exact IH.
Qed.

Lemma hex_digits_no_space h :
  all_chars PS.hex h = true ->
  all_chars (fun c => negb (Net.IsWhiteSpace c)) h = true.
Proof.
  apply all_chars_impl. intros c Hc. now rewrite (hex_not_space c Hc).
Qed.

Lemma Trim_leading_digest h b :
  digest_text h -> Net.Trim (h +:+ b) = h +:+ Net.TrimEnd b.
Proof.
  intros Hd. pose proof (digest_text_nonempty h Hd) as Hne. destruct Hd as [_ Hhex].
  unfold Net.Trim. rewrite TrimStart_id.
  - apply TrimEnd_keeps_prefix, hex_digits_no_space, Hhex.
  - destruct h as [|c h]; [congruence |]. rewrite append_cons. simpl in *.
    apply andb_true_iff in Hhex as [Hc _]. now apply hex_not_space.
Qed.

(** Variant 2 on a checksum text that starts with a digest: whatever
    follows, the expected digest is that digest in lower case. *)
Lemma extract_v2_leading h b :
  digest_text h -> extract_v2 (h +:+ b) = Net.ToLower h.
Proof.
  intros Hd. unfold extract_v2.
  rewrite (Select_String_leading h b Hd).
  destruct (negb _) eqn:Hm; [reflexivity |].
  apply negb_false_iff in Hm. rewrite matches_exact_digest in Hm.
  rewrite (Trim_leading_digest h b Hd), ToLower_append in *.
  destruct Hd as [Hlen Hhex].
  assert (Hr : run_of PS.hex 64 (Net.ToLower h +:+ Net.ToLower (Net.TrimEnd b)) =
               Some (Net.ToLower (Net.TrimEnd b))).
  { rewrite <- Hlen, <- (ToLower_length h). apply run_of_append. now rewrite ToLower_hex. }
  rewrite Hr in Hm. apply orb_true_iff in Hm as [Hm | Hm]; apply String.eqb_eq in Hm.
  - rewrite Hm. apply append_nil_r.
  - pose proof (TrimEnd_ends b) as He. rewrite <- ToLower_ends, Hm in He. discriminate.
Qed.

(** Variant 2 on a checksum text that is a digest between white space. *)
Lemma extract_v2_exact raw h :
  digest_text h -> Net.Trim raw = h -> extract_v2 raw = Net.ToLower h.
Proof.
  intros [Hlen Hhex] Ht. unfold extract_v2. rewrite Ht, matches_exact_digest.
  replace (run_of PS.hex 64 (Net.ToLower h)) with (Some "").
  - reflexivity.
  - symmetry. rewrite <- (append_nil_r (Net.ToLower h)), <- Hlen, <- (ToLower_length h).
    apply run_of_append. now rewrite ToLower_hex.
Qed.

Lemma ToLower_lower_hex h : all_chars lower_hex h = true -> Net.ToLower h = h.
Proof.
  induction h as [|c h IH]; [reflexivity |].
  simpl. intros [Hc Hh]%andb_true_iff. rewrite (IH Hh). f_equal.
  revert Hc. destruct c as [[] [] [] [] [] [] [] []]; vm_compute; intros H;
    first [reflexivity | discriminate H].
Qed.

Lemma SplitFirst_cons c s :
  Net.SplitFirst (String c s) =
  if Ascii.eqb c " " then EmptyString else String c (Net.SplitFirst s).
Proof. reflexivity. Qed.

Lemma SplitFirst_blank h b :
  all_chars (fun c => negb (Ascii.eqb c " ")) h = true ->
  Net.SplitFirst (h +:+ " " +:+ b) = h.
Proof.
  induction h as [|c h IH]; [reflexivity |].
  cbn [all_chars]. intros [Hc Hh]%andb_true_iff. apply negb_true_iff in Hc.
  rewrite append_cons, SplitFirst_cons, Hc. now rewrite (IH Hh).
Qed.

Lemma hex_not_blank c : PS.hex c = true -> negb (Ascii.eqb c " ") = true.
Proof.
  destruct c as [[] [] [] [] [] [] [] []]; vm_compute; intros H;
    first [reflexivity | discriminate H].
Qed.

Lemma ends_with_space_digits h :
  all_chars PS.hex h = true -> ends_with_space h = false.
Proof.
  induction h as [|c [|d h] IH]; [reflexivity | |].
  - simpl. intros [Hc _]%andb_true_iff. now apply hex_not_space.
  - intros [_ Hh]%andb_true_iff. exact (IH Hh).
Qed.

(** Variant 1 on a checksum text that starts with a digest and a blank:
    the digest as it stands. *)
Lemma extract_v1_leading h b :
  digest_text h -> extract_v1 (h +:+ " " +:+ b) = Some h.
Proof.
  intros Hd. pose proof (digest_text_nonempty h Hd) as Hne. destruct Hd as [Hlen Hhex].
  unfold extract_v1.
  assert (Hpre : all_chars not_terminator (h +:+ " ") = true).
  { clear -Hhex. induction h as [|c h IH]; [reflexivity |].
    rewrite append_cons. simpl in *. apply andb_true_iff in Hhex as [Hc Hh].
    now rewrite (hex_not_terminator' c Hc), (IH Hh). }
  assert (Hne' : h +:+ " " <> "") by (destruct h; [congruence | discriminate]).
  destruct (ReadLines_prefix (h +:+ " ") b Hne' Hpre) as (l & ls & Hl).
  rewrite append_assoc in Hl. rewrite Hl. rewrite append_assoc.
  rewrite SplitFirst_blank by (now apply (all_chars_impl PS.hex), Hhex; apply hex_not_blank).
  f_equal. apply Trim_id.
  - destruct h as [|c h]; [congruence |]. simpl in *.
    apply andb_true_iff in Hhex as [Hc _]. now apply hex_not_space.
  - now apply ends_with_space_digits.
Qed.

(** *** The search line by line finds the first run of the whole text *)

Lemma Select_String_lines ls :
  Select_String_First Patterns.any_digest ls = first_run_in_lines 64 ls.
Proof.
  induction ls as [|l ls IH]; [reflexivity |].
  cbn [Select_String_First first_run_in_lines]. unfold PS.search.
  rewrite <- (search_any_digest l 0), IH.
  now destruct (PS.search_from Patterns.any_digest 0 l).
Qed.

Lemma first_hex_run_nil n : first_hex_run (S n) "" = None.
Proof. reflexivity. Qed.

Lemma first_run_drop_last n ls :
  first_run_in_lines (S n) (Net.drop_last_empty ls) = first_run_in_lines (S n) ls.
Proof.
  induction ls as [|x [|y ls] IH]; [reflexivity | |].
  - cbn [Net.drop_last_empty]. destruct (String.eqb_spec x ""); [now subst | reflexivity].
  - cbn [Net.drop_last_empty first_run_in_lines] in *. now rewrite IH.
Qed.

(** The first line is the text up to its first line terminator. *)
Lemma first_segment s l ls :
  Net.segments s = l :: ls ->
  exists t, s = l +:+ t /\
    match t with
    | EmptyString => True
    | String c _ => not_terminator c = false
    end.
Proof.
  revert l ls. induction s as [|c s IH]; intros l ls H.
  - injection H as <- <-. now exists "".
  - simpl in H. destruct (Ascii.eqb c Net.LF) eqn:Hlf.
    { injection H as <- <-. exists (String c s). split; [reflexivity |].
      unfold not_terminator. now rewrite Hlf. }
    destruct (Ascii.eqb c Net.CR) eqn:Hcr.
    { exists (String c s). unfold not_terminator. rewrite Hcr, Hlf. simpl.
      destruct s as [|d s]; [| destruct (Ascii.eqb d Net.LF)];
        injection H as <- <-; split; reflexivity. }
    destruct (Net.segments s) as [|l' ls'] eqn:Hs; [destruct (segments_nonempty s) as (? & ? & E); congruence |].
    injection H as <- <-.
    destruct (IH l' ls' eq_refl) as (t & -> & Ht).
    exists t. now rewrite append_cons.
Qed.

(** A run of digits does not pass a line terminator. *)
Lemma run_of_cut n l t :
  match t with
  | EmptyString => True
  | String c _ => PS.hex c = false
  end ->
  match run_of PS.hex n (l +:+ t), run_of PS.hex n l with
  | Some _, Some _ => substring 0 n (l +:+ t) = substring 0 n l
  | None, None => True
  | _, _ => False
  end.
Proof.
  intros Ht. revert n. induction l as [|c l IH]; intros n.
  - rewrite append_nil_l. destruct n as [|n]; [now destruct t |].
    simpl. destruct t as [|d t]; [exact I | now rewrite Ht].
  - rewrite append_cons. destruct n as [|n]; [reflexivity |].
    simpl. destruct (PS.hex c); [| exact I].
    specialize (IH n).
    destruct (run_of PS.hex n (l +:+ t)), (run_of PS.hex n l); try exact IH.
    now rewrite IH.
Qed.

Lemma terminator_not_hex c : not_terminator c = false -> PS.hex c = false.
Proof.
  destruct (PS.hex c) eqn:H; [| reflexivity].
  now rewrite (hex_not_terminator' c H).
Qed.

Lemma first_run_segments n s :
  first_run_in_lines (S n) (Net.segments s) = first_hex_run (S n) s.
Proof.
  induction s as [|c s IH]; [reflexivity |].
  rewrite (first_hex_run_eq (S n) (String c s)).
  cbn [Net.segments].
  destruct (Ascii.eqb c Net.LF) eqn:Hlf.
  { cbn [first_run_in_lines]. rewrite first_hex_run_nil, IH.
    cbn [run_of]. apply Ascii.eqb_eq in Hlf. now subst c. }
  destruct (Ascii.eqb c Net.CR) eqn:Hcr.
  { apply Ascii.eqb_eq in Hcr. subst c. cbn [run_of].
    change (PS.hex Net.CR) with false. cbv iota. rewrite <- IH.
    destruct s as [|d s]; [reflexivity |].
    cbn [Net.segments]. destruct (Ascii.eqb d Net.LF); reflexivity. }
  destruct (Net.segments s) as [|l ls] eqn:Hs;
    [destruct (segments_nonempty s) as (? & ? & E); congruence |].
  cbn [first_run_in_lines] in *.
  rewrite (first_hex_run_eq (S n) (String c l)).
  destruct (first_segment s l ls Hs) as (t & Hst & Ht).
  assert (Hcut := run_of_cut (S n) (String c l) t).
  rewrite append_cons, <- Hst in Hcut.
  specialize (Hcut ltac:(destruct t; [exact I | now apply terminator_not_hex])).
  destruct (run_of PS.hex (S n) (String c s)), (run_of PS.hex (S n) (String c l));
    try contradiction.
  - now rewrite Hcut.
  - exact IH.
Qed.

(** [Select-String] over the lines of a text finds its first run of 64
    hexadecimal digits. *)
Lemma Select_String_first_run raw :
  Select_String_First Patterns.any_digest (Net.ReadLines raw) = first_hex_run 64 raw.
Proof.
  rewrite Select_String_lines. unfold Net.ReadLines.
  now rewrite first_run_drop_last, first_run_segments.
Qed.

(** Variant 2 in full: the trimmed text in lower case when that is a
    digest (at most followed by a line feed), else the first run of 64
    hexadecimal digits of the raw text in lower case, else the trimmed
    text in lower case. *)
Lemma extract_v2_spec raw :
  extract_v2 raw =
  let cleaned := Net.ToLower (Net.Trim raw) in
  if matches cleaned Patterns.exact_digest then cleaned
  else match first_hex_run 64 raw with
       | Some h => Net.ToLower h
       | None => cleaned
       end.
Proof.
  unfold extract_v2. rewrite Select_String_first_run. cbv zeta.
  now destruct (matches _ _).
Qed.

Lemma run_of_Some p n s r :
  run_of p n s = Some r ->
  exists h, s = h +:+ r /\ String.length h = n /\ all_chars p h = true.
Proof.
  revert s. induction n as [|n IH]; intros s H.
  - injection H as <-. now exists "".
  - destruct s as [|c s]; [discriminate |]. simpl in H.
    destruct (p c) eqn:Hc; [| discriminate].
    destruct (IH s H) as (h & -> & Hlen & Hh).
    exists (String c h). rewrite append_cons. simpl. now rewrite Hlen, Hc, Hh.
Qed.

Lemma ends_with_space_append_LF h :
  ends_with_space (h +:+ String Net.LF "") = true.
Proof.
  induction h as [|c h IH]; [reflexivity |].
  rewrite append_cons. simpl. destruct (h +:+ String Net.LF "") eqn:E; [| exact IH].
  destruct h; discriminate.
Qed.

(** The test of variant 2 holds exactly of a text that trims to a digest. *)
Lemma exact_digest_iff raw :
  matches (Net.ToLower (Net.Trim raw)) Patterns.exact_digest = true <->
  digest_text (Net.Trim raw).
Proof.
  rewrite matches_exact_digest. split.
  - destruct (run_of PS.hex 64 _) as [r |] eqn:Hr; [| discriminate].
    destruct (run_of_Some _ _ _ _ Hr) as (h & He & Hlen & Hh).
    intros [H | H]%orb_true_iff; apply String.eqb_eq in H; subst r.
    + rewrite append_nil_r in He. subst h. split.
      * now rewrite ToLower_length in Hlen.
      * now rewrite ToLower_hex in Hh.
    + pose proof (ends_with_space_append_LF h) as E. rewrite <- He in E.
      rewrite ToLower_ends in E. unfold Net.Trim in E. now rewrite TrimEnd_ends in E.
  - intros [Hlen Hh].
    replace (run_of PS.hex 64 (Net.ToLower (Net.Trim raw))) with (Some ""); [reflexivity |].
    symmetry. rewrite <- (append_nil_r (Net.ToLower (Net.Trim raw))).
    rewrite <- Hlen, <- (ToLower_length (Net.Trim raw)).
    apply run_of_append. now rewrite ToLower_hex.
Qed.

(** The tolerant extraction of variant 2, in the words of the design: the
    text stripped of surrounding white space when that is a digest, else
    the first run of 64 hexadecimal digits of the raw text; in lower case
    either way. *)
Lemma extract_v2_tolerant raw :
  (digest_text (Net.Trim raw) -> extract_v2 raw = Net.ToLower (Net.Trim raw)) /\
  (~ digest_text (Net.Trim raw) ->
   forall h, first_hex_run 64 raw = Some h -> extract_v2 raw = Net.ToLower h).
Proof.
  rewrite extract_v2_spec. cbv zeta. split.
  - intros H%exact_digest_iff. now rewrite H.
  - intros H h Hh. destruct (matches _ _) eqn:Hm.
    + now apply exact_digest_iff in Hm.
    + now rewrite Hh.
Qed.

(** C4 fails in variant 1: it takes the first line up to the first blank
    and has no search for a digest.  On a checksum text in the tagged form
    of [shasum --tag] it expects the word SHA256, and on a digest after
    leading blanks it expects the empty text, where variant 2 finds the
    digest; with the right digest published in the tagged form variant 1
    ends with an IntegrityError and variant 2 installs. *)
Lemma variant1_takes_first_word :
  let digest := "af393dfb468c5e0ea869ddb90bbfef72db7b093deee061c82791055eba84f58e" in
  let tagged := "SHA256 (db_release.sqlite3) = " +:+ digest +:+ String Net.LF "" in
  let indented := "  " +:+ digest +:+ "  db_release.sqlite3" +:+ String Net.LF "" in
  let w := Example.world "v4" "sencity v4" (Some tagged) Example.no_fault in
  extract_v1 tagged = Some "SHA256" /\
  extract_v2 tagged = digest /\
  extract_v1 indented = Some "" /\
  extract_v2 indented = digest /\
  Net.ToLower (Example.sha256 "sencity v4") = digest /\
  fst (sync_db Example.sha256 w V1 default_params Example.at_v3) = Throw IntegrityError /\
  fst (sync_db Example.sha256 w V2 default_params Example.at_v3) = Ok tt.
Proof. vm_compute. repeat split. Qed.

(** ** Hook installer *)

Lemma append_inj_same_length (a c x y : string) :
  String.length a = String.length c -> a +:+ x = c +:+ y -> a = c /\ x = y.
Proof.
  revert c. induction a as [|p a IH]; intros [|q c] Hlen H; try discriminate.
  - now split.
  - rewrite !append_cons in H. injection H as -> H. simpl in Hlen.
    destruct (IH c) as [-> ->]; [congruence | exact H | now split].
Qed.

(** Two texts with different endings of the same length differ. *)
Lemma suffix_differs (a c x y : string) :
  String.length x = String.length y -> x <> y -> a +:+ x <> c +:+ y.
Proof.
  intros Hlen Hne H. apply Hne.
  assert (String.length a = String.length c).
  { apply (f_equal String.length) in H. rewrite !length_append in H. lia. }
  now destruct (append_inj_same_length a c x y).
Qed.

Lemma slot_not_git r hooks t : In t targets -> slot hooks t <> Join_Path r ".git".
Proof.
  unfold slot, Join_Path, targets. intros Ht H. simpl in Ht.
  destruct Ht as [<- | [<- | [<- | []]]].
  - change ("\" +:+ "post-checkout.bat") with ("\post-checkou" +:+ "t.bat") in H.
    rewrite <- append_assoc in H. revert H.
    apply suffix_differs; [reflexivity | discriminate].
  - change ("\" +:+ "post-merge.bat") with ("\post-merg" +:+ "e.bat") in H.
    rewrite <- append_assoc in H. revert H.
    apply suffix_differs; [reflexivity | discriminate].
  - change ("\" +:+ "post-rewrite.bat") with ("\post-rewrit" +:+ "e.bat") in H.
    rewrite <- append_assoc in H. revert H.
    apply suffix_differs; [reflexivity | discriminate].
Qed.

Lemma slot_not_hooks hooks t : slot hooks t <> hooks.
Proof.
  unfold slot, Join_Path. intros H.
  apply (f_equal String.length) in H. rewrite length_append in H.
  rewrite length_append in H. simpl in H. lia.
Qed.

Lemma slot_inj hooks t u : slot hooks t = slot hooks u -> t = u.
Proof.
  unfold slot, Join_Path. intros H%append_inj_l. now apply append_inj_l in H.
Qed.

Lemma install_hooks_run w st :
  install_hooks w st =
  match hooks_dir w (fs st) with
  | None => (Throw EnvironmentError, st)
  | Some hooks =>
      if exists_at (fs st) hooks
      then foreach targets (fun t => Set_Content w (slot hooks t) (bat w)) st
      else (Throw EnvironmentError, st)
  end.
Proof.
  unfold install_hooks, hooks_dir. unfold Test_Path, when, throw, mbind, mret,
    Script_bind, Script_ret, bind, ret. cbn [fs].
  destruct (exists_at (fs st) (Join_Path (Split_Path_Parent (PSScriptRoot w)) ".git"));
    cbn [negb option_map].
  - destruct st as [m l]. cbn [fs].
    now destruct (exists_at m _).
  - destruct (git_toplevel w) as [out |]; cbn [option_map]; [| reflexivity].
    destruct st as [m l]. cbn [fs]. now destruct (exists_at m _).
Qed.

(** The loop over the three targets. *)
Lemma write_stubs w hooks st :
  (forall t, In t targets ->
     fault w SetContent (slot hooks t) = false /\ fs st !! slot hooks t <> Some Directory) ->
  foreach targets (fun t => Set_Content w (slot hooks t) (bat w)) st =
    (Ok tt,
     mkState (<[slot hooks "post-rewrite.bat" := stub w]>
               (<[slot hooks "post-merge.bat" := stub w]>
                 (<[slot hooks "post-checkout.bat" := stub w]> (fs st))))
             (log st)).
Proof.
  intros H. unfold targets in *. cbn [foreach].
  destruct (H "post-checkout.bat") as [F1 D1]; [simpl; auto |].
  destruct (H "post-merge.bat") as [F2 D2]; [simpl; auto |].
  destruct (H "post-rewrite.bat") as [F3 D3]; [simpl; auto |].
  set (text := bat w +:+ NewLine w).
  set (st1 := write_file (slot hooks "post-checkout.bat") text st).
  set (st2 := write_file (slot hooks "post-merge.bat") text st1).
  assert (D2' : fs st1 !! slot hooks "post-merge.bat" <> Some Directory).
  { subst st1. unfold write_file. cbn [fs].
    rewrite lookup_insert_ne; [exact D2 | intros E%slot_inj; discriminate]. }
  assert (D3' : fs st2 !! slot hooks "post-rewrite.bat" <> Some Directory).
  { subst st2 st1. unfold write_file. cbn [fs].
    rewrite !lookup_insert_ne; [exact D3 | intros E%slot_inj; discriminate ..]. }
  rewrite (bind_ok _ _ _ _ _ (Set_Content_ok w _ (bat w) st F1 D1)).
  rewrite (bind_ok _ _ _ _ _ (Set_Content_ok w _ (bat w) st1 F2 D2')).
  rewrite (bind_ok _ _ _ _ _ (Set_Content_ok w _ (bat w) st2 F3 D3')).
  reflexivity.
Qed.

Lemma hooks_dir_frame w (m m' : gmap string Node) :
  exists_at m' (Join_Path (Split_Path_Parent (PSScriptRoot w)) ".git") =
    exists_at m (Join_Path (Split_Path_Parent (PSScriptRoot w)) ".git") ->
  hooks_dir w m' = hooks_dir w m.
Proof. intros H. unfold hooks_dir. now rewrite H. Qed.

(** C9: with a hook directory, the installer writes the stub into the three
    slots post-checkout.bat, post-merge.bat and post-rewrite.bat, whatever
    they held, and touches no other path; run again it writes the same and
    leaves the state; the stub's lines are known and the one that starts
    PowerShell passes the script [sync_db.ps1] and no argument; without a
    hook directory the installer ends with an EnvironmentError and writes
    nothing. *)
Theorem installer_writes_three_stubs w st :
  (forall hooks,
     hooks_dir w (fs st) = Some hooks ->
     exists_at (fs st) hooks = true ->
     (forall t, In t targets ->
        fault w SetContent (slot hooks t) = false /\
        fs st !! slot hooks t <> Some Directory) ->
     exists st',
       install_hooks w st = (Ok tt, st') /\
       (forall t, In t targets -> fs st' !! slot hooks t = Some (stub w)) /\
       (forall p, (forall t, In t targets -> p <> slot hooks t) -> fs st' !! p = fs st !! p) /\
       install_hooks w st' = (Ok tt, st')) /\
  (match hooks_dir w (fs st) with
   | Some hooks => exists_at (fs st) hooks = false
   | None => True
   end -> install_hooks w st = (Throw EnvironmentError, st)) /\
  targets = ["post-checkout.bat"; "post-merge.bat"; "post-rewrite.bat"] /\
  (line_terminator (NewLine w) ->
   Net.ReadLines (bat w +:+ NewLine w) =
     ["@echo off";
      "REM Auto-sync DB from latest GitHub Release on checkout/merge/rewrite";
      "REM Uses PowerShell to run scripts\sync_db.ps1";
      sync_invocation;
      "exit /b 0"]) /\
  script_and_arguments sync_invocation = Some ("%~dp0..\..\scripts\sync_db.ps1", "").
Proof.
  split; [| split; [| split; [| split]]].
  - intros hooks Hdir Hex Hok.
    set (m' := <[slot hooks "post-rewrite.bat" := stub w]>
                 (<[slot hooks "post-merge.bat" := stub w]>
                    (<[slot hooks "post-checkout.bat" := stub w]> (fs st)))).
    exists (mkState m' (log st)).
    assert (Hrun : install_hooks w st = (Ok tt, mkState m' (log st))).
    { rewrite install_hooks_run, Hdir, Hex. now apply write_stubs. }
    assert (Hslots : forall t, In t targets -> m' !! slot hooks t = Some (stub w)).
    { intros t Ht. unfold targets in Ht. simpl in Ht. subst m'.
      destruct Ht as [<- | [<- | [<- | []]]].
      - rewrite !lookup_insert_ne by (intros E%slot_inj; discriminate).
        apply lookup_insert_eq.
      - rewrite lookup_insert_ne by (intros E%slot_inj; discriminate).
        apply lookup_insert_eq.
      - apply lookup_insert_eq. }
    assert (Hframe : forall p, (forall t, In t targets -> p <> slot hooks t) ->
                               m' !! p = fs st !! p).
    { intros p Hp. subst m'. unfold targets in Hp.
      rewrite !lookup_insert_ne; [reflexivity | ..];
        intros E; symmetry in E; revert E; apply Hp; simpl; auto. }
    split; [exact Hrun |]. split; [exact Hslots |]. split; [exact Hframe |].
    rewrite install_hooks_run. cbn [fs log].
    assert (Hdir' : hooks_dir w m' = Some hooks).
    { rewrite <- Hdir. apply hooks_dir_frame. unfold exists_at. rewrite Hframe; [reflexivity |].
      intros t Ht E. symmetry in E. revert E. now apply slot_not_git. }
    assert (Hex' : exists_at m' hooks = true).
    { unfold exists_at in *. rewrite Hframe; [exact Hex |].
      intros t Ht E. symmetry in E. revert E. apply slot_not_hooks. }
    rewrite Hdir', Hex'.
    rewrite write_stubs.
    + cbn [fs log]. f_equal. f_equal.
      rewrite (insert_id m' (slot hooks "post-checkout.bat")) by (apply Hslots; simpl; auto).
      rewrite (insert_id m' (slot hooks "post-merge.bat")) by (apply Hslots; simpl; auto).
      apply insert_id, Hslots. simpl. auto.
    + intros t Ht. cbn [fs]. split; [apply (Hok t Ht) |].
      rewrite (Hslots t Ht). discriminate.
  - intros H. rewrite install_hooks_run.
    destruct (hooks_dir w (fs st)); [now rewrite H | reflexivity].
  - reflexivity.
  - intros [H | H]; unfold bat; rewrite H; reflexivity.
  - reflexivity.
Qed.

Lemma installer_witness :
  let w := Example.world "v3" "sencity v3" None Example.no_fault in
  let hooks := "C:\repo\.git\hooks" in
  hooks_dir w (fs Example.cloned) = Some hooks /\
  fs Example.cloned !! slot hooks "post-merge.bat" = Some (File "old stub") /\
  exists st',
    install_hooks w Example.cloned = (Ok tt, st') /\
    fs st' !! slot hooks "post-checkout.bat" = Some (stub w) /\
    fs st' !! slot hooks "post-merge.bat" = Some (stub w) /\
    fs st' !! slot hooks "post-rewrite.bat" = Some (stub w) /\
    fs st' !! "C:\repo\.git\hooks" = Some Directory /\
    install_hooks w st' = (Ok tt, st').
Proof.
  intros w hooks.
  split; [reflexivity |]. split; [reflexivity |].
  destruct (installer_writes_three_stubs w Example.cloned) as (H & _).
  destruct (H hooks) as (st' & Hrun & Hslots & Hframe & Hagain).
  - reflexivity.
  - reflexivity.
  - intros t Ht. split; [reflexivity |].
    simpl in Ht. destruct Ht as [<- | [<- | [<- | []]]]; vm_compute; discriminate.
  - exists st'. split; [exact Hrun |].
    split; [apply Hslots; simpl; auto |].
    split; [apply Hslots; simpl; auto |].
    split; [apply Hslots; simpl; auto |].
    split; [| exact Hagain].
    rewrite Hframe; [reflexivity |].
    intros t Ht. simpl in Ht.
    destruct Ht as [<- | [<- | [<- | []]]]; discriminate.
Defined.


(** * Further properties of the scripts *)

(** ** What [Parse-GitRemote] can answer *)

Section MatcherInversion.
Context {A : Type}.
Implicit Types (k : nat -> string -> PS.captures -> option A).

Lemma rx_seq_eq r1 r2 i s cs k :
  PS.rx (PS.rSeq r1 r2) i s cs k =
  PS.rx r1 i s cs (fun i' s' cs' => PS.rx r2 i' s' cs' k).
Proof. reflexivity. Qed.

Lemma rx_group_eq name r i s cs k :
  PS.rx (PS.rGroup name r) i s cs k =
  PS.rx r i s cs (fun i' s' cs' => k i' s' ((name, substring 0 (i' - i) s) :: cs')).
Proof. reflexivity. Qed.

Lemma rx_eps_eq i s cs k : PS.rx PS.rEps i s cs k = k i s cs.
Proof. reflexivity. Qed.

Lemma rx_alt_inv r1 r2 i s cs k v :
  PS.rx (PS.rAlt r1 r2) i s cs k = Some v ->
  PS.rx r1 i s cs k = Some v \/ PS.rx r2 i s cs k = Some v.
Proof.
  cbn [PS.rx]. destruct (PS.rx r1 i s cs k); [intros [= ->]; now left | now right].
Qed.

Lemma rx_eol_inv i s cs k v :
  PS.rx PS.rEol i s cs k = Some v ->
  (s = "" \/ s = String Net.LF "") /\ k i s cs = Some v.
Proof.
  cbn [PS.rx]. destruct s as [|c [|d s]]; [now auto | | discriminate].
  destruct (Ascii.eqb_spec c Net.LF); [subst; now auto | discriminate].
Qed.

Lemma rx_lit_inv c i s cs k v :
  PS.rx (PS.rLit c) i s cs k = Some v ->
  exists x s', s = String x s' /\ Net.ToLowerChar x = Net.ToLowerChar c /\
    k (S i) s' cs = Some v.
Proof.
  destruct s as [|x s']; [discriminate |]. unfold PS.rLit. rewrite rx_chr.
  destruct (Ascii.eqb_spec (Net.ToLowerChar x) (Net.ToLowerChar c)); [| discriminate].
  eauto.
Qed.

Lemma rx_str_inv t i s cs k v :
  PS.rx (PS.rStr t) i s cs k = Some v ->
  exists h s', s = h +:+ s' /\ PS.eq h t = true /\
    k (String.length t + i) s' cs = Some v.
Proof.
  revert i s. induction t as [|c t IH]; intros i s H.
  - exists "", s. auto.
  - cbn [PS.rStr] in H. rewrite rx_seq_eq in H.
    apply rx_lit_inv in H as (x & s1 & -> & Hx & H).
    apply IH in H as (h & s2 & -> & Hh & H).
    exists (String x h), s2. split; [reflexivity |]. split.
    + unfold PS.eq in *. simpl. now rewrite Hx, Ascii.eqb_refl.
    + simpl. now replace (S (String.length t + i)) with (String.length t + S i) by lia.
Qed.

Lemma star_class_inv p k fuel i s cs v :
  PS.star_loop (PS.rx (PS.rChr p)) k fuel i s cs = Some v ->
  exists o s', s = o +:+ s' /\ all_chars p o = true /\
    k (String.length o + i) s' cs = Some v.
Proof.
  revert i s. induction fuel as [|fuel IH]; intros i s H.
  - exists "", s. auto.
  - rewrite star_loop_S in H. destruct s as [|c s].
    + rewrite rx_chr_nil in H. exists "", "". auto.
    + rewrite rx_chr in H. destruct (p c) eqn:Hc.
      * replace (i <? S i)%nat with true in H by (symmetry; apply Nat.ltb_lt; lia).
        destruct (PS.star_loop _ k fuel (S i) s cs) as [v' |] eqn:Hin.
        -- injection H as ->. apply IH in Hin as (o & s' & -> & Ho & Hk).
           exists (String c o), s'. split; [reflexivity |]. split.
           ++ simpl. now rewrite Hc, Ho.
           ++ simpl. now replace (S (String.length o + i)) with (String.length o + S i) by lia.
        -- exists "", (String c s). auto.
      * exists "", (String c s). auto.
Qed.

Lemma plus_class_inv p k i s cs v :
  PS.rx (PS.rPlus (PS.rChr p)) i s cs k = Some v ->
  exists o s', s = o +:+ s' /\ o <> "" /\ all_chars p o = true /\
    k (String.length o + i) s' cs = Some v.
Proof.
  unfold PS.rPlus. rewrite rx_seq_eq. destruct s as [|c s]; [discriminate |].
  rewrite rx_chr. destruct (p c) eqn:Hc; [| discriminate].
  intros H. apply star_class_inv in H as (o & s' & -> & Ho & Hk).
  exists (String c o), s'. split; [reflexivity |]. split; [discriminate |]. split.
  - simpl. now rewrite Hc, Ho.
  - simpl. now replace (S (String.length o + i)) with (String.length o + S i) by lia.
Qed.

End MatcherInversion.

Lemma search_from_inv r i s cs :
  PS.search_from r i s = Some cs ->
  exists pre s', s = pre +:+ s' /\
    PS.rx (PS.rGroup "0" r) (String.length pre + i) s' [] (fun _ _ cs => Some cs) = Some cs.
Proof.
  revert i. induction s as [|c s IH]; intros i H; rewrite search_from_eq in H.
  - destruct (PS.rx _ i "" _ _) eqn:E; [| discriminate].
    injection H as ->. exists "", "". auto.
  - destruct (PS.rx _ i (String c s) _ _) eqn:E.
    + injection H as ->. exists "", (String c s). auto.
    + apply IH in H as (pre & s' & -> & H). exists (String c pre), s'.
      split; [reflexivity |]. simpl.
      now replace (S (String.length pre + i)) with (String.length pre + S i) by lia.
Qed.

Lemma every_char_spec P : every_char P = true -> forall c, P c = true.
Proof.
  unfold every_char. rewrite forallb_forall. intros H c.
  rewrite <- (ascii_nat_embedding c). apply H, in_seq.
  pose proof (nat_ascii_bounded c). lia.
Qed.

Lemma one_of_sep c : PS.one_of ":/" c = true -> In (String c "") [":"; "/"].
Proof.
  intros H.
  assert (E : every_char (fun c =>
                implb (PS.one_of ":/" c) (Ascii.eqb c ":" || Ascii.eqb c "/")) = true)
    by (vm_compute; reflexivity).
  apply every_char_spec with (c := c) in E. rewrite H in E. simpl in E.
  apply orb_true_iff in E as [E | E]; apply Ascii.eqb_eq in E; subst c; simpl; auto.
Qed.

Lemma lower_slash c : Net.ToLowerChar c = Net.ToLowerChar "/" -> c = "/"%char.
Proof.
  intros H.
  assert (E : every_char (fun c =>
                implb (Ascii.eqb (Net.ToLowerChar c) (Net.ToLowerChar "/"))
                      (Ascii.eqb c "/")) = true)
    by (vm_compute; reflexivity).
  apply every_char_spec with (c := c) in E. rewrite H, Ascii.eqb_refl in E.
  now apply Ascii.eqb_eq in E.
Qed.

(** A match of the pattern at one place of the subject. *)
Lemma git_remote_inv i s cs :
  PS.rx (PS.rGroup "0" Patterns.git_remote) i s [] (fun _ _ cs => Some cs) = Some cs ->
  exists host sep o n tail,
    s = host +:+ sep +:+ o +:+ "/" +:+ n +:+ tail /\
    PS.eq host "github.com" = true /\ In sep [":"; "/"] /\
    owner_text o /\ repo_text n /\ remote_tail tail /\
    PS.group "owner" cs = o /\ PS.group "repo" cs = n.
Proof.
  intros H. unfold Patterns.git_remote in H.
  rewrite rx_group_eq, rx_seq_eq in H.
  apply rx_str_inv in H as (host & s1 & -> & Hhost & H).
  rewrite rx_seq_eq in H. destruct s1 as [|c s1]; [discriminate |].
  rewrite rx_chr in H. destruct (PS.one_of ":/" c) eqn:Hc; [| discriminate].
  rewrite rx_seq_eq, rx_group_eq in H.
  apply plus_class_inv in H as (o & s2 & -> & Ho1 & Ho2 & H).
  rewrite rx_seq_eq in H.
  apply rx_lit_inv in H as (x & s3 & -> & Hx%lower_slash & H). subst x.
  rewrite rx_seq_eq, rx_group_eq in H.
  apply plus_class_inv in H as (n & s4 & -> & Hn1 & Hn2 & H).
  rewrite rx_seq_eq in H. unfold PS.rOpt in H.
  rewrite !Nat.add_sub, !substring_prefix in H.
  assert (Ho : owner_text o).
  { split; [exact Ho1 |].
    rewrite (all_chars_ext _ (PS.none_of "/")); [exact Ho2 |].
    intros; now rewrite none_of_slash. }
  assert (Hn : repo_text n).
  { split; [exact Hn1 |].
    rewrite (all_chars_ext _ (PS.none_of "/.")); [exact Hn2 |].
    intros; now rewrite none_of_slash_dot. }
  apply rx_alt_inv in H as [H | H].
  - rewrite rx_group_eq in H.
    apply rx_str_inv in H as (g & s5 & -> & Hg & H).
    apply rx_eol_inv in H as [Hnl H]. injection H as <-.
    exists host, (String c ""), o, n, (g +:+ s5).
    repeat split; try assumption; try (now apply Ho); try (now apply Hn).
    + now apply one_of_sep.
    + exists g, s5. auto.
  - rewrite rx_eps_eq in H.
    apply rx_eol_inv in H as [Hnl H]. injection H as <-.
    exists host, (String c ""), o, n, s4.
    repeat split; try assumption; try (now apply Ho); try (now apply Hn).
    + now apply one_of_sep.
    + exists "", s4. auto.
Qed.

(** X1: whatever [Parse-GitRemote] answers, it answers both owner and
    repository or neither, and an answer is read off the end of the URL:
    the URL ends with the host name (in any case), [:] or [/], the owner
    (not empty, no slash), a slash, the repository name (not empty, no slash
    and no dot), an optional [.git] and an optional final line feed. *)
Theorem Parse_GitRemote_sound url o n :
  Parse_GitRemote url = (o, n) ->
  (o = "" <-> n = "") /\
  (o <> "" -> owner_text o /\ repo_text n /\ remote_shape url o n).
Proof.
  unfold Parse_GitRemote, PS.search. intros H.
  destruct (PS.search_from Patterns.git_remote 0 url) as [cs |] eqn:Hs.
  - apply search_from_inv in Hs as (pre & s' & -> & Hm).
    apply git_remote_inv in Hm
      as (host & sep & o' & n' & tail & -> & Hhost & Hsep & Ho & Hn & Htail & Hgo & Hgn).
    rewrite Hgo, Hgn in H. injection H as <- <-.
    split.
    + destruct Ho as [Ho _], Hn as [Hn _]. split; intros; contradiction.
    + intros _. split; [exact Ho |]. split; [exact Hn |].
      exists pre, host, sep, tail. auto.
  - injection H as <- <-. split; [tauto | congruence].
Qed.

Lemma Parse_GitRemote_sound_witness :
  owner_text "yoona8030" /\ repo_text "sencity_backend" /\
  remote_shape "git@GitHub.com:yoona8030/sencity_backend.git" "yoona8030" "sencity_backend".
Proof.
  apply (Parse_GitRemote_sound
           "git@GitHub.com:yoona8030/sencity_backend.git" "yoona8030" "sencity_backend").
  - vm_compute. reflexivity.
  - discriminate.
Defined.

(** The other way round: the pattern matches where a URL has the shape. *)
Section MatcherForward.
Context {A : Type}.
Implicit Types (k : nat -> string -> PS.captures -> option A).

Lemma ps_eq_cons_inv h c t :
  PS.eq h (String c t) = true ->
  exists x h', h = String x h' /\ Net.ToLowerChar x = Net.ToLowerChar c /\ PS.eq h' t = true.
Proof.
  unfold PS.eq. destruct h as [|x h']; [discriminate |]. simpl.
  destruct (Ascii.eqb_spec (Net.ToLowerChar x) (Net.ToLowerChar c)); [| discriminate].
  eauto.
Qed.

Lemma rx_str_eq t h i s cs k :
  PS.eq h t = true ->
  PS.rx (PS.rStr t) i (h +:+ s) cs k = k (String.length t + i) s cs.
Proof.
  revert h i. induction t as [|c t IH]; intros h i H.
  - destruct h; [reflexivity | discriminate].
  - apply ps_eq_cons_inv in H as (x & h' & -> & Hx & H).
    rewrite append_cons. cbn [PS.rStr]. rewrite rx_seq_eq.
    unfold PS.rLit at 1. rewrite rx_chr, Hx, Ascii.eqb_refl, (IH _ _ H).
    simpl. f_equal. lia.
Qed.

End MatcherForward.

Lemma search_from_later r i pre s cs :
  PS.rx (PS.rGroup "0" r) (String.length pre + i) s [] (fun _ _ cs => Some cs) = Some cs ->
  exists cs', PS.search_from r i (pre +:+ s) = Some cs'.
Proof.
  revert i. induction pre as [|c pre IH]; intros i H.
  - rewrite append_nil_l, search_from_eq.
    change (String.length "" + i) with i in H. rewrite H. eauto.
  - rewrite append_cons, search_from_eq.
    destruct (PS.rx _ i (String c (pre +:+ s)) _ _); [eauto |].
    apply IH.
    change (String.length (String c pre) + i) with (S (String.length pre + i)) in H.
    now replace (String.length pre + S i) with (S (String.length pre + i)) by lia.
Qed.

Lemma git_remote_matches i host sep o n tail :
  PS.eq host "github.com" = true -> In sep [":"; "/"] ->
  owner_text o -> repo_text n -> remote_tail tail ->
  exists cs,
    PS.rx (PS.rGroup "0" Patterns.git_remote) i
      (host +:+ sep +:+ o +:+ "/" +:+ n +:+ tail) [] (fun _ _ cs => Some cs) = Some cs.
Proof.
  intros Hhost Hsep [Ho1 Ho2] [Hn1 Hn2] (git & nl & -> & Hgit & Hnl).
  rewrite (all_chars_ext _ (PS.none_of "/")) in Ho2 by (intros; now rewrite none_of_slash).
  rewrite (all_chars_ext _ (PS.none_of "/.")) in Hn2 by (intros; now rewrite none_of_slash_dot).
  assert (Hs : exists c, sep = String c "" /\ PS.one_of ":/" c = true).
  { destruct Hsep as [<- | [<- | []]]; eexists; split; reflexivity. }
  destruct Hs as (c & -> & Hc). clear Hsep.
  unfold Patterns.git_remote. rewrite rx_group_eq, rx_seq_eq, (rx_str_eq _ _ _ _ _ _ Hhost).
  rewrite rx_seq_eq. change (String c "" +:+ ?x) with (String c x).
  rewrite rx_chr, Hc, rx_seq_eq, rx_group_eq.
  change ("/" +:+ ?x) with (String "/"%char x).
  destruct Hgit as [-> | Hgit].
  - (* no [.git]: a final line feed goes into the repository name *)
    rewrite append_nil_l.
    assert (Hnn : all_chars (PS.none_of "/.") (n +:+ nl) = true).
    { rewrite all_chars_append, Hn2. destruct Hnl as [-> | ->]; reflexivity. }
    assert (Hne : n +:+ nl <> "") by (destruct n; [congruence | discriminate]).
    eexists. apply plus_class; [exact Ho1 | exact Ho2 | reflexivity |].
    rewrite rx_seq_eq, rx_lit, rx_seq_eq, rx_group_eq.
    rewrite <- (append_nil_r (n +:+ nl)).
    apply plus_class; [exact Hne | exact Hnn | exact I |].
    reflexivity.
  - destruct (ps_eq_cons_inv _ _ _ Hgit) as (x & g' & Hg & Hx & _).
    assert (x = "."%char).
    { assert (E : every_char (fun c =>
                implb (Ascii.eqb (Net.ToLowerChar c) (Net.ToLowerChar "."))
                      (Ascii.eqb c ".")) = true) by (vm_compute; reflexivity).
      apply every_char_spec with (c := x) in E. rewrite Hx, Ascii.eqb_refl in E.
      now apply Ascii.eqb_eq in E. }
    subst x.
    eexists. apply plus_class; [exact Ho1 | exact Ho2 | reflexivity |].
    rewrite rx_seq_eq, rx_lit, rx_seq_eq, rx_group_eq.
    apply plus_class; [exact Hn1 | exact Hn2 | rewrite Hg; reflexivity |].
    rewrite rx_seq_eq. unfold PS.rOpt. cbn [PS.rx].
    fold (PS.rStr ".git").
    change (PS.rx (PS.rStr ".git") ?i ?s ?cs ?k) with (PS.rx (PS.rStr ".git") i s cs k).
    rewrite (rx_str_eq _ _ _ _ _ _ Hgit).
    destruct Hnl as [-> | ->]; reflexivity.
Qed.

(** X2: [Parse-GitRemote] finds an owner and a repository exactly in the
    URLs that end with the host name (in any case), [:] or [/], a text
    without slash, a slash, a text without slash and dot, an optional [.git]
    and an optional final line feed; in every other URL it finds neither. *)
Theorem Parse_GitRemote_recognises url :
  Parse_GitRemote url <> ("", "") <->
  exists o n, owner_text o /\ repo_text n /\ remote_shape url o n.
Proof.
  split.
  - unfold Parse_GitRemote, PS.search. intros H.
    destruct (PS.search_from Patterns.git_remote 0 url) as [cs |] eqn:Hs; [| congruence].
    apply search_from_inv in Hs as (pre & s' & -> & Hm).
    apply git_remote_inv in Hm
      as (host & sep & o & n & tail & -> & Hhost & Hsep & Ho & Hn & Htail & _ & _).
    exists o, n. split; [exact Ho |]. split; [exact Hn |].
    exists pre, host, sep, tail. auto.
  - intros (o & n & Ho & Hn & pre & host & sep & tail & -> & Hhost & Hsep & Htail).
    destruct (git_remote_matches (String.length pre + 0) _ _ _ _ _ Hhost Hsep Ho Hn Htail)
      as (cs & Hcs).
    apply search_from_later in Hcs as (cs' & Hcs').
    pose proof Hcs' as Hfound.
    apply search_from_inv in Hcs' as (pre' & s' & _ & Hm).
    apply git_remote_inv in Hm as (_ & _ & o' & _ & _ & _ & _ & _ & [Ho' _] & _ & _ & Hgo & _).
    unfold Parse_GitRemote, PS.search. rewrite Hfound, Hgo. congruence.
Qed.

(** ** Remote Locator *)

Lemma Parse_GitRemote_found url o n :
  Parse_GitRemote url = (o, n) -> o <> "" \/ n <> "" ->
  owner_text o /\ repo_text n /\ remote_shape url o n.
Proof.
  unfold Parse_GitRemote, PS.search. intros H Hne.
  destruct (PS.search_from Patterns.git_remote 0 url) as [cs |] eqn:Hs.
  - apply search_from_inv in Hs as (pre & s' & -> & Hm).
    apply git_remote_inv in Hm
      as (host & sep & o' & n' & tail & -> & Hhost & Hsep & Ho & Hn & Htail & Hgo & Hgn).
    rewrite Hgo, Hgn in H. injection H as <- <-.
    split; [exact Ho |]. split; [exact Hn |]. exists pre, host, sep, tail. auto.
  - injection H as <- <-. destruct Hne; congruence.
Qed.

Lemma Parse_GitRemote_finds url o n :
  owner_text o -> repo_text n -> remote_shape url o n ->
  exists o' n', Parse_GitRemote url = (o', n') /\ o' <> "" /\ n' <> "".
Proof.
  intros Ho Hn (pre & host & sep & tail & -> & Hhost & Hsep & Htail).
  destruct (git_remote_matches (String.length pre + 0) _ _ _ _ _ Hhost Hsep Ho Hn Htail)
    as (cs & Hcs).
  apply search_from_later in Hcs as (cs' & Hcs').
  pose proof Hcs' as Hfound.
  apply search_from_inv in Hcs' as (pre' & s' & _ & Hm).
  apply git_remote_inv in Hm
    as (_ & _ & o' & n' & _ & _ & _ & _ & [Ho' _] & [Hn' _] & _ & Hgo & Hgn).
  exists o', n'. unfold Parse_GitRemote, PS.search. rewrite Hfound, Hgo, Hgn. auto.
Qed.

(** C7, as amended: in a run that has found its root.  Given both owner
    and repository, the run goes on with them and does not ask git for the
    remote.  Otherwise git is asked once, and owner and repository are what
    the pattern finds at the end of the remote URL: whenever the URL ends
    with the host name github.com (in any case, after any prefix), [:] or
    [/], an owner, a slash, a repository name and an optional [.git], the
    run goes on with an owner and a repository that the URL ends with in
    this way, and for the usual forms of a remote they are the owner and
    the repository written in it.  When the URL does not end in this way, or
    there is none, the run ends with a ConfigurationError, having asked git
    and sent no request to the release store. *)
Theorem remote_locator SHA256 w v P root st :
  repo_root w v = Some root ->
  let url := default "" (git_remote_origin_url w) in
  let asked := mkState (fs st) (log st ++ [GitRemoteQuery]) in
  (Owner P <> "" -> Repo P <> "" ->
     locate w P st = (Ok (Owner P, Repo P), st) /\
     sync_db SHA256 w v P st = continue_with SHA256 w v P root (Owner P, Repo P) st) /\
  (Owner P = "" \/ Repo P = "" ->
     (forall o n, owner_text o -> repo_text n -> remote_shape url o n ->
        exists o' n',
          Parse_GitRemote url = (o', n') /\
          owner_text o' /\ repo_text n' /\ remote_shape url o' n' /\
          sync_db SHA256 w v P st = continue_with SHA256 w v P root (o', n') asked) /\
     (forall o n, owner_text o -> repo_text n -> host_path url o n ->
        Parse_GitRemote url = (o, n) /\
        sync_db SHA256 w v P st = continue_with SHA256 w v P root (o, n) asked) /\
     ((forall o n, owner_text o -> repo_text n -> ~ remote_shape url o n) ->
        sync_db SHA256 w v P st = (Throw ConfigurationError, asked))).
Proof.
  intros Hroot url asked.
  rewrite sync_db_staged, (staged_from_root _ _ _ _ _ _ Hroot).
  split.
  { intros Ho Hr. now rewrite (locate_explicit _ _ _ Ho Hr). }
  intros Hex. rewrite (locate_remote _ _ _ Hex). fold url. fold asked.
  assert (Hgo : forall o n, Parse_GitRemote url = (o, n) -> o <> "" -> n <> "" ->
            match (if negb (PS.truthy (Parse_GitRemote url).1) ||
                      negb (PS.truthy (Parse_GitRemote url).2)
                   then Throw ConfigurationError else Ok (Parse_GitRemote url), asked) with
            | (Ok owner_repo, st') => continue_with SHA256 w v P root owner_repo st'
            | (Exit c, st') => (Exit c, st')
            | (Throw e, st') => (Throw e, st')
            end = continue_with SHA256 w v P root (o, n) asked).
  { intros o n Hp Ho%truthy_true Hn%truthy_true. rewrite Hp. simpl. now rewrite Ho, Hn. }
  split; [| split].
  - intros o n Ho Hn Hshape.
    destruct (Parse_GitRemote_finds _ _ _ Ho Hn Hshape) as (o' & n' & Hp & Ho' & Hn').
    destruct (Parse_GitRemote_found _ _ _ Hp (or_introl Ho')) as (H1 & H2 & H3).
    exists o', n'. repeat split; try assumption; try apply H1; try apply H2.
    now apply Hgo.
  - intros o n Ho Hn Hpath.
    pose proof (Parse_GitRemote_host_path _ _ _ Ho Hn Hpath) as Hp.
    split; [exact Hp |]. apply Hgo; [exact Hp | apply Ho | apply Hn].
  - intros Hnone.
    destruct (Parse_GitRemote url) as [o n] eqn:Hp. simpl.
    destruct (PS.truthy o) eqn:Ho; [| reflexivity].
    destruct (PS.truthy n) eqn:Hn; [| reflexivity].
    apply truthy_true in Ho.
    destruct (Parse_GitRemote_found _ _ _ Hp (or_introl Ho)) as (H1 & H2 & H3).
    now destruct (Hnone o n H1 H2).
Qed.

Lemma remote_locator_witness :
  let w := Example.world "v3" "sencity v3" None Example.no_fault in
  let w' := Example.with_remote "ssh://git@GitHub.com/yoona8030/sencity_backend.git" w in
  let asked := mkState ∅ [GitRemoteQuery] in
  sync_db Example.sha256 w V1 default_params Example.fresh =
    continue_with Example.sha256 w V1 default_params Example.root
      ("yoona8030", "sencity_backend") asked /\
  sync_db Example.sha256 w V2 default_params Example.fresh =
    continue_with Example.sha256 w V2 default_params Example.root
      ("yoona8030", "sencity_backend") asked /\
  (exists o n,
     Parse_GitRemote "ssh://git@GitHub.com/yoona8030/sencity_backend.git" = (o, n) /\
     sync_db Example.sha256 w' V2 default_params Example.fresh =
       continue_with Example.sha256 w' V2 default_params Example.root (o, n) asked) /\
  sync_db Example.sha256 (Example.with_remote "https://example.org/" w) V2 default_params
      Example.fresh = (Throw ConfigurationError, asked).
Proof.
  intros w w' asked.
  assert (Ho : owner_text "yoona8030") by (split; [discriminate | reflexivity]).
  assert (Hn : repo_text "sencity_backend") by (split; [discriminate | reflexivity]).
  assert (Hpath : host_path "https://github.com/yoona8030/sencity_backend.git"
                    "yoona8030" "sencity_backend").
  { exists "https://", "/", ".git". simpl. repeat split; auto. }
  split; [| split; [| split]].
  - destruct (remote_locator Example.sha256 w V1 default_params Example.root Example.fresh
                eq_refl) as (_ & H).
    destruct (H (or_introl eq_refl)) as (_ & H2 & _).
    exact (proj2 (H2 _ _ Ho Hn Hpath)).
  - destruct (remote_locator Example.sha256 w V2 default_params Example.root Example.fresh
                eq_refl) as (_ & H).
    destruct (H (or_introl eq_refl)) as (_ & H2 & _).
    exact (proj2 (H2 _ _ Ho Hn Hpath)).
  - destruct (remote_locator Example.sha256 w' V2 default_params Example.root Example.fresh
                eq_refl) as (_ & H).
    destruct (H (or_introl eq_refl)) as (H1 & _).
    destruct (H1 "yoona8030" "sencity_backend" Ho Hn) as (o & n & Hp & _ & _ & _ & Hrun).
    + exists "ssh://git@", "GitHub.com", "/", ".git". repeat split; simpl; auto.
      exists ".git", "". repeat split; auto.
    + exists o, n. split; [exact Hp | exact Hrun].
  - destruct (remote_locator Example.sha256 (Example.with_remote "https://example.org/" w) V2
                default_params Example.root Example.fresh eq_refl) as (_ & H).
    destruct (H (or_introl eq_refl)) as (_ & _ & H3).
    apply H3. intros o n Ho' Hn' Hshape.
    assert (Hfound : Parse_GitRemote "https://example.org/" <> ("", "")).
    { destruct (Parse_GitRemote_finds _ _ _ Ho' Hn' Hshape) as (o' & n' & Hp & Hne & _).
      simpl in Hp. rewrite Hp. congruence. }
    apply Hfound. vm_compute. reflexivity.
Defined.

(** C7 as stated fails.  A remote on another host has the form
    host/owner/repo with a suffix, and nothing is extracted from it: the
    run ends with a ConfigurationError.  And variant 1 started outside a
    work tree, where [git rev-parse --show-toplevel] prints nothing, ends at
    [Set-Location] before the locator runs, with or without [-Owner] and
    [-Repo]: the error is not a ConfigurationError, and explicit values are
    not used; variant 2 in the same surroundings ends with a
    ConfigurationError, and installs when the values are given. *)
Lemma remote_locator_fails :
  let w := Example.world "v3" "sencity v3" None Example.no_fault in
  let elsewhere := Example.with_remote "https://gitlab.com/yoona8030/sencity_backend.git" w in
  let outside := Example.outside w in
  Parse_GitRemote "https://gitlab.com/yoona8030/sencity_backend.git" = ("", "") /\
  sync_db Example.sha256 elsewhere V2 default_params Example.fresh =
    (Throw ConfigurationError, mkState ∅ [GitRemoteQuery]) /\
  sync_db Example.sha256 elsewhere V1 default_params Example.fresh =
    (Throw ConfigurationError, mkState ∅ [GitRemoteQuery]) /\
  sync_db Example.sha256 outside V1 default_params Example.fresh =
    (Throw (RuntimeError "Set-Location"), Example.fresh) /\
  sync_db Example.sha256 outside V1 Example.explicit Example.fresh =
    (Throw (RuntimeError "Set-Location"), Example.fresh) /\
  sync_db Example.sha256 outside V2 default_params Example.fresh =
    (Throw ConfigurationError, mkState ∅ [GitRemoteQuery]) /\
  fst (sync_db Example.sha256 outside V2 Example.explicit Example.fresh) = Ok tt.
Proof. vm_compute. repeat split. Qed.

(** ** URLs [Parse-GitRemote] does not recognise *)

(** What follows the last slash of a text. *)
Lemma after_last_slash x1 s1 x2 s2 :
  all_chars (fun c => negb (Ascii.eqb c "/")) s1 = true ->
  all_chars (fun c => negb (Ascii.eqb c "/")) s2 = true ->
  x1 +:+ "/" +:+ s1 = x2 +:+ "/" +:+ s2 -> s1 = s2.
Proof.
  intros H1 H2.
  assert (Hno : forall x s, all_chars (fun c => negb (Ascii.eqb c "/")) (x +:+ "/" +:+ s) = false).
  { intros x s. rewrite all_chars_append.
    change ("/" +:+ s) with (String "/"%char s). simpl. apply andb_false_r. }
  revert x2. induction x1 as [|c x1 IH]; intros [|d x2] H.
  - injection H as H. now rewrite !append_nil_l in H.
  - injection H as _ H. rewrite append_nil_l in H. rewrite H, Hno in H1. discriminate.
  - injection H as _ H. rewrite append_nil_l in H. rewrite <- H, Hno in H2. discriminate.
  - injection H as _ H. now apply IH in H.
Qed.

Lemma no_slash_part (q : ascii -> bool) s :
  all_chars (fun c => negb (Ascii.eqb c "/") && q c) s = true ->
  all_chars (fun c => negb (Ascii.eqb c "/")) s = true.
Proof.
  apply all_chars_impl. intros c Hc. now apply andb_true_iff in Hc as [-> _].
Qed.

(** Where a text without dot ends in a text that has one. *)
Lemma split_at_dot (p : ascii -> bool) a b n t :
  p "."%char = false ->
  all_chars p a = true -> all_chars p n = true ->
  a +:+ "." +:+ b = n +:+ t ->
  (n = a /\ t = "." +:+ b) \/
  (exists c a2, a = n +:+ String c a2 /\ t = String c a2 +:+ "." +:+ b).
Proof.
  intros Hdot Ha. revert n. induction a as [|x a IH]; intros [|c n] Hn H.
  - left. now rewrite append_nil_l in H.
  - injection H as <- _. simpl in Hn. now rewrite Hdot in Hn.
  - right. exists x, a. rewrite !append_nil_l in *. now split.
  - injection H as <- H. simpl in Ha, Hn.
    apply andb_true_iff in Ha as [_ Ha]. apply andb_true_iff in Hn as [_ Hn].
    destruct (IH Ha n Hn H) as [[-> ->] | (c & a2 & -> & ->)].
    + now left.
    + right. exists c, a2. now split.
Qed.

Lemma letter_of_git c d :
  In d ["g"; "i"; "t"]%char ->
  Net.ToLowerChar c = Net.ToLowerChar d ->
  negb (Ascii.eqb c "/") && negb (Ascii.eqb c Net.LF) = true.
Proof.
  intros Hd Hc.
  assert (E : forall d, In d ["g"; "i"; "t"]%char ->
            every_char (fun c =>
              implb (Ascii.eqb (Net.ToLowerChar c) (Net.ToLowerChar d))
                    (negb (Ascii.eqb c "/") && negb (Ascii.eqb c Net.LF))) = true).
  { intros d' [<- | [<- | [<- | []]]]; vm_compute; reflexivity. }
  pose proof (every_char_spec _ (E d Hd) c) as H. cbv beta in H.
  now rewrite Hc, Ascii.eqb_refl in H.
Qed.

(** The suffix [.git] in any case. *)
Lemma git_suffix git :
  PS.eq git ".git" = true ->
  exists g, git = String "." g /\ PS.eq g "git" = true /\
    all_chars (fun c => negb (Ascii.eqb c "/") && negb (Ascii.eqb c Net.LF)) g = true.
Proof.
  intros H.
  destruct (ps_eq_cons_inv _ _ _ H) as (c1 & g1 & -> & H1 & Hg1).
  exists g1. split; [| split; [exact Hg1 |]].
  - f_equal.
    assert (E : every_char (fun c =>
                implb (Ascii.eqb (Net.ToLowerChar c) (Net.ToLowerChar "."))
                      (Ascii.eqb c ".")) = true) by (vm_compute; reflexivity).
    apply every_char_spec with (c := c1) in E. rewrite H1, Ascii.eqb_refl in E.
    now apply Ascii.eqb_eq in E.
  - destruct (ps_eq_cons_inv _ _ _ Hg1) as (c2 & g2 & -> & H2 & Hg2).
    destruct (ps_eq_cons_inv _ _ _ Hg2) as (c3 & g3 & -> & H3 & Hg3).
    destruct (ps_eq_cons_inv _ _ _ Hg3) as (c4 & g4 & -> & H4 & Hg4).
    destruct g4; [| discriminate]. simpl.
    rewrite (letter_of_git c2 "g"), (letter_of_git c3 "i"), (letter_of_git c4 "t");
      simpl; auto.
Qed.

(** X3: two kinds of URL in which [Parse-GitRemote] finds neither owner
    nor repository, whatever stands before: a URL that ends with a slash,
    and a URL whose last component is a name, a dot and anything but [git],
    such as a repository called [socket.io]. *)
Theorem Parse_GitRemote_rejects :
  (forall url, Parse_GitRemote (url +:+ "/") = ("", "")) /\
  (forall pre a b,
     all_chars (fun c => negb (Ascii.eqb c "/") && negb (Ascii.eqb c ".")) a = true ->
     all_chars (fun c => negb (Ascii.eqb c "/") && negb (Ascii.eqb c Net.LF)) b = true ->
     PS.eq b "git" = false ->
     Parse_GitRemote (pre +:+ "/" +:+ a +:+ "." +:+ b) = ("", "")).
Proof.
  (* what follows the last slash of a recognised URL *)
  assert (Hlast : forall url cs,
            PS.search_from Patterns.git_remote 0 url = Some cs ->
            exists x n tail,
              url = x +:+ "/" +:+ n +:+ tail /\ repo_text n /\ remote_tail tail /\
              all_chars (fun c => negb (Ascii.eqb c "/")) (n +:+ tail) = true).
  { intros url cs Hs.
    apply search_from_inv in Hs as (pre' & s' & -> & Hm).
    apply git_remote_inv in Hm
      as (host & sep & o & n & tail & -> & _ & _ & _ & Hn & Htail & _ & _).
    exists (pre' +:+ host +:+ sep +:+ o), n, tail.
    split; [now rewrite !append_assoc |]. split; [exact Hn |]. split; [exact Htail |].
    destruct Hn as [_ Hn]. destruct Htail as (git & nl & -> & Hgit & Hnl).
    rewrite !all_chars_append.
    rewrite (no_slash_part _ _ Hn).
    assert (Hnl' : all_chars (fun c => negb (Ascii.eqb c "/")) nl = true)
      by (destruct Hnl as [-> | ->]; reflexivity).
    rewrite Hnl'. destruct Hgit as [-> | Hgit]; [reflexivity |].
    destruct (git_suffix _ Hgit) as (g & -> & _ & Hg). simpl.
    now rewrite (no_slash_part _ _ Hg). }
  split.
  - intros url. unfold Parse_GitRemote, PS.search.
    destruct (PS.search_from Patterns.git_remote 0 (url +:+ "/")) as [cs |] eqn:Hs;
      [exfalso | reflexivity].
    destruct (Hlast _ _ Hs) as (x & n & tail & Heq & [Hne _] & _ & Hfree).
    rewrite <- (append_nil_r (url +:+ "/")), append_assoc in Heq.
    apply after_last_slash in Heq; [| reflexivity | exact Hfree].
    destruct n; [congruence | discriminate].
  - intros pre a b Ha Hb Hgit. unfold Parse_GitRemote, PS.search.
    destruct (PS.search_from Patterns.git_remote 0 _) as [cs |] eqn:Hs;
      [exfalso | reflexivity].
    destruct (Hlast _ _ Hs) as (x & n & tail & Heq & [_ Hn] & Htail & Hfree).
    apply after_last_slash in Heq; [| | exact Hfree].
    2: { rewrite !all_chars_append.
         now rewrite (no_slash_part _ _ Ha), (no_slash_part _ _ Hb). }
    destruct Htail as (git & nl & -> & Hg & Hnl).
    apply (split_at_dot _ _ _ _ _ eq_refl Ha Hn) in Heq
      as [[_ Ht] | (c & a2 & Hsplit & Ht)].
    + destruct Hg as [-> | Hg].
      * rewrite append_nil_l in Ht. destruct Hnl as [-> | ->]; discriminate.
      * destruct (git_suffix _ Hg) as (g & -> & Hgg & _).
        change ("." +:+ b) with (String "."%char b) in Ht.
        rewrite append_cons in Ht. injection Ht as Ht. subst b.
        destruct Hnl as [-> | ->].
        -- rewrite append_nil_r in Hgit. congruence.
        -- rewrite all_chars_append in Hb. simpl in Hb.
           rewrite andb_false_r in Hb. discriminate.
    + destruct Hg as [-> | Hg].
      * rewrite append_nil_l, append_cons in Ht.
        destruct Hnl as [-> | ->]; [discriminate |].
        injection Ht as _ Ht. destruct a2; discriminate.
      * destruct (git_suffix _ Hg) as (g & -> & _ & _).
        rewrite !append_cons in Ht. injection Ht as <- _. subst a.
        rewrite all_chars_append in Ha. simpl in Ha.
        rewrite andb_false_r in Ha. discriminate.
Qed.

(** ** The requests of a run *)

Lemma sync_db_no_root SHA256 w v P st :
  repo_root w v = None ->
  sync_db SHA256 w v P st = (Throw (RuntimeError "Set-Location"), st).
Proof.
  intros H. rewrite sync_db_staged. unfold staged, find_root. now rewrite H.
Qed.

(** Fetching and verifying sends one or two downloads, of assets the
    release lists under the two names, or none when the data asset is not
    listed. *)
Lemma stage_requests SHA256 w v P rel st r st' :
  stage SHA256 w v P rel st = (r, st') ->
  exists d,
    log st' = log st ++ d /\
    forallb is_download d = true /\ (length d <= 2)%nat /\
    (forall u, In (AssetDownload u) d ->
       exists a, wanted_asset P rel a /\ browser_download_url a = u) /\
    (d = [] -> r = Throw AssetNotFoundError /\ fs st' = fs st) /\
    (d <> [] -> r <> Throw AssetNotFoundError).
Proof.
  intros Hrun. unfold stage, verify, expected_v1, expected_v2 in Hrun.
  unfold_cmdlets. simpl in Hrun. unfold wanted_asset.
  destruct v;
    repeat (case_hyp Hrun; simpl in Hrun; try discriminate);
    injection Hrun as <- <-; simpl;
    first [ exists []; split; [now rewrite app_nil_r |]
          | eexists [_]; split; [reflexivity |]
          | eexists [_; _]; split; [now rewrite <- app_assoc |] ].
  all: repeat split; simpl; try lia; try congruence.
  all: try (intros u [Hu | [Hu | []]]); try (intros u [Hu | []]); try (intros u []).
  all: try (injection Hu as <-; eauto).
Qed.

Lemma replace_log w P root rel st r st' :
  replace w P root rel st = (r, st') -> log st' = log st.
Proof.
  unfold replace, backup_then_replace. unfold_cmdlets. simpl. intros Hrun.
  repeat (case_hyp Hrun; simpl in Hrun; try discriminate);
    injection Hrun as <- <-; reflexivity.
Qed.

Lemma replace_not_exit w P root rel st c st' :
  replace w P root rel st <> (Exit c, st').
Proof.
  unfold replace, backup_then_replace. unfold_cmdlets. simpl. intros Hrun.
  repeat (case_hyp Hrun; simpl in Hrun; try discriminate).
Qed.

(** From the answer of the locator on: nothing when [Join-Path] refuses a
    path; else one query of the store, then the downloads. *)
Lemma continue_with_requests SHA256 w v P root o n st r st' :
  continue_with SHA256 w v P root (o, n) st = (r, st') ->
  (r = Throw (RuntimeError "Join-Path") /\ st' = st) \/
  exists d,
    log st' = log st ++ ReleaseQuery (release_uri o n) :: d /\
    forallb is_download d = true /\ (length d <= 2)%nat /\
    (forall u, In (AssetDownload u) d ->
       exists rel a,
         Invoke_RestMethod w (release_headers w) (release_uri o n) = Some rel /\
         wanted_asset P rel a /\ browser_download_url a = u) /\
    (d = [] -> fs st' = fs st /\ r <> Ok tt /\
               r <> Throw ConfigurationError /\ r <> Throw DownloadError /\
               r <> Throw IntegrityError) /\
    (d <> [] -> forall e, r = Throw e -> before_download e = false) /\
    (forall c, r = Exit c -> c = 0 /\ d = []).
Proof.
  rewrite continue_with_run. cbv zeta. intros Hrun.
  destruct (paths_bound w root).
  2: { injection Hrun as <- <-. now left. }
  right.
  assert (Hnone : forall (x : Result unit),
            x <> Ok tt -> x <> Throw ConfigurationError -> x <> Throw DownloadError ->
            x <> Throw IntegrityError ->
            (forall c, x = Exit c -> c = 0) ->
            (x, mkState (fs st) (log st ++ [ReleaseQuery (release_uri o n)])) = (r, st') ->
            exists d,
              log st' = log st ++ ReleaseQuery (release_uri o n) :: d /\
              forallb is_download d = true /\ (length d <= 2)%nat /\
              (forall u, In (AssetDownload u) d ->
                 exists rel a,
                   Invoke_RestMethod w (release_headers w) (release_uri o n) = Some rel /\
                   wanted_asset P rel a /\ browser_download_url a = u) /\
              (d = [] -> fs st' = fs st /\ r <> Ok tt /\
                         r <> Throw ConfigurationError /\ r <> Throw DownloadError /\
                         r <> Throw IntegrityError) /\
              (d <> [] -> forall e, r = Throw e -> before_download e = false) /\
              (forall c, r = Exit c -> c = 0 /\ d = [])).
  { intros x H1 H2 H3 H4 H5 [= <- <-]. exists []. simpl.
    repeat split; auto; try lia; try tauto; congruence. }
  destruct (Invoke_RestMethod w _ _) as [rel |] eqn:Hrel.
  2: { apply Hnone in Hrun; try discriminate; exact Hrun. }
  destruct (local_tag v (fs st) root) as [lt |].
  2: { destruct (marker_error_runtime (fs st) root) as [what Hw]. rewrite Hw in Hrun.
       apply Hnone in Hrun; try discriminate; exact Hrun. }
  destruct (shouldSkip v (fs st) root (tag_name rel)).
  { apply Hnone in Hrun; try discriminate; [exact Hrun | now intros c [= <-]]. }
  clear Hnone.
  set (st1 := mkState _ _) in Hrun.
  unfold mbind, Script_bind, bind in Hrun.
  destruct (stage SHA256 w v P rel st1) as [res st2] eqn:Hstage.
  destruct (stage_requests _ _ _ _ _ _ _ _ Hstage) as (d & Hlog & Hd & Hlen & Hurl & Hnil & Hcons).
  pose proof (stage_result _ _ _ _ _ _ _ _ Hstage) as Hres.
  assert (Hlog' : log st' = log st ++ ReleaseQuery (release_uri o n) :: d).
  { destruct res as [[] | c | e].
    - apply replace_log in Hrun. rewrite Hrun, Hlog. subst st1. simpl.
      now rewrite <- app_assoc.
    - destruct Hres.
    - injection Hrun as <- <-. rewrite Hlog. subst st1. simpl. now rewrite <- app_assoc. }
  exists d. split; [exact Hlog' |]. split; [exact Hd |]. split; [exact Hlen |].
  split; [| split; [| split]].
  - intros u Hu. destruct (Hurl u Hu) as (a & Ha & Hau). eauto.
  - intros Hd0. destruct (Hnil Hd0) as [-> Hfs]. injection Hrun as <- <-.
    subst st1. simpl in Hfs. repeat split; try discriminate. exact Hfs.
  - intros Hd0 e ->. specialize (Hcons Hd0). destruct res as [[] | c | e'].
    + unfold replace, backup_then_replace in Hrun. unfold_cmdlets. simpl in Hrun.
      repeat (case_hyp Hrun; simpl in Hrun; try discriminate);
        injection Hrun as <- <-; reflexivity.
    + destruct Hres.
    + injection Hrun as <- <-.
      unfold stage, verify, expected_v1, expected_v2 in Hstage.
      unfold_cmdlets. simpl in Hstage.
      destruct v;
        repeat (case_hyp Hstage; simpl in Hstage; try discriminate);
        injection Hstage as <- <-; try reflexivity; congruence.
  - intros c ->. destruct res as [[] | c' | e].
    + now apply replace_not_exit in Hrun.
    + destruct Hres.
    + discriminate.
Qed.

Lemma locate_requests w P st :
  exists g,
    snd (locate w P st) = mkState (fs st) (log st ++ g) /\
    ((g = [] /\ Owner P <> "" /\ Repo P <> "") \/
     (g = [GitRemoteQuery] /\ (Owner P = "" \/ Repo P = ""))) /\
    match fst (locate w P st) with
    | Ok _ => True
    | Throw e => e = ConfigurationError /\ g = [GitRemoteQuery]
    | Exit _ => False
    end.
Proof.
  destruct (String.eqb_spec (Owner P) ""), (String.eqb_spec (Repo P) "").
  1-3: rewrite !locate_remote by auto; exists [GitRemoteQuery];
       (split; [reflexivity |]); (split; [right; auto |]);
       simpl; now destruct (negb _ || negb _).
  rewrite !locate_explicit by auto. exists []. simpl. rewrite app_nil_r.
  split; [now destruct st |]. split; [left |]; auto.
Qed.

(** X4: the requests a run sends, whatever its outcome: the remote is asked
    of git at most once, first, and only when owner or repository is not
    given; the release store is queried at most once, at the [releases/latest]
    address of the located owner and repository; at most two downloads
    follow, each of an asset that the answered release lists under the data
    or the checksum name; and a run that installs has downloaded. *)
Theorem requests_of_a_run SHA256 w v P st r st' :
  sync_db SHA256 w v P st = (r, st') ->
  exists l,
    log st' = log st ++ l /\
    trace_shape l = true /\
    (In GitRemoteQuery l -> Owner P = "" \/ Repo P = "") /\
    (forall q, In (ReleaseQuery q) l ->
       exists o n, fst (locate w P st) = Ok (o, n) /\ q = release_uri o n) /\
    (forall u, In (AssetDownload u) l ->
       exists q rel a,
         In (ReleaseQuery q) l /\
         Invoke_RestMethod w (release_headers w) q = Some rel /\
         wanted_asset P rel a /\ browser_download_url a = u) /\
    (r = Ok tt -> existsb is_download l = true).
Proof.
  intros Hrun. destruct (repo_root w v) as [root |] eqn:Hroot.
  2: { rewrite (sync_db_no_root _ _ _ _ _ Hroot) in Hrun. injection Hrun as <- <-.
       exists []. rewrite app_nil_r. repeat split; try discriminate; intros; contradiction. }
  rewrite sync_db_staged, (staged_from_root _ _ _ _ _ _ Hroot) in Hrun.
  destruct (locate_requests w P st) as (g & Hsnd & Hg & Hfst).
  destruct (locate w P st) as [[[o n] | c | e] st0]; simpl in Hsnd, Hfst; subst st0.
  - destruct (continue_with_requests _ _ _ _ _ _ _ _ _ _ Hrun)
      as [[-> ->] | (d & Hlog & Hd & Hlen & Hurl & Hnil & _ & _)].
    { exists g. split; [reflexivity |].
      destruct Hg as [(-> & _) | (-> & Hg)].
      - repeat split; try discriminate; intros; contradiction.
      - split; [reflexivity |]. split; [now intros _ |].
        repeat split; try discriminate.
        all: intros x [H | []]; discriminate. }
    simpl in Hlog.
    exists (g ++ ReleaseQuery (release_uri o n) :: d).
    split; [now rewrite Hlog, <- app_assoc |].
    assert (Hdl : forall x, In x d -> is_download x = true)
      by (now apply forallb_forall).
    split; [| split; [| split; [| split]]].
    + apply Nat.leb_le in Hlen.
      destruct Hg as [(-> & _) | (-> & _)]; simpl; now rewrite Hd, Hlen.
    + destruct Hg as [(-> & _) | (-> & Hg)]; [| now intros _].
      simpl. intros [H | H]; [discriminate |]. now apply Hdl in H.
    + intros q Hq. exists o, n. split; [reflexivity |].
      apply in_app_iff in Hq as [Hq | [Hq | Hq]].
      * destruct Hg as [(-> & _) | (-> & _)]; [destruct Hq |].
        destruct Hq as [Hq | []]; discriminate.
      * now injection Hq.
      * now apply Hdl in Hq.
    + intros u Hu. apply in_app_iff in Hu as [Hu | [Hu | Hu]].
      * destruct Hg as [(-> & _) | (-> & _)]; [destruct Hu |].
        destruct Hu as [Hu | []]; discriminate.
      * discriminate.
      * destruct (Hurl u Hu) as (rel & a & Hrel & Ha & Hau).
        exists (release_uri o n), rel, a. repeat split; try assumption.
        apply in_app_iff. right. now left.
    + intros ->. rewrite existsb_app.
      destruct d as [|x d]; [now destruct Hnil as (_ & ? & _) |].
      simpl in Hd. apply andb_true_iff in Hd as [Hx _].
      simpl. rewrite Hx. simpl. apply orb_true_r.
  - destruct Hfst.
  - injection Hrun as <- <-. destruct Hfst as [-> ->].
    exists [GitRemoteQuery]. split; [reflexivity |].
    split; [reflexivity |].
    split; [destruct Hg as [(? & _) | (_ & ?)]; [discriminate | now intros _] |].
    repeat split; try discriminate.
    all: intros x [H | []]; discriminate.
Qed.

Lemma requests_of_a_run_witness :
  let w := Example.world "v4" "sencity v4" None Example.no_fault in
  let run := sync_db Example.sha256 w V2 default_params Example.at_v3 in
  exists l, log (snd run) = [] ++ l /\ trace_shape l = true /\ existsb is_download l = true.
Proof.
  intros w run.
  destruct (requests_of_a_run Example.sha256 w V2 default_params Example.at_v3
              (fst run) (snd run) (surjective_pairing run))
    as (l & H1 & H2 & _ & _ & _ & H3).
  exists l. split; [exact H1 |]. split; [exact H2 |]. apply H3. reflexivity.
Defined.

(** X5: a run that downloads nothing changes no file and installs
    nothing; a run that ends with a ConfigurationError, a
    RemoteUnavailableError or an AssetNotFoundError, and a run that exits,
    has downloaded nothing; and the only exit code is 0. *)
Theorem no_download_no_change SHA256 w v P st r st' :
  sync_db SHA256 w v P st = (r, st') ->
  (existsb is_download (requests st st') = false -> fs st' = fs st /\ r <> Ok tt) /\
  (forall e, r = Throw e -> before_download e = true ->
     existsb is_download (requests st st') = false) /\
  (forall c, r = Exit c -> c = 0 /\ existsb is_download (requests st st') = false).
Proof.
  intros Hrun. destruct (repo_root w v) as [root |] eqn:Hroot.
  2: { rewrite (sync_db_no_root _ _ _ _ _ Hroot) in Hrun. injection Hrun as <- <-.
       rewrite (requests_app st st []) by now rewrite app_nil_r.
       repeat split; discriminate. }
  rewrite sync_db_staged, (staged_from_root _ _ _ _ _ _ Hroot) in Hrun.
  destruct (locate_requests w P st) as (g & Hsnd & Hg & Hfst).
  assert (Hgd : existsb is_download g = false)
    by (destruct Hg as [(-> & _) | (-> & _)]; reflexivity).
  destruct (locate w P st) as [[[o n] | c | e] st0]; simpl in Hsnd, Hfst; subst st0.
  - destruct (continue_with_requests _ _ _ _ _ _ _ _ _ _ Hrun)
      as [[-> ->] | (d & Hlog & Hd & _ & _ & Hnil & Hcons & Hexit)].
    { rewrite (requests_app st _ g) by reflexivity.
      split; [intros _; split; [reflexivity | discriminate] |].
      split; [intros e _ _; exact Hgd | discriminate]. }
    simpl in Hlog, Hnil.
    rewrite (requests_app st st' (g ++ ReleaseQuery (release_uri o n) :: d))
      by now rewrite Hlog, <- app_assoc.
    rewrite existsb_app, Hgd. simpl.
    assert (Hdd : existsb is_download d = false <-> d = []).
    { destruct d as [|x d]; [tauto |]. simpl in *.
      apply andb_true_iff in Hd as [-> _]. split; discriminate. }
    split; [| split].
    + intros H%Hdd. destruct (Hnil H) as (Hfs & Hr & _). auto.
    + intros e -> He. apply Hdd. destruct d as [|x d]; [reflexivity |].
      assert (Hne : x :: d <> []) by discriminate.
      rewrite (Hcons Hne e eq_refl) in He. discriminate.
    + intros c Hc. destruct (Hexit c Hc) as [-> ->]. auto.
  - destruct Hfst.
  - injection Hrun as <- <-. destruct Hfst as [-> ->].
    rewrite (requests_app st _ [GitRemoteQuery]) by reflexivity.
    repeat split; discriminate.
Qed.

Lemma no_download_no_change_witness :
  let w := Example.world "v3" "sencity v3" None Example.no_fault in
  let run := sync_db Example.sha256 w V2 default_params Example.at_v3 in
  fst run = Exit 0 /\ fs (snd run) = fs Example.at_v3.
Proof.
  intros w run.
  destruct (no_download_no_change Example.sha256 w V2 default_params Example.at_v3
              (fst run) (snd run) (surjective_pairing run)) as (H1 & _ & H3).
  split; [reflexivity |]. apply H1. apply (H3 0). reflexivity.
Defined.

(** ** The short-circuit, both ways *)

Lemma ps_eq_length a b : PS.eq a b = true -> String.length a = String.length b.
Proof.
  unfold PS.eq. intros H%String.eqb_eq.
  now rewrite <- (ToLower_length a), H, ToLower_length.
Qed.


(** Without the short-circuit a run does not exit. *)
Lemma no_skip_no_exit SHA256 w v P root st o n st0 rel c :
  repo_root w v = Some root ->
  locate w P st = (Ok (o, n), st0) ->
  Invoke_RestMethod w (release_headers w) (release_uri o n) = Some rel ->
  shouldSkip v (fs st) root (tag_name rel) = false ->
  fst (sync_db SHA256 w v P st) <> Exit c.
Proof.
  intros Hroot H0 Hrel Hs.
  rewrite sync_db_staged, (staged_from_root _ _ _ _ _ _ Hroot), H0, continue_with_run.
  cbv zeta. rewrite (locate_fs _ _ _ _ _ H0), Hrel, Hs.
  destruct (paths_bound w root); [| discriminate].
  destruct (local_tag v (fs st) root); [| discriminate].
  unfold mbind, Script_bind, bind.
  destruct (stage SHA256 w v P rel _) as [[[] | c' | e] st2] eqn:Hstage.
  - destruct (replace w P root rel st2) as [r' st3] eqn:Hrep. simpl. intros ->.
    now apply replace_not_exit in Hrep.
  - now apply stage_result in Hstage.
  - discriminate.
Qed.

(** Without the paths of the run there is no run. *)
Lemma paths_unbound_run SHA256 w v P root st :
  repo_root w v = Some root ->
  paths_bound w root = false ->
  sync_db SHA256 w v P st =
    match locate w P st with
    | (Ok _, st0) => (Throw (RuntimeError "Join-Path"), st0)
    | other => (match fst other with
                | Throw e => Throw e
                | Exit c => Exit c
                | Ok _ => Throw (RuntimeError "Join-Path")
                end, snd other)
    end.
Proof.
  intros Hroot Hp. rewrite sync_db_staged, (staged_from_root _ _ _ _ _ _ Hroot).
  destruct (locate w P st) as [[[o n] | c | e] st0]; try reflexivity.
  now rewrite continue_with_run, Hp.
Qed.

(** X6: once owner and repository are located and the store has answered,
    a run exits with code 0 exactly when [Join-Path] accepts the root and
    [$env:TEMP], the tag the variant reads from the marker is [-eq] to the
    remote tag and the replica exists; it has then sent the query of the
    store and nothing else, and has left the file system as it was.  With
    [$env:TEMP] unset the run ends with the error of [Join-Path] before it
    queries the store. *)
Theorem short_circuit_exactly SHA256 w v P root st o n rel :
  repo_root w v = Some root ->
  fst (locate w P st) = Ok (o, n) ->
  Invoke_RestMethod w (release_headers w) (release_uri o n) = Some rel ->
  ((root <> "" /\ TEMP w <> "" /\ shouldSkip v (fs st) root (tag_name rel) = true) <->
   exists c, fst (sync_db SHA256 w v P st) = Exit c) /\
  (root <> "" -> TEMP w <> "" -> shouldSkip v (fs st) root (tag_name rel) = true ->
   sync_db SHA256 w v P st =
     (Exit 0, mkState (fs st)
                (log (snd (locate w P st)) ++ [ReleaseQuery (release_uri o n)]))) /\
  (root <> "" -> TEMP w = "" ->
   sync_db SHA256 w v P st = (Throw (RuntimeError "Join-Path"), snd (locate w P st))).
Proof.
  intros Hroot Hloc Hrel.
  destruct (locate w P st) as [res st0] eqn:H0. simpl in Hloc. subst res.
  assert (Hskip : root <> "" -> TEMP w <> "" ->
            shouldSkip v (fs st) root (tag_name rel) = true ->
            sync_db SHA256 w v P st =
              (Exit 0, mkState (fs st) (log st0 ++ [ReleaseQuery (release_uri o n)]))).
  { intros Hr Ht H.
    exact (skip_run _ _ _ _ _ _ _ _ _ _ Hroot
             (proj2 (paths_bound_true w root) (conj Hr Ht)) H0 Hrel H). }
  assert (Hunbound : root = "" \/ TEMP w = "" ->
            sync_db SHA256 w v P st = (Throw (RuntimeError "Join-Path"), st0)).
  { intros H. rewrite (paths_unbound_run _ _ _ _ _ _ Hroot), H0; [reflexivity |].
    unfold paths_bound. apply andb_false_iff.
    destruct H as [H | H]; [left | right]; now apply truthy_false. }
  split; [| split; [exact Hskip | intros _ Ht; exact (Hunbound (or_intror Ht))]]. split.
  - intros (Hr & Ht & H). exists 0. now rewrite (Hskip Hr Ht H).
  - intros [c Hc].
    destruct (String.eqb_spec root "") as [Hr | Hr].
    { rewrite (Hunbound (or_introl Hr)) in Hc. discriminate. }
    destruct (String.eqb_spec (TEMP w) "") as [Ht | Ht].
    { rewrite (Hunbound (or_intror Ht)) in Hc. discriminate. }
    split; [exact Hr |]. split; [exact Ht |].
    destruct (shouldSkip v (fs st) root (tag_name rel)) eqn:Hs; [reflexivity |].
    exfalso. exact (no_skip_no_exit _ _ _ _ _ _ _ _ _ _ _ Hroot H0 Hrel Hs Hc).
Qed.

Lemma short_circuit_exactly_witness :
  let w := Example.world "v3" "sencity v3" None Example.no_fault in
  sync_db Example.sha256 w V2 default_params Example.at_v3 =
    (Exit 0, mkState (fs Example.at_v3) [GitRemoteQuery; ReleaseQuery Example.api]) /\
  sync_db Example.sha256 (Example.without_TEMP w) V1 default_params Example.at_v3 =
    (Throw (RuntimeError "Join-Path"), mkState (fs Example.at_v3) [GitRemoteQuery]).
Proof.
  intros w. split.
  - apply (short_circuit_exactly Example.sha256 w V2 default_params Example.root Example.at_v3
             "yoona8030" "sencity_backend" (Example.release "v3" None));
      try reflexivity; discriminate.
  - apply (short_circuit_exactly Example.sha256 (Example.without_TEMP w) V1 default_params
             Example.root Example.at_v3
             "yoona8030" "sencity_backend" (Example.release "v3" None));
      try reflexivity. discriminate.
Defined.

(** ** Runs in a row, variant 2 *)

(** After a run of variant 2 that installed or skipped, the short-circuit
    applies to the release the store answers with. *)
Lemma current_after_run_v2 SHA256 w P st r st1 o n st0 rel :
  let root := Get_RepoRoot_v2 w in
  scratch_apart root w P ->
  line_terminator (NewLine w) ->
  starts_with_space (tag_name rel) = false -> ends_with_space (tag_name rel) = false ->
  locate w P st = (Ok (o, n), st0) ->
  Invoke_RestMethod w (release_headers w) (release_uri o n) = Some rel ->
  sync_db SHA256 w V2 P st = (r, st1) ->
  r = Ok tt \/ r = Exit 0 ->
  paths_bound w root = true /\ shouldSkip V2 (fs st1) root (tag_name rel) = true.
Proof.
  intros root (A1 & A2 & A3 & A4 & A5 & A6) Hnl Hs He Hloc Hrel Hrun Hr.
  assert (Hroot : repo_root w V2 = Some root) by reflexivity.
  rewrite sync_db_staged, (staged_from_root _ _ _ _ _ _ Hroot), Hloc in Hrun.
  rewrite continue_with_run in Hrun. cbv zeta in Hrun.
  rewrite (locate_fs _ _ _ _ _ Hloc), Hrel in Hrun.
  destruct (paths_bound w root).
  2: { injection Hrun as <- <-. destruct Hr; discriminate. }
  split; [reflexivity |].
  destruct (local_tag V2 (fs st) root) as [lt |] eqn:Hlt.
  2: { injection Hrun as <- <-. destruct Hr; discriminate. }
  destruct (shouldSkip V2 (fs st) root (tag_name rel)) eqn:Hskip.
  { injection Hrun as <- <-. simpl. exact Hskip. }
  set (sta := mkState (fs st) _) in Hrun.
  unfold mbind, Script_bind, bind in Hrun.
  destruct (stage SHA256 w V2 P rel sta) as [[[] | c | e] stb] eqn:Hstage.
  - destruct (replace_inv _ _ _ _ _ _ _ A1 A2 A5 Hrun) as (_ & _ & _ & Rres).
    destruct r as [[] | c | e]; [| destruct Rres | destruct Hr; discriminate].
    destruct Rres as (R1 & R2 & R3 & _).
    unfold shouldSkip, local_tag. rewrite R1.
    rewrite (proj2 (truthy_true _)
               (written_not_empty (tag_name rel) _ (line_terminator_not_empty _ Hnl))).
    rewrite (Trim_written _ _ Hs He (line_terminator_space _ Hnl)).
    cbn [PS.eq_or_null]. rewrite ps_eq_refl.
    unfold exists_at. rewrite R3. now destruct R2 as [x ->].
  - now apply stage_result in Hstage.
  - injection Hrun as <- <-. destruct Hr; discriminate.
Qed.

(** X7: variant 2 any number of times in a row, the store answering each
    query as before and its tags having no white space at their ends.
    After a run that installed or skipped, every further run exits with
    code 0, and all of them together download nothing and leave the file
    system as the first run left it. *)
Theorem repeated_runs_skip_v2 SHA256 w P st r st1 :
  let root := Get_RepoRoot_v2 w in
  scratch_apart root w P ->
  line_terminator (NewLine w) ->
  (forall h u rel, Invoke_RestMethod w h u = Some rel ->
     starts_with_space (tag_name rel) = false /\ ends_with_space (tag_name rel) = false) ->
  sync_db SHA256 w V2 P st = (r, st1) ->
  r = Ok tt \/ r = Exit 0 ->
  forall k,
    fst (sync_db SHA256 w V2 P (again SHA256 w V2 P k st1)) = Exit 0 /\
    fs (again SHA256 w V2 P k st1) = fs st1 /\
    existsb is_download (requests st1 (again SHA256 w V2 P k st1)) = false.
Proof.
  intros root Hapart Hnl Htags Hrun Hr.
  assert (Hroot : repo_root w V2 = Some root) by reflexivity.
  (* the first run located the repository and got an answer *)
  assert (Hfirst : exists o n st0 rel,
            locate w P st = (Ok (o, n), st0) /\
            Invoke_RestMethod w (release_headers w) (release_uri o n) = Some rel).
  { pose proof Hrun as H.
    rewrite sync_db_staged, (staged_from_root _ _ _ _ _ _ Hroot) in H.
    destruct (locate w P st) as [[[o n] | c | e] st0] eqn:Hloc.
    - rewrite continue_with_run in H. cbv zeta in H.
      destruct (paths_bound w root).
      2: { injection H as <- <-. destruct Hr; discriminate. }
      destruct (Invoke_RestMethod w _ _) as [rel |] eqn:Hrel; [eauto 6 |].
      injection H as <- <-. destruct Hr; discriminate.
    - now apply locate_result in Hloc.
    - injection H as <- <-. destruct Hr; discriminate. }
  destruct Hfirst as (o & n & st0 & rel & Hloc & Hrel).
  destruct (Htags _ _ _ Hrel) as [Hs He].
  pose proof (current_after_run_v2 _ _ _ _ _ _ _ _ _ _ Hapart Hnl Hs He Hloc Hrel Hrun Hr)
    as [Hpaths Hskip].
  fold root in Hpaths, Hskip. clear Hrun Hr r.
  (* every later state is one where the short-circuit applies *)
  assert (Hall : forall k sta,
            shouldSkip V2 (fs sta) root (tag_name rel) = true ->
            exists l,
              log (again SHA256 w V2 P k sta) = log sta ++ l /\
              existsb is_download l = false /\
              fs (again SHA256 w V2 P k sta) = fs sta /\
              fst (sync_db SHA256 w V2 P (again SHA256 w V2 P k sta)) = Exit 0).
  { induction k as [|k IH]; intros sta Hsk;
      destruct (locate_again _ _ _ _ _ _ sta Hloc) as (stb & Hlocb & Hfsb & Hlogb);
      pose proof (skip_run SHA256 _ _ _ _ _ _ _ _ _ Hroot Hpaths Hlocb Hrel Hsk) as Hstep.
    - exists []. cbn [again]. rewrite app_nil_r, Hstep. auto.
    - cbn [again]. rewrite Hstep. cbn [snd].
      set (stc := mkState (fs sta) _).
      destruct (IH stc Hsk) as (l & Hl & Hdl & Hfs & Hres).
      subst stc. simpl in Hl, Hfs.
      destruct Hlogb as [Hb | Hb]; rewrite Hb in *.
      + exists (ReleaseQuery (release_uri o n) :: l).
        split; [now rewrite Hl, <- app_assoc |]. simpl. auto.
      + exists (GitRemoteQuery :: ReleaseQuery (release_uri o n) :: l).
        split; [now rewrite Hl, <- !app_assoc |]. simpl. auto. }
  intros k. destruct (Hall k st1 Hskip) as (l & Hl & Hdl & Hfs & Hres).
  split; [exact Hres |]. split; [exact Hfs |].
  now rewrite (requests_app _ _ _ Hl).
Qed.

Lemma repeated_runs_skip_v2_witness :
  let w := Example.world "v3" "sencity v3" None Example.no_fault in
  let first := sync_db Example.sha256 w V2 default_params Example.fresh in
  fst first = Ok tt /\
  fs (again Example.sha256 w V2 default_params 3 (snd first)) = fs (snd first).
Proof.
  intros w first. split; [reflexivity |].
  apply (repeated_runs_skip_v2 Example.sha256 w default_params Example.fresh
           (fst first) (snd first)).
  - repeat split; (discriminate || reflexivity).
  - left. reflexivity.
  - intros h u rel H. simpl in H.
    destruct (String.eqb u Example.api); [| discriminate].
    injection H as <-. split; reflexivity.
  - apply surjective_pairing.
  - left. reflexivity.
Defined.

(** ** Runs in a row, variant 1 *)

(** X8: variant 1 after a run that installed.  The marker it wrote holds
    the tag and a line terminator, which it will read without trimming: the
    short-circuit does not apply to the release just installed, and the
    next run, the store answering with the same release, does not exit. *)
Theorem variant1_never_skips_its_own_marker SHA256 w P root st st1 :
  git_toplevel w = Some root ->
  scratch_apart root w P ->
  line_terminator (NewLine w) ->
  sync_db SHA256 w V1 P st = (Ok tt, st1) ->
  exists rel,
    store_answer w st1 rel /\
    fs st1 !! versionFile root = Some (File (tag_name rel +:+ NewLine w)) /\
    shouldSkip V1 (fs st1) root (tag_name rel) = false /\
    forall c, fst (sync_db SHA256 w V1 P st1) <> Exit c.
Proof.
  intros Hroot Hapart Hnl Hrun.
  assert (Hr : repo_root w V1 = Some root) by exact Hroot.
  (* the run located the repository and the store answered *)
  assert (Hfirst : exists o n st0 rel,
            locate w P st = (Ok (o, n), st0) /\
            Invoke_RestMethod w (release_headers w) (release_uri o n) = Some rel /\
            fs st1 !! versionFile root = Some (File (tag_name rel +:+ NewLine w)) /\
            store_answer w st1 rel).
  { destruct Hapart as (A1 & A2 & A3 & A4 & A5 & A6).
    destruct (sync_db_cases _ _ _ _ _ _ _ _ Hr Hrun)
      as [[_ Hne] | (o & n & rel & sta & Hp & Hfs & Hq & Hcase)]; [congruence |].
    destruct (stage SHA256 w V1 P rel sta) as [[[] | c | e] stb] eqn:Hstage;
      [| destruct Hcase | destruct Hcase; discriminate].
    destruct (replace_inv _ _ _ _ _ _ _ A1 A2 A5 Hcase) as (Rlog & _ & _ & R1 & _).
    destruct (stage_log _ _ _ _ _ _ _ _ Hstage) as (l & Hlog & _).
    destruct Hp as (Hloc & _ & _ & Hrel & _).
    destruct (locate w P st) as [res st0] eqn:H0. simpl in Hloc. subst res.
    exists o, n, st0, rel. repeat split; try assumption.
    exists o, n. split; [exact Hrel |]. rewrite Rlog, Hlog. apply in_app_iff. auto. }
  destruct Hfirst as (o & n & st0 & rel & Hloc & Hrel & Hmarker & Hstore).
  assert (Hskip : shouldSkip V1 (fs st1) root (tag_name rel) = false).
  { unfold shouldSkip, local_tag. rewrite Hmarker.
    rewrite (proj2 (truthy_true _)
               (written_not_empty (tag_name rel) _ (line_terminator_not_empty _ Hnl))).
    cbn [PS.eq_or_null].
    destruct (PS.eq (tag_name rel) (tag_name rel +:+ NewLine w)) eqn:He; [| reflexivity].
    apply ps_eq_length in He. rewrite length_append in He.
    destruct Hnl as [Hn | Hn]; rewrite Hn in He; simpl in He; lia. }
  exists rel. split; [exact Hstore |]. split; [exact Hmarker |]. split; [exact Hskip |].
  intros c. destruct (locate_again _ _ _ _ _ _ st1 Hloc) as (st2 & Hloc2 & _).
  exact (no_skip_no_exit _ _ _ _ _ _ _ _ _ _ _ Hr Hloc2 Hrel Hskip).
Qed.

Lemma variant1_never_skips_its_own_marker_witness :
  let w := Example.world "v3" "sencity v3" None Example.no_fault in
  let first := sync_db Example.sha256 w V1 default_params Example.fresh in
  fst first = Ok tt /\ fst (sync_db Example.sha256 w V1 default_params (snd first)) <> Exit 0.
Proof.
  intros w first. split; [reflexivity |].
  destruct (variant1_never_skips_its_own_marker Example.sha256 w default_params
              Example.root Example.fresh (snd first)) as (rel & _ & _ & _ & H).
  - reflexivity.
  - repeat split; (discriminate || reflexivity).
  - left. reflexivity.
  - rewrite (surjective_pairing (sync_db _ _ _ _ _)). reflexivity.
  - apply H.
Defined.

(** ** The marker, written and read back *)

Lemma Trim_append_space t nl : all_space nl = true -> Net.Trim (t +:+ nl) = Net.Trim t.
Proof.
  intros Hnl. unfold Net.Trim. induction t as [|c t IH].
  - rewrite append_nil_l, (TrimStart_space _ Hnl). reflexivity.
  - rewrite append_cons. cbn [Net.TrimStart]. destruct (Net.IsWhiteSpace c); [exact IH |].
    rewrite <- append_cons. now apply TrimEnd_append_space.
Qed.

(** X9: the marker after [Set-Content] of a tag, read back by each
    variant.  Variant 2 reads the tag without the white space at its ends,
    so the tag itself when it has none there; variant 1 reads the tag with
    the line terminator after it, a text that is never [-eq] to the tag. *)
Theorem marker_read_back w v marker tag st :
  line_terminator (NewLine w) ->
  fault w SetContent marker = false ->
  fs st !! marker <> Some Directory ->
  (Set_Content w marker tag;; read_marker v marker) st =
    (Ok (Some (match v with V1 => tag +:+ NewLine w | V2 => Net.Trim tag end)),
     write_file marker (tag +:+ NewLine w) st) /\
  PS.eq tag (tag +:+ NewLine w) = false /\
  (starts_with_space tag = false -> ends_with_space tag = false -> Net.Trim tag = tag).
Proof.
  intros Hnl Hf Hd. split; [| split].
  - rewrite (marker_roundtrip v _ _ _ _ (line_terminator_not_empty _ Hnl) Hf Hd).
    destruct v; [reflexivity |].
    now rewrite (Trim_append_space _ _ (line_terminator_space _ Hnl)).
  - destruct (PS.eq tag (tag +:+ NewLine w)) eqn:He; [| reflexivity].
    apply ps_eq_length in He. rewrite length_append in He.
    destruct Hnl as [Hn | Hn]; rewrite Hn in He; simpl in He; lia.
  - apply Trim_id.
Qed.

Lemma marker_read_back_witness :
  let w := Example.world "v3" "sencity v3" None Example.no_fault in
  let marker := versionFile Example.root in
  fst ((Set_Content w marker " v3 ";; read_marker V2 marker) Example.fresh) = Ok (Some "v3") /\
  PS.eq "v3" ("v3" +:+ NewLine w) = false.
Proof.
  intros w marker.
  destruct (marker_read_back w V2 marker " v3 " Example.fresh) as (H1 & _ & _).
  - left. reflexivity.
  - reflexivity.
  - discriminate.
  - destruct (marker_read_back w V1 marker "v3" Example.fresh) as (_ & H2 & _).
    + left. reflexivity.
    + reflexivity.
    + discriminate.
    + split; [now rewrite H1 | exact H2].
Defined.

(** ** Fetching and verifying, as equations *)

Lemma ToLowerChar_idem c : Net.ToLowerChar (Net.ToLowerChar c) = Net.ToLowerChar c.
Proof.
  assert (E : every_char (fun c =>
                Ascii.eqb (Net.ToLowerChar (Net.ToLowerChar c)) (Net.ToLowerChar c)) = true)
    by (vm_compute; reflexivity).
  apply every_char_spec with (c := c) in E. now apply Ascii.eqb_eq in E.
Qed.

Lemma ToLower_idem s : Net.ToLower (Net.ToLower s) = Net.ToLower s.
Proof. induction s as [|c s IH]; simpl; [reflexivity | now rewrite ToLowerChar_idem, IH]. Qed.

Lemma ps_eq_lower_l a b : PS.eq (Net.ToLower a) b = PS.eq a b.
Proof. unfold PS.eq. now rewrite ToLower_idem. Qed.

Lemma ps_eq_lower_r a b : PS.eq a (Net.ToLower b) = PS.eq a b.
Proof. unfold PS.eq. now rewrite ToLower_idem. Qed.

(** The verifier, once the artifact is staged. *)
Lemma verify_run SHA256 w v P rel st body :
  fs st !! tmpDownload w P = Some (File body) ->
  tmpDownload w P <> shaTmp w P ->
  verify SHA256 w v P rel st =
  match find_asset rel (ShaAssetName P) with
  | None => (Ok tt, st)
  | Some shaAsset =>
      let st1 := mkState (fs st) (log st ++ [AssetDownload (browser_download_url shaAsset)]) in
      match Invoke_WebRequest w octet_headers (browser_download_url shaAsset) with
      | None => (Throw DownloadError, st1)
      | Some raw =>
          let st2 := write_file (shaTmp w P) raw st1 in
          if digest_accepted v raw (SHA256 body) then (Ok tt, st2)
          else
            match v with
            | V1 =>
                (match extract_v1 raw with
                 | Some _ => Throw IntegrityError
                 | None => Throw (RuntimeError "null-valued expression")
                 end, st2)
            | V2 =>
                if PS.truthy raw
                then (Throw IntegrityError,
                      mkState (delete (tmpDownload w P) (fs st2)) (log st2))
                else (Throw (RuntimeError "null-valued expression"), st2)
            end
      end
  end.
Proof.
  intros Hbody Hne. unfold verify.
  destruct (find_asset rel (ShaAssetName P)) as [shaAsset |]; [| reflexivity].
  unfold mbind at 1. unfold Script_bind, bind, Invoke_WebRequest_OutFile at 1.
  destruct (Invoke_WebRequest w octet_headers _) as [raw |]; [| reflexivity].
  cbv zeta.
  set (st2 := write_file _ _ _).
  assert (H1 : fs st2 !! shaTmp w P = Some (File raw))
    by (subst st2; simpl; now simplify_map_eq).
  assert (H2 : fs st2 !! tmpDownload w P = Some (File body))
    by (subst st2; simpl; now simplify_map_eq).
  destruct v; unfold digest_accepted.
  - unfold mbind, Script_bind, bind. rewrite (extract_v1_run _ _ _ H1).
    destruct (extract_v1 raw) as [e |]; [| reflexivity].
    unfold Get_FileHash_SHA256. rewrite H2.
    unfold when, PS.ne. rewrite ps_eq_lower_l, ps_eq_lower_r.
    now destruct (PS.eq e (SHA256 body)).
  - unfold mbind, Script_bind, bind. rewrite (extract_v2_run _ _ _ H1).
    destruct (PS.truthy raw); [| reflexivity]. cbn [andb].
    unfold Get_FileHash_SHA256. rewrite H2.
    unfold when, PS.ne. rewrite ps_eq_lower_r.
    now destruct (PS.eq (extract_v2 raw) (SHA256 body)).
Qed.

(** The fetcher and the verifier. *)
Lemma stage_run SHA256 w v P rel st :
  tmpDownload w P <> shaTmp w P ->
  stage SHA256 w v P rel st =
  match find_asset rel (AssetName P) with
  | None => (Throw AssetNotFoundError, st)
  | Some asset =>
      let st1 := mkState (fs st) (log st ++ [AssetDownload (browser_download_url asset)]) in
      match Invoke_WebRequest w octet_headers (browser_download_url asset) with
      | None => (Throw DownloadError, st1)
      | Some body =>
          let st2 := write_file (tmpDownload w P) body st1 in
          match find_asset rel (ShaAssetName P) with
          | None => (Ok tt, st2)
          | Some shaAsset =>
              let st3 :=
                mkState (fs st2) (log st2 ++ [AssetDownload (browser_download_url shaAsset)]) in
              match Invoke_WebRequest w octet_headers (browser_download_url shaAsset) with
              | None => (Throw DownloadError, st3)
              | Some raw =>
                  let st4 := write_file (shaTmp w P) raw st3 in
                  if digest_accepted v raw (SHA256 body) then (Ok tt, st4)
                  else
                    match v with
                    | V1 =>
                        (match extract_v1 raw with
                         | Some _ => Throw IntegrityError
                         | None => Throw (RuntimeError "null-valued expression")
                         end, st4)
                    | V2 =>
                        if PS.truthy raw
                        then (Throw IntegrityError,
                              mkState (delete (tmpDownload w P) (fs st4)) (log st4))
                        else (Throw (RuntimeError "null-valued expression"), st4)
                    end
              end
          end
      end
  end.
Proof.
  intros Hne. unfold stage.
  destruct (find_asset rel (AssetName P)) as [asset |]; [| reflexivity].
  unfold mbind at 1. unfold Script_bind, bind, Invoke_WebRequest_OutFile at 1.
  destruct (Invoke_WebRequest w octet_headers _) as [body |]; [| reflexivity].
  cbv zeta.
  rewrite (verify_run _ _ _ _ _ _ body); [reflexivity | | exact Hne].
  simpl. now simplify_map_eq.
Qed.

(** ** What an installed replica is *)

(** X10: after a run that installs, the replica is byte for byte what the
    store served for the data asset of the answered release, the marker holds
    the tag of that release, and the staged artifact is gone from the
    scratch directory; and when the release lists a checksum asset, the
    digest the variant extracts from it was accepted for the hash of what
    is now the replica, and the checksum text stays in the scratch
    directory. *)
Theorem installed_is_verified SHA256 w v P root st st' :
  repo_root w v = Some root ->
  scratch_apart root w P ->
  tmpDownload w P <> shaTmp w P ->
  sync_db SHA256 w v P st = (Ok tt, st') ->
  exists rel asset body,
    store_answer w st' rel /\
    find_asset rel (AssetName P) = Some asset /\
    Invoke_WebRequest w octet_headers (browser_download_url asset) = Some body /\
    fs st' !! targetDb root = Some (File body) /\
    fs st' !! versionFile root = Some (File (tag_name rel +:+ NewLine w)) /\
    fs st' !! tmpDownload w P = None /\
    (forall shaAsset,
       find_asset rel (ShaAssetName P) = Some shaAsset ->
       exists raw,
         Invoke_WebRequest w octet_headers (browser_download_url shaAsset) = Some raw /\
         digest_accepted v raw (SHA256 body) = true /\
         fs st' !! shaTmp w P = Some (File raw)).
Proof.
  intros Hroot (A1 & A2 & A3 & A4 & A5 & A6) Hne Hrun.
  destruct (sync_db_cases _ _ _ _ _ _ _ _ Hroot Hrun)
    as [[_ Hr] | (o & n & rel & st1 & Hp & Hfs1 & Hq & Hcase)]; [congruence |].
  destruct (stage SHA256 w v P rel st1) as [[[] | c | e] st2] eqn:Hstage;
    [rename Hcase into Hrep | destruct Hcase | destruct Hcase; discriminate].
  pose proof (stage_log _ _ _ _ _ _ _ _ Hstage) as (l & Hlog & _).
  destruct (replace_inv _ _ _ _ _ _ _ A1 A2 A5 Hrep)
    as (Rlog & Rframe & _ & R1 & R2 & R3 & R4 & _).
  assert (Hstore : store_answer w st' rel).
  { destruct Hp as (_ & _ & _ & Hrel & _). exists o, n. split; [exact Hrel |].
    rewrite Rlog, Hlog. apply in_app_iff. auto. }
  assert (Hsha : fs st' !! shaTmp w P = fs st2 !! shaTmp w P).
  { apply Rframe; try congruence. now apply backupPath_not_scratch. }
  rewrite (stage_run _ _ _ _ _ _ Hne) in Hstage.
  destruct (find_asset rel (AssetName P)) as [asset |] eqn:Hasset; [| discriminate].
  cbv zeta in Hstage.
  destruct (Invoke_WebRequest w octet_headers (browser_download_url asset)) as [body |] eqn:Hbody;
    [| discriminate].
  exists rel, asset, body.
  split; [exact Hstore |]. split; [exact Hasset |]. split; [exact Hbody |].
  destruct (find_asset rel (ShaAssetName P)) as [shaAsset |] eqn:Hsa.
  - destruct (Invoke_WebRequest w octet_headers (browser_download_url shaAsset))
      as [raw |] eqn:Hraw; [| discriminate].
    destruct (digest_accepted v raw (SHA256 body)) eqn:Hacc.
    + injection Hstage as <-. simpl in R3, Hsha.
      rewrite R3, Hsha. simplify_map_eq.
      repeat split; try assumption.
      intros ? [= <-]. exists raw. rewrite Hraw. auto.
    + destruct v; [destruct (extract_v1 raw) | destruct (PS.truthy raw)]; discriminate.
  - injection Hstage as <-. simpl in R3. rewrite R3. simplify_map_eq.
    repeat split; try assumption. discriminate.
Qed.

Lemma installed_is_verified_witness :
  let checksum := "af393dfb468c5e0ea869ddb90bbfef72db7b093deee061c82791055eba84f58e  db_release.sqlite3" in
  let w := Example.world "v4" "sencity v4" (Some checksum) Example.no_fault in
  let run := sync_db Example.sha256 w V1 default_params Example.at_v3 in
  exists rel asset body,
    store_answer w (snd run) rel /\
    find_asset rel "db_release.sqlite3" = Some asset /\
    Invoke_WebRequest w octet_headers (browser_download_url asset) = Some body /\
    fs (snd run) !! targetDb Example.root = Some (File body).
Proof.
  intros checksum w run.
  destruct (installed_is_verified Example.sha256 w V1 default_params Example.root
              Example.at_v3 (snd run)) as (rel & asset & body & H1 & H2 & H3 & H4 & _).
  - reflexivity.
  - repeat split; (discriminate || reflexivity).
  - discriminate.
  - rewrite (surjective_pairing (sync_db _ _ _ _ _)). reflexivity.
  - exists rel, asset, body. auto.
Defined.

(** ** With a checksum asset *)

(** The stage with both assets served. *)
Lemma stage_with_checksum SHA256 w v P rel st asset body shaAsset raw :
  tmpDownload w P <> shaTmp w P ->
  find_asset rel (AssetName P) = Some asset ->
  Invoke_WebRequest w octet_headers (browser_download_url asset) = Some body ->
  find_asset rel (ShaAssetName P) = Some shaAsset ->
  Invoke_WebRequest w octet_headers (browser_download_url shaAsset) = Some raw ->
  let staged_fs := <[shaTmp w P := File raw]> (<[tmpDownload w P := File body]> (fs st)) in
  let log' := log st ++ [AssetDownload (browser_download_url asset);
                         AssetDownload (browser_download_url shaAsset)] in
  stage SHA256 w v P rel st =
    if digest_accepted v raw (SHA256 body) then (Ok tt, mkState staged_fs log')
    else
      match v with
      | V1 =>
          (match extract_v1 raw with
           | Some _ => Throw IntegrityError
           | None => Throw (RuntimeError "null-valued expression")
           end, mkState staged_fs log')
      | V2 =>
          if PS.truthy raw
          then (Throw IntegrityError, mkState (delete (tmpDownload w P) staged_fs) log')
          else (Throw (RuntimeError "null-valued expression"), mkState staged_fs log')
      end.
Proof.
  intros Hne Ha Hb Hs Hr. cbv zeta.
  rewrite (stage_run _ _ _ _ _ _ Hne), Ha. cbv zeta. rewrite Hb, Hs, Hr.
  unfold write_file. cbn [fs log]. rewrite <- app_assoc. reflexivity.
Qed.

(** X11: with the data asset and the checksum asset served, and the digest
    accepted, a run past the short-circuit installs: the replica is the
    download, the marker holds the remote tag, the replica that was there
    is at the backup path, and the run has sent exactly the two downloads,
    the data asset first. *)
Theorem verified_install SHA256 w v P root st o n rel asset body shaAsset raw :
  repo_root w v = Some root ->
  scratch_apart root w P ->
  tmpDownload w P <> shaTmp w P ->
  replacer_unhindered w root ->
  proceeds w v P root st o n rel ->
  find_asset rel (AssetName P) = Some asset ->
  Invoke_WebRequest w octet_headers (browser_download_url asset) = Some body ->
  find_asset rel (ShaAssetName P) = Some shaAsset ->
  Invoke_WebRequest w octet_headers (browser_download_url shaAsset) = Some raw ->
  digest_accepted v raw (SHA256 body) = true ->
  exists st',
    sync_db SHA256 w v P st = (Ok tt, st') /\
    fs st' !! targetDb root = Some (File body) /\
    fs st' !! versionFile root = Some (File (tag_name rel +:+ NewLine w)) /\
    (forall old, fs st !! targetDb root = Some old ->
                 fs st' !! backupPath w root = Some old) /\
    filter (fun r => is_download r = true) (requests st st') =
      [AssetDownload (browser_download_url asset);
       AssetDownload (browser_download_url shaAsset)].
Proof.
  intros Hroot (A1 & A2 & A3 & A4 & A5 & A6) Hne Hfault Hp Ha Hb Hs Hr Hacc.
  pose proof (targetDb_versionFile root) as H4.
  pose proof (backupPath_targetDb w root) as H5.
  pose proof (backupPath_versionFile w root) as H6.
  pose proof (backupPath_not_scratch w root _ A5) as H7.
  pose proof (backupPath_not_scratch w root _ A6) as H8.
  rewrite (proceeds_run _ _ _ _ _ _ _ _ _ Hroot Hp).
  unfold mbind, Script_bind, bind.
  rewrite (stage_with_checksum _ _ _ _ _ _ _ _ _ _ Hne Ha Hb Hs Hr), Hacc.
  cbn [fs log].
  rewrite (replace_ok _ _ _ _ _ (File body) Hfault A1 A2 A5).
  2: { cbn [fs]. now simplify_map_eq. }
  2: { cbn [fs]. rewrite !lookup_insert_ne by congruence.
       destruct Hp as (_ & _ & _ & _ & Hlt & _). now apply local_tag_file in Hlt. }
  eexists. split; [reflexivity |]. cbn [fs log].
  split; [| split; [| split]].
  - now simplify_map_eq.
  - now simplify_map_eq.
  - intros old Hold. unfold with_backup.
    rewrite !(lookup_insert_ne _ _ (targetDb root)) by congruence.
    rewrite Hold. now simplify_map_eq.
  - destruct (locate_log w P st) as [Hl | Hl].
    + rewrite (requests_app st _ [ReleaseQuery (release_uri o n);
                                  AssetDownload (browser_download_url asset);
                                  AssetDownload (browser_download_url shaAsset)]).
      * reflexivity.
      * cbn [log]. rewrite Hl. now rewrite <- app_assoc.
    + rewrite (requests_app st _ [GitRemoteQuery; ReleaseQuery (release_uri o n);
                                  AssetDownload (browser_download_url asset);
                                  AssetDownload (browser_download_url shaAsset)]).
      * reflexivity.
      * cbn [log]. rewrite Hl. now rewrite <- !app_assoc.
Qed.

Lemma verified_install_witness :
  let checksum := "SHA256 (db_release.sqlite3) = AF393DFB468C5E0EA869DDB90BBFEF72DB7B093DEEE061C82791055EBA84F58E" in
  let w := Example.world "v4" "sencity v4" (Some checksum) Example.no_fault in
  exists st',
    sync_db Example.sha256 w V2 default_params Example.at_v3 = (Ok tt, st') /\
    fs st' !! targetDb Example.root = Some (File "sencity v4") /\
    fs st' !! backupPath w Example.root = Some (File "sencity v3").
Proof.
  intros checksum w.
  destruct (verified_install Example.sha256 w V2 default_params Example.root
              Example.at_v3 "yoona8030" "sencity_backend"
              (Example.release "v4" (Some checksum))
              (mkAsset "db_release.sqlite3" Example.db_url) "sencity v4"
              (mkAsset "db_release.sha256.txt" Example.sha_url) checksum)
    as (st' & Hrun & Hdb & _ & Hbak & _).
  - reflexivity.
  - repeat split; (discriminate || reflexivity).
  - discriminate.
  - repeat split.
  - repeat split; try discriminate; try reflexivity. exists (Some "v3"). reflexivity.
  - reflexivity.
  - reflexivity.
  - reflexivity.
  - reflexivity.
  - vm_compute. reflexivity.
  - exists st'. split; [exact Hrun |]. split; [exact Hdb |]. now apply Hbak.
Defined.

Lemma ReadLines_nil raw : Net.ReadLines raw = [] <-> raw = "".
Proof.
  split; [| now intros ->].
  unfold Net.ReadLines. destruct raw as [|c s]; [reflexivity |]. intros H. exfalso.
  destruct (segments_nonempty s) as (l & ls & Hs). revert H. cbn [Net.segments].
  destruct (Ascii.eqb c Net.LF).
  { rewrite Hs. cbn [Net.drop_last_empty]. discriminate. }
  destruct (Ascii.eqb c Net.CR).
  { destruct s as [|d s'].
    - rewrite Hs. cbn [Net.drop_last_empty]. discriminate.
    - destruct (Ascii.eqb d Net.LF).
      + destruct (segments_nonempty s') as (l' & ls' & ->). discriminate.
      + rewrite Hs. discriminate. }
  rewrite Hs. cbn [Net.drop_last_empty]. destruct ls; discriminate.
Qed.

Lemma extract_v1_none raw : extract_v1 raw = None <-> raw = "".
Proof.
  unfold extract_v1. rewrite <- ReadLines_nil. now destruct (Net.ReadLines raw).
Qed.

(** X12: with the data asset and the checksum asset served, and the digest
    not accepted, a run past the short-circuit fails and installs nothing:
    replica, marker and backups are as before.  On a checksum text that is
    not empty both variants end with an IntegrityError; variant 2 deletes
    the staged artifact and variant 1 leaves it in the scratch directory.
    An empty checksum file is [$null] to both variants: both end with the
    error of a method call on [$null], before they compare anything, and
    both leave the staged artifact. *)
Theorem rejected_digest SHA256 w v P root st o n rel asset body shaAsset raw :
  repo_root w v = Some root ->
  scratch_apart root w P ->
  tmpDownload w P <> shaTmp w P ->
  proceeds w v P root st o n rel ->
  find_asset rel (AssetName P) = Some asset ->
  Invoke_WebRequest w octet_headers (browser_download_url asset) = Some body ->
  find_asset rel (ShaAssetName P) = Some shaAsset ->
  Invoke_WebRequest w octet_headers (browser_download_url shaAsset) = Some raw ->
  digest_accepted v raw (SHA256 body) = false ->
  exists e st',
    sync_db SHA256 w v P st = (Throw e, st') /\
    e = (if String.eqb raw "" then RuntimeError "null-valued expression"
         else IntegrityError) /\
    fs st' !! targetDb root = fs st !! targetDb root /\
    fs st' !! versionFile root = fs st !! versionFile root /\
    backups root (fs st') = backups root (fs st) /\
    fs st' !! tmpDownload w P =
      match v with
      | V1 => Some (File body)
      | V2 => if String.eqb raw "" then Some (File body) else None
      end.
Proof.
  intros Hroot Hapart Hne Hp Ha Hb Hs Hr Hacc.
  pose proof (stage_with_checksum SHA256 w v P rel
                (mkState (fs st) (log (snd (locate w P st)) ++ [ReleaseQuery (release_uri o n)]))
                _ _ _ _ Hne Ha Hb Hs Hr) as Hstage.
  cbv zeta in Hstage. rewrite Hacc in Hstage. cbn [fs log] in Hstage.
  assert (Hfail : exists e,
            e = (if String.eqb raw "" then RuntimeError "null-valued expression"
                 else IntegrityError) /\
            stage SHA256 w v P rel
              (mkState (fs st) (log (snd (locate w P st)) ++ [ReleaseQuery (release_uri o n)])) =
            (Throw e,
             mkState
               (match v with
                | V1 => fun m => m
                | V2 => if String.eqb raw "" then fun m => m else delete (tmpDownload w P)
                end (<[shaTmp w P := File raw]> (<[tmpDownload w P := File body]> (fs st))))
               ((log (snd (locate w P st)) ++ [ReleaseQuery (release_uri o n)]) ++
                [AssetDownload (browser_download_url asset);
                 AssetDownload (browser_download_url shaAsset)]))).
  { rewrite Hstage. unfold PS.truthy. destruct (String.eqb_spec raw "") as [-> | Hraw].
    - destruct v; eexists; split; reflexivity.
    - destruct v; [| eexists; split; reflexivity].
      destruct (extract_v1 raw) eqn:He; [eexists; split; reflexivity |].
      now apply extract_v1_none in He. }
  destruct Hfail as (e & He & Hthrow).
  destruct (stage_failure_frame _ _ _ _ _ _ _ _ _ _ _ Hroot Hapart Hp Hthrow)
    as (Hrun & Hdb & Hver & Hbak).
  exists e. eexists. split; [exact Hrun |]. cbn [fs].
  split; [exact He |]. split; [exact Hdb |]. split; [exact Hver |]. split; [exact Hbak |].
  destruct v; [| destruct (String.eqb raw "")]; now simplify_map_eq.
Qed.

Lemma rejected_digest_witness :
  let w := Example.world "v4" "sencity v4" (Some "") Example.no_fault in
  let other := "3be1f6624e828d73362db49ff35fd0daaa06570b3a0068c87c85506fb3d811aa" in
  let w' := Example.world "v4" "sencity v4" (Some other) Example.no_fault in
  (exists st',
     sync_db Example.sha256 w V2 default_params Example.at_v3 =
       (Throw (RuntimeError "null-valued expression"), st') /\
     fs st' !! targetDb Example.root = Some (File "sencity v3") /\
     fs st' !! tmpDownload w default_params = Some (File "sencity v4")) /\
  (exists st',
     sync_db Example.sha256 w' V1 default_params Example.at_v3 =
       (Throw IntegrityError, st') /\
     fs st' !! targetDb Example.root = Some (File "sencity v3") /\
     fs st' !! tmpDownload w' default_params = Some (File "sencity v4")).
Proof.
  intros w other w'. split.
  - destruct (rejected_digest Example.sha256 w V2 default_params Example.root
                Example.at_v3 "yoona8030" "sencity_backend"
                (Example.release "v4" (Some ""))
                (mkAsset "db_release.sqlite3" Example.db_url) "sencity v4"
                (mkAsset "db_release.sha256.txt" Example.sha_url) "")
      as (e & st' & Hrun & He & Hdb & _ & _ & Htmp).
    + reflexivity.
    + repeat split; (discriminate || reflexivity).
    + discriminate.
    + repeat split; try discriminate; try reflexivity. exists (Some "v3"). reflexivity.
    + reflexivity.
    + reflexivity.
    + reflexivity.
    + reflexivity.
    + reflexivity.
    + exists st'. subst e. split; [exact Hrun |]. split; [exact Hdb | exact Htmp].
  - destruct (rejected_digest Example.sha256 w' V1 default_params Example.root
                Example.at_v3 "yoona8030" "sencity_backend"
                (Example.release "v4" (Some other))
                (mkAsset "db_release.sqlite3" Example.db_url) "sencity v4"
                (mkAsset "db_release.sha256.txt" Example.sha_url) other)
      as (e & st' & Hrun & He & Hdb & _ & _ & Htmp).
    + reflexivity.
    + repeat split; (discriminate || reflexivity).
    + discriminate.
    + repeat split; try discriminate; try reflexivity.
      exists (Some ("v3" +:+ Example.crlf)). reflexivity.
    + reflexivity.
    + reflexivity.
    + reflexivity.
    + reflexivity.
    + vm_compute. reflexivity.
    + exists st'. subst e. split; [exact Hrun |]. split; [exact Hdb | exact Htmp].
Defined.

(** ** Downloads that fail *)

(** X13: a run past the short-circuit whose download of the data asset
    fails ends with a DownloadError, and so does a run whose download of
    the checksum asset fails; in both variants the unverified artifact then
    stays staged in the scratch directory.  Either way the run leaves every
    path as it was but the scratch file the failed download was to write
    and, in the second case, the staged artifact: replica, marker and
    backups are untouched. *)
Theorem failed_download SHA256 w v P root st o n rel asset :
  repo_root w v = Some root ->
  tmpDownload w P <> shaTmp w P ->
  proceeds w v P root st o n rel ->
  find_asset rel (AssetName P) = Some asset ->
  let sent := log (snd (locate w P st)) ++ [ReleaseQuery (release_uri o n)] in
  (Invoke_WebRequest w octet_headers (browser_download_url asset) = None ->
   exists st',
     sync_db SHA256 w v P st = (Throw DownloadError, st') /\
     log st' = sent ++ [AssetDownload (browser_download_url asset)] /\
     forall p, p <> tmpDownload w P -> fs st' !! p = fs st !! p) /\
  (forall body shaAsset,
     Invoke_WebRequest w octet_headers (browser_download_url asset) = Some body ->
     find_asset rel (ShaAssetName P) = Some shaAsset ->
     Invoke_WebRequest w octet_headers (browser_download_url shaAsset) = None ->
     exists st',
       sync_db SHA256 w v P st = (Throw DownloadError, st') /\
       log st' = sent ++ [AssetDownload (browser_download_url asset);
                          AssetDownload (browser_download_url shaAsset)] /\
       fs st' !! tmpDownload w P = Some (File body) /\
       forall p, p <> tmpDownload w P -> p <> shaTmp w P -> fs st' !! p = fs st !! p).
Proof.
  intros Hroot Hne Hp Ha sent.
  rewrite (proceeds_run _ _ _ _ _ _ _ _ _ Hroot Hp). fold sent.
  unfold mbind, Script_bind, bind.
  rewrite (stage_run _ _ _ _ _ _ Hne), Ha. cbv zeta. cbn [fs log].
  split.
  - intros ->. eexists. split; [reflexivity |]. cbn [fs log]. auto.
  - intros body shaAsset -> -> ->. eexists. split; [reflexivity |].
    unfold write_file. cbn [fs log]. split; [now rewrite <- app_assoc |].
    split; [apply lookup_insert_eq |].
    intros p Hp1 _. now apply lookup_insert_ne.
Qed.

Lemma failed_download_witness :
  let w := mkWorld "C:\repo\scripts" "C:\Temp" "" (Some Example.root)
             (Some "https://github.com/yoona8030/sencity_backend.git")
             (fun _ uri => if String.eqb uri Example.api
                           then Some (Example.release "v4" (Some "")) else None)
             (fun _ uri => if String.eqb uri Example.db_url then Some "sencity v4" else None)
             (mkDateTime 2025 11 3 9 30 7) Example.crlf Example.no_fault in
  exists st',
    sync_db Example.sha256 w V2 default_params Example.at_v3 = (Throw DownloadError, st') /\
    fs st' !! tmpDownload w default_params = Some (File "sencity v4") /\
    fs st' !! targetDb Example.root = Some (File "sencity v3").
Proof.
  intros w.
  destruct (failed_download Example.sha256 w V2 default_params Example.root Example.at_v3
              "yoona8030" "sencity_backend" (Example.release "v4" (Some ""))
              (mkAsset "db_release.sqlite3" Example.db_url)) as [_ H].
  - reflexivity.
  - discriminate.
  - repeat split; try discriminate; try reflexivity.
    exists (Some "v3"). reflexivity.
  - reflexivity.
  - destruct (H "sencity v4" (mkAsset "db_release.sha256.txt" Example.sha_url)
                eq_refl eq_refl eq_refl) as (st' & Hrun & _ & Htmp & Hframe).
    exists st'. split; [exact Hrun |]. split; [exact Htmp |].
    rewrite Hframe by discriminate. reflexivity.
Defined.


(** ** The expected digest of variant 2 *)

Lemma TrimStart_split s :
  exists a, s = a +:+ Net.TrimStart s /\ all_space a = true.
Proof.
  induction s as [|c s (a & Hs & Ha)]; [now exists "" |].
  simpl. destruct (Net.IsWhiteSpace c) eqn:Hc.
  - exists (String c a). rewrite append_cons, <- Hs. simpl. now rewrite Hc, Ha.
  - now exists "".
Qed.

Lemma TrimEnd_split s :
  exists b, s = Net.TrimEnd s +:+ b /\ all_space b = true.
Proof.
  induction s as [|c s (b & Hs & Hb)]; [now exists "" |].
  simpl. destruct (Net.TrimEnd s) as [|d t] eqn:Ht.
  - rewrite append_nil_l in Hs. subst b.
    destruct (Net.IsWhiteSpace c) eqn:Hc.
    + exists (String c s). simpl. now rewrite Hc, Hb.
    + exists s. now rewrite Hb.
  - exists b. now rewrite append_cons, <- Hs.
Qed.

(** White space stands around what [Trim] keeps. *)
Lemma Trim_split s :
  exists a b, s = a +:+ Net.Trim s +:+ b /\ all_space a = true /\ all_space b = true.
Proof.
  unfold Net.Trim.
  destruct (TrimStart_split s) as (a & Hs & Ha).
  destruct (TrimEnd_split (Net.TrimStart s)) as (b & Ht & Hb).
  exists a, b. now rewrite <- Ht, <- Hs.
Qed.

Lemma space_not_hex c : Net.IsWhiteSpace c = true -> PS.hex c = false.
Proof.
  intros H. destruct (PS.hex c) eqn:Hh; [| reflexivity].
  apply hex_not_space in Hh. congruence.
Qed.

Lemma first_hex_run_space n a s :
  all_space a = true -> first_hex_run (S n) (a +:+ s) = first_hex_run (S n) s.
Proof.
  intros Ha. induction a as [|c a IH]; [reflexivity |].
  simpl in Ha. apply andb_true_iff in Ha as [Hc Ha].
  rewrite append_cons, first_hex_run_eq. cbn [run_of].
  rewrite (space_not_hex _ Hc). now apply IH.
Qed.

Lemma first_hex_run_leading h s :
  digest_text h -> first_hex_run 64 (h +:+ s) = Some h.
Proof.
  intros [Hlen Hhex]. rewrite first_hex_run_eq.
  rewrite <- Hlen at 1. rewrite (run_of_append _ _ _ Hhex).
  rewrite <- Hlen. now rewrite substring_prefix.
Qed.

Lemma first_hex_run_trimmed raw :
  digest_text (Net.Trim raw) -> first_hex_run 64 raw = Some (Net.Trim raw).
Proof.
  intros Hd. destruct (Trim_split raw) as (a & b & Hraw & Ha & _).
  rewrite Hraw at 1. rewrite (first_hex_run_space _ _ _ Ha).
  now apply first_hex_run_leading.
Qed.

Lemma ps_eq_digest a b : PS.eq a b = true -> digest_text b -> digest_text a.
Proof.
  unfold PS.eq. intros H%String.eqb_eq [Hlen Hhex]. split.
  - now rewrite <- (ToLower_length a), H, ToLower_length.
  - now rewrite <- (ToLower_hex a), H, ToLower_hex.
Qed.

(** X14: the expected digest of variant 2 is the first run of 64
    hexadecimal digits in the checksum text, lower-cased, whenever the text
    has one, so that the test for an exact digest decides nothing; only a
    text without such a run is taken whole, trimmed and lower-cased.
    Against a hash of 64 hexadecimal digits a checksum text is accepted
    exactly when its first such run is [-eq] to the hash; a text without a
    run is never accepted. *)
Theorem expected_digest_v2 raw :
  extract_v2 raw =
    match first_hex_run 64 raw with
    | Some h => Net.ToLower h
    | None => Net.ToLower (Net.Trim raw)
    end /\
  (forall hash, digest_text hash ->
     (digest_accepted V2 raw hash = true <->
      exists h, first_hex_run 64 raw = Some h /\ PS.eq h hash = true)).
Proof.
  assert (Hspec : extract_v2 raw =
                  match first_hex_run 64 raw with
                  | Some h => Net.ToLower h
                  | None => Net.ToLower (Net.Trim raw)
                  end).
  { rewrite extract_v2_spec. cbv zeta.
    destruct (matches (Net.ToLower (Net.Trim raw)) Patterns.exact_digest) eqn:Hm;
      [| reflexivity].
    apply exact_digest_iff in Hm. now rewrite (first_hex_run_trimmed _ Hm). }
  split; [exact Hspec |].
  intros hash Hhash. unfold digest_accepted. rewrite Hspec.
  destruct (first_hex_run 64 raw) as [h |] eqn:Hrun.
  - assert (Hraw : PS.truthy raw = true).
    { apply truthy_true. intros ->. now rewrite first_hex_run_nil in Hrun. }
    rewrite Hraw, ps_eq_lower_l. cbn [andb].
    split; [eauto | now intros (h' & [= <-] & H)].
  - rewrite ps_eq_lower_l. split; [| now intros (h' & [=] & _)].
    intros [_ Heq]%andb_true_iff. apply ps_eq_digest in Heq; [| exact Hhash].
    apply first_hex_run_trimmed in Heq. congruence.
Qed.
(** ** Checksum texts both variants read alike *)

(** X15: on a checksum text that starts with the digest, followed by a
    blank and anything (the form [sha256sum] prints), both variants accept
    a download exactly when the digest is [-eq] to its hash. *)
Theorem digest_first_both_variants v h rest hash :
  digest_text h ->
  digest_accepted v (h +:+ " " +:+ rest) hash = PS.eq h hash.
Proof.
  intros Hh. destruct v; unfold digest_accepted.
  - now rewrite (extract_v1_leading _ rest Hh).
  - assert (Hraw : PS.truthy (h +:+ " " +:+ rest) = true).
    { apply truthy_true. pose proof (digest_text_nonempty _ Hh).
      destruct h; [congruence | discriminate]. }
    now rewrite Hraw, (extract_v2_leading _ (" " +:+ rest) Hh), ps_eq_lower_l.
Qed.

Lemma digest_first_both_variants_witness :
  let h := "AF393DFB468C5E0EA869DDB90BBFEF72DB7B093DEEE061C82791055EBA84F58E" in
  digest_accepted V1 (h +:+ " " +:+ "*db_release.sqlite3") (Example.sha256 "sencity v4") = true.
Proof.
  intros h.
  rewrite (digest_first_both_variants V1 h "*db_release.sqlite3" (Example.sha256 "sencity v4")).
  - reflexivity.
  - split; reflexivity.
Defined.


(** ** The paths a run writes *)

Lemma replace_frame w P root rel st r st' :
  replace w P root rel st = (r, st') ->
  forall p, p <> targetDb root -> p <> versionFile root -> p <> tmpDownload w P ->
            p <> backupPath w root -> fs st' !! p = fs st !! p.
Proof.
  intros Hrun p H1 H2 H3 H4.
  unfold replace, backup_then_replace in Hrun.
  change (targetDb root +:+ ".bak." +:+ Format_yyyyMMdd_HHmmss (Get_Date w))
    with (backupPath w root) in Hrun.
  unfold_cmdlets. unfold exists_at in *. simpl in Hrun.
  repeat (case_hyp Hrun; simpl in Hrun; try discriminate).
  all: injection Hrun as <- <-; simpl; now simplify_map_eq.
Qed.

(** X16: whatever its outcome, a run leaves every path of the file system
    as it was but five: the replica, the marker, the backup path of the
    run, and the two scratch files for the data and the checksum asset. *)
Theorem run_writes_five_paths SHA256 w v P root st r st' :
  repo_root w v = Some root ->
  sync_db SHA256 w v P st = (r, st') ->
  forall p,
    p <> targetDb root -> p <> versionFile root -> p <> backupPath w root ->
    p <> tmpDownload w P -> p <> shaTmp w P ->
    fs st' !! p = fs st !! p.
Proof.
  intros Hroot Hrun p H1 H2 H3 H4 H5.
  destruct (sync_db_cases _ _ _ _ _ _ _ _ Hroot Hrun)
    as [[Hfs _] | (o & n & rel & st1 & _ & Hfs1 & _ & Hcase)];
    [now rewrite Hfs |].
  destruct (stage SHA256 w v P rel st1) as [[[] | c | e] st2] eqn:Hstage;
    [| destruct Hcase | destruct Hcase as [_ ->]];
    pose proof (stage_frame _ _ _ _ _ _ _ _ Hstage p H4 H5) as Hframe;
    rewrite Hfs1 in Hframe; [| exact Hframe].
  rewrite <- Hframe. now apply (replace_frame _ _ _ _ _ _ _ Hcase).
Qed.

Lemma run_writes_five_paths_witness :
  let w := Example.world "v4" "sencity v4" None Example.no_fault in
  let st := mkState (<["C:\repo\manage.py" := File "import os"]> (fs Example.at_v3)) [] in
  let run := sync_db Example.sha256 w V2 default_params st in
  fst run = Ok tt /\ fs (snd run) !! "C:\repo\manage.py" = Some (File "import os").
Proof.
  intros w st run. split; [reflexivity |].
  rewrite (run_writes_five_paths Example.sha256 w V2 default_params Example.root st
             (fst run) (snd run)).
  - reflexivity.
  - reflexivity.
  - apply surjective_pairing.
  - discriminate.
  - discriminate.
  - discriminate.
  - discriminate.
  - discriminate.
Defined.

(** ** Backups are kept *)

(** X17: no run, whatever its outcome, removes or changes a backup, but
    for the one at the backup path of the run, which can only receive the
    replica that was there before the run. *)
Theorem backups_are_kept SHA256 w v P root st r st' :
  repo_root w v = Some root ->
  scratch_apart root w P ->
  sync_db SHA256 w v P st = (r, st') ->
  forall p, is_backup root p = true ->
    fs st' !! p = fs st !! p \/
    (p = backupPath w root /\
     exists old, fs st !! targetDb root = Some old /\ fs st' !! p = Some old).
Proof.
  intros Hroot (A1 & A2 & A3 & A4 & A5 & A6) Hrun p Hb.
  destruct (sync_db_cases _ _ _ _ _ _ _ _ Hroot Hrun)
    as [[Hfs _] | (o & n & rel & st1 & _ & Hfs1 & _ & Hcase)];
    [left; now rewrite Hfs |].
  destruct (stage SHA256 w v P rel st1) as [[[] | c | e] st2] eqn:Hstage;
    [rename Hcase into Hrep | destruct Hcase | destruct Hcase as [_ ->]];
    pose proof (stage_frame _ _ _ _ _ _ _ _ Hstage) as Hframe;
    rewrite Hfs1 in Hframe.
  2: { left. apply Hframe; intros ->; congruence. }
  destruct (replace_inv _ _ _ _ _ _ _ A1 A2 A5 Hrep) as (_ & Rframe & Rbak & _).
  assert (Hp : fs st2 !! p = fs st !! p) by (apply Hframe; intros ->; congruence).
  destruct (String.eqb_spec p (backupPath w root)) as [-> | Hne].
  - destruct Rbak as [Rb | [[old Hold] Rb]]; [left; congruence |].
    right. split; [reflexivity |]. exists old.
    rewrite (Hframe (targetDb root)) in Hold by congruence.
    split; [exact Hold |].
    rewrite Rb, (Hframe (targetDb root)) by congruence. exact Hold.
  - left. rewrite <- Hp. apply Rframe; try exact Hne.
    + intros ->. now rewrite is_backup_targetDb in Hb.
    + intros ->. now rewrite is_backup_versionFile in Hb.
    + intros ->. congruence.
Qed.

Lemma backups_are_kept_witness :
  let w := Example.world "v4" "sencity v4" None Example.no_fault in
  let old := "C:\repo\db.sqlite3.bak.20240101-000000" in
  let st := mkState (<[old := File "sencity v2"]> (fs Example.at_v3)) [] in
  let run := sync_db Example.sha256 w V1 default_params st in
  fst run = Ok tt /\ fs (snd run) !! old = Some (File "sencity v2").
Proof.
  intros w old st run. split; [reflexivity |].
  destruct (backups_are_kept Example.sha256 w V1 default_params Example.root st
              (fst run) (snd run)) with (p := old) as [H | [H _]].
  - reflexivity.
  - repeat split; (discriminate || reflexivity).
  - apply surjective_pairing.
  - reflexivity.
  - rewrite H. reflexivity.
  - discriminate H.
Defined.

(** ** What a run asks of the release store *)

Lemma stage_same_store SHA256 w w' v P rel st :
  same_but_store w w' ->
  (forall uri, Invoke_WebRequest w octet_headers uri = Invoke_WebRequest w' octet_headers uri) ->
  stage SHA256 w v P rel st = stage SHA256 w' v P rel st.
Proof.
  intros (_ & Htemp & _) Hweb.
  unfold stage, verify, tmpDownload, shaTmp, expected_v1, expected_v2.
  unfold_cmdlets. rewrite <- Htemp. simpl.
  destruct v;
    repeat (rewrite <- ?Hweb; case_goal; simpl; try reflexivity; try congruence).
Qed.

Lemma replace_same_store w w' P root rel st :
  same_but_store w w' ->
  replace w P root rel st = replace w' P root rel st.
Proof.
  intros (_ & Htemp & _ & _ & _ & Hdate & Hnl & Hfault).
  unfold replace, backup_then_replace, tmpDownload.
  unfold_cmdlets. now rewrite <- Htemp, <- Hdate, <- Hnl, <- Hfault.
Qed.

Lemma locate_same_store w w' P st :
  same_but_store w w' -> locate w P st = locate w' P st.
Proof.
  intros (_ & _ & _ & _ & Hurl & _). unfold locate. unfold_cmdlets.
  now rewrite <- Hurl.
Qed.

(** X18: a run sees the release store through two kinds of request only:
    the release query with the headers [Accept: application/vnd.github+json]
    and, with a token, [Authorization: Bearer <token>]; and downloads with
    the single header [Accept: application/octet-stream].  Whatever the
    store would answer to other headers does not change the run; so no
    download ever carries the token. *)
Theorem store_seen_through_two_requests SHA256 w w' v P st :
  same_but_store w w' ->
  (forall uri, Invoke_RestMethod w (release_headers w) uri =
               Invoke_RestMethod w' (release_headers w) uri) ->
  (forall uri, Invoke_WebRequest w octet_headers uri =
               Invoke_WebRequest w' octet_headers uri) ->
  sync_db SHA256 w v P st = sync_db SHA256 w' v P st.
Proof.
  intros Hsame Hrest Hweb.
  assert (Hroot : repo_root w' v = repo_root w v).
  { destruct Hsame as (Hps & _ & _ & Htop & _).
    destruct v; unfold repo_root, Get_RepoRoot_v2; now rewrite <- ?Hps, <- ?Htop. }
  assert (Hheaders : release_headers w' = release_headers w).
  { destruct Hsame as (_ & _ & Htok & _). unfold release_headers. now rewrite Htok. }
  destruct (repo_root w v) as [root |] eqn:Hr.
  2: { rewrite !sync_db_no_root; [reflexivity | congruence | exact Hr]. }
  rewrite !sync_db_staged,
    (staged_from_root _ _ _ _ _ _ Hr), (staged_from_root _ _ _ _ _ _ Hroot).
  rewrite <- (locate_same_store _ _ _ _ Hsame).
  destruct (locate w P st) as [[[o n] | c | e] st0]; try reflexivity.
  assert (Hpaths : paths_bound w' root = paths_bound w root).
  { destruct Hsame as (_ & Htemp & _). unfold paths_bound. now rewrite Htemp. }
  rewrite !continue_with_run, Hpaths. cbv zeta. rewrite Hheaders, <- Hrest.
  destruct (paths_bound w root); [| reflexivity].
  destruct (Invoke_RestMethod w _ _) as [rel |]; [| reflexivity].
  destruct (local_tag v (fs st0) root); [| reflexivity].
  destruct (shouldSkip v (fs st0) root (tag_name rel)); [reflexivity |].
  unfold mbind, Script_bind, bind.
  rewrite <- (stage_same_store _ _ _ _ _ _ _ Hsame Hweb).
  destruct (stage SHA256 w v P rel _) as [[[] | c | e] st2]; try reflexivity.
  apply (replace_same_store _ _ _ _ _ _ Hsame).
Qed.

Lemma store_seen_through_two_requests_witness :
  let w := Example.world "v4" "sencity v4" None Example.no_fault in
  let w' :=
    mkWorld "C:\repo\scripts" "C:\Temp" "" (Some Example.root)
      (Some "https://github.com/yoona8030/sencity_backend.git")
      (Invoke_RestMethod w)
      (fun h uri => if existsb (fun kv => String.eqb (fst kv) "Authorization") h
                    then Some "private" else Invoke_WebRequest w h uri)
      (mkDateTime 2025 11 3 9 30 7) Example.crlf Example.no_fault in
  sync_db Example.sha256 w V2 default_params Example.at_v3 =
  sync_db Example.sha256 w' V2 default_params Example.at_v3.
Proof.
  intros w w'.
  apply (store_seen_through_two_requests Example.sha256 w w').
  - repeat split.
  - reflexivity.
  - reflexivity.
Defined.

(** ** The two variants side by side *)

(** Both variants can read a marker that is not an empty file, or
    neither can. *)
Lemma local_tag_both m root :
  m !! versionFile root <> Some (File "") ->
  match local_tag V1 m root, local_tag V2 m root with
  | Some _, Some _ | None, None => True
  | _, _ => False
  end.
Proof.
  unfold local_tag. intros H.
  destruct (m !! versionFile root) as [[raw |] |]; try exact I.
  destruct (PS.truthy raw) eqn:Hraw; [exact I |].
  apply truthy_false in Hraw. congruence.
Qed.

(** The variants from the answer of the locator on: the same run when the
    marker is not an empty file, the skip decision is the same, and the
    checksum text that is served is empty or accepted by both. *)
Lemma continue_with_agree SHA256 w P root o n st :
  tmpDownload w P <> shaTmp w P ->
  fs st !! versionFile root <> Some (File "") ->
  (forall rel, Invoke_RestMethod w (release_headers w) (release_uri o n) = Some rel ->
     shouldSkip V1 (fs st) root (tag_name rel) = shouldSkip V2 (fs st) root (tag_name rel) /\
     forall asset body shaAsset raw,
       find_asset rel (AssetName P) = Some asset ->
       Invoke_WebRequest w octet_headers (browser_download_url asset) = Some body ->
       find_asset rel (ShaAssetName P) = Some shaAsset ->
       Invoke_WebRequest w octet_headers (browser_download_url shaAsset) = Some raw ->
       raw = "" \/
       (digest_accepted V1 raw (SHA256 body) = true /\
        digest_accepted V2 raw (SHA256 body) = true)) ->
  continue_with SHA256 w V1 P root (o, n) st = continue_with SHA256 w V2 P root (o, n) st.
Proof.
  intros Hne Hmarker Hrel. rewrite !continue_with_run. cbv zeta.
  destruct (paths_bound w root); [| reflexivity].
  destruct (Invoke_RestMethod w _ _) as [rel |]; [| reflexivity].
  destruct (Hrel rel eq_refl) as [Hskip Hsum].
  pose proof (local_tag_both (fs st) root Hmarker) as Hboth.
  destruct (local_tag V1 (fs st) root), (local_tag V2 (fs st) root);
    try contradiction; [| reflexivity].
  rewrite Hskip.
  destruct (shouldSkip V2 (fs st) root (tag_name rel)); [reflexivity |].
  unfold mbind, Script_bind, bind.
  rewrite !(stage_run _ _ _ _ _ _ Hne).
  destruct (find_asset rel (AssetName P)) as [asset |] eqn:Ha; [| reflexivity].
  cbv zeta.
  destruct (Invoke_WebRequest w octet_headers (browser_download_url asset))
    as [body |] eqn:Hb; [| reflexivity].
  destruct (find_asset rel (ShaAssetName P)) as [shaAsset |] eqn:Hs; [| reflexivity].
  destruct (Invoke_WebRequest w octet_headers (browser_download_url shaAsset))
    as [raw |] eqn:Hr; [| reflexivity].
  destruct (Hsum _ _ _ _ eq_refl Hb eq_refl Hr) as [-> | [-> ->]]; reflexivity.
Qed.

Lemma variants_agree_from_root SHA256 w P root st :
  git_toplevel w = Some root ->
  Get_RepoRoot_v2 w = root ->
  (forall o n st0, locate w P st = (Ok (o, n), st0) ->
     continue_with SHA256 w V1 P root (o, n) st0 =
     continue_with SHA256 w V2 P root (o, n) st0) ->
  sync_db SHA256 w V1 P st = sync_db SHA256 w V2 P st.
Proof.
  intros H1 H2 Hgo. rewrite !sync_db_staged.
  rewrite (staged_from_root _ _ V1 _ root) by exact H1.
  rewrite (staged_from_root _ _ V2 _ root) by (simpl; now rewrite H2).
  destruct (locate w P st) as [[[o n] | c | e] st0] eqn:Hloc; try reflexivity.
  now apply Hgo.
Qed.

Lemma shouldSkip_no_replica v m root tag :
  exists_at m (targetDb root) = false -> shouldSkip v m root tag = false.
Proof.
  intros H. unfold shouldSkip. rewrite H.
  destruct (local_tag v m root); [apply andb_false_r | reflexivity].
Qed.

Lemma shouldSkip_marker v m root tag raw :
  m !! versionFile root = Some (File raw) ->
  shouldSkip v m root tag =
    PS.truthy raw && PS.eq tag (match v with V1 => raw | V2 => Net.Trim raw end) &&
    exists_at m (targetDb root).
Proof.
  intros H. unfold shouldSkip, local_tag. rewrite H.
  destruct (PS.truthy raw); [reflexivity |]. now destruct v.
Qed.

Lemma shouldSkip_no_marker v m root tag :
  m !! versionFile root = None ->
  shouldSkip v m root tag = PS.eq tag "" && exists_at m (targetDb root).
Proof. intros H. unfold shouldSkip, local_tag. now rewrite H. Qed.

(** C8, as amended: the two variants do the same, result, file system and
    requests, when they work in the same root, with scratch files for the
    two assets that differ, the marker is not an empty file, they make the
    same skip decision for the release the store serves, and the checksum
    text of that release, when one is served, is empty or accepted by both.
    They make the same skip decision when there is no replica or no marker,
    and when the remote tag is [-eq] to both or to neither of the marker
    text and the marker text trimmed. *)
Theorem variants_agree SHA256 w P root st :
  git_toplevel w = Some root ->
  Get_RepoRoot_v2 w = root ->
  tmpDownload w P <> shaTmp w P ->
  fs st !! versionFile root <> Some (File "") ->
  (forall h u rel, Invoke_RestMethod w h u = Some rel ->
     shouldSkip V1 (fs st) root (tag_name rel) = shouldSkip V2 (fs st) root (tag_name rel)) ->
  (forall h u rel asset body shaAsset raw,
     Invoke_RestMethod w h u = Some rel ->
     find_asset rel (AssetName P) = Some asset ->
     Invoke_WebRequest w octet_headers (browser_download_url asset) = Some body ->
     find_asset rel (ShaAssetName P) = Some shaAsset ->
     Invoke_WebRequest w octet_headers (browser_download_url shaAsset) = Some raw ->
     raw = "" \/
     (digest_accepted V1 raw (SHA256 body) = true /\
      digest_accepted V2 raw (SHA256 body) = true)) ->
  sync_db SHA256 w V1 P st = sync_db SHA256 w V2 P st /\
  (forall tag,
     exists_at (fs st) (targetDb root) = false \/ fs st !! versionFile root = None ->
     shouldSkip V1 (fs st) root tag = shouldSkip V2 (fs st) root tag) /\
  (forall tag raw,
     fs st !! versionFile root = Some (File raw) ->
     PS.eq tag raw = PS.eq tag (Net.Trim raw) ->
     shouldSkip V1 (fs st) root tag = shouldSkip V2 (fs st) root tag).
Proof.
  intros H1 H2 Hne Hmarker Hskip Hsum. split; [| split].
  - apply (variants_agree_from_root _ _ _ root); try assumption.
    intros o n st0 Hloc. apply continue_with_agree; try assumption.
    + now rewrite (locate_fs _ _ _ _ _ Hloc).
    + intros rel Hrel. rewrite (locate_fs _ _ _ _ _ Hloc).
      split; [exact (Hskip _ _ _ Hrel) |].
      intros asset body shaAsset raw. exact (Hsum _ _ _ _ _ _ _ Hrel).
  - intros tag [H | H].
    + now rewrite !shouldSkip_no_replica.
    + now rewrite !shouldSkip_no_marker.
  - intros tag raw Hraw Heq. rewrite !(shouldSkip_marker _ _ _ _ _ Hraw). now rewrite Heq.
Qed.

(** A checkout at release v3, as the scripts leave it, and release v4 with
    a checksum text in the form of [sha256sum]. *)
Lemma variants_agree_witness :
  let checksum :=
    "af393dfb468c5e0ea869ddb90bbfef72db7b093deee061c82791055eba84f58e  db_release.sqlite3" in
  let w := Example.world "v4" "sencity v4" (Some checksum) Example.no_fault in
  fs Example.at_v3 !! versionFile Example.root = Some (File ("v3" +:+ Example.crlf)) /\
  sync_db Example.sha256 w V1 default_params Example.at_v3 =
    sync_db Example.sha256 w V2 default_params Example.at_v3 /\
  fst (sync_db Example.sha256 w V1 default_params Example.at_v3) = Ok tt.
Proof.
  intros checksum w. split; [reflexivity |]. split; [| reflexivity].
  apply (variants_agree Example.sha256 w default_params Example.root Example.at_v3).
  - reflexivity.
  - reflexivity.
  - discriminate.
  - discriminate.
  - intros h u rel Hrel. simpl in Hrel.
    destruct (String.eqb u Example.api); [| discriminate].
    injection Hrel as <-. reflexivity.
  - intros h u rel asset body shaAsset raw Hrel Ha Hb Hs Hr. simpl in Hrel.
    destruct (String.eqb u Example.api); [| discriminate].
    injection Hrel as <-. vm_compute in Ha, Hs.
    injection Ha as <-. injection Hs as <-.
    vm_compute in Hb, Hr. injection Hb as <-. injection Hr as <-.
    right. split; reflexivity.
Defined.

(** C8 as stated fails: in a checkout at release v3, whose marker was
    written by [Set-Content], and with v3 the latest release, variant 2
    skips and variant 1 downloads and installs; the two extract different
    digests from a tagged checksum text; after a mismatch the staged
    artifact is there for variant 1 and gone for variant 2; and with an
    empty marker file variant 1 installs where variant 2 ends with the
    error of a method call on [$null]. *)
Lemma variants_differ :
  let w := Example.world "v3" "sencity v3" None Example.no_fault in
  let run1 := sync_db Example.sha256 w V1 default_params Example.at_v3 in
  let run2 := sync_db Example.sha256 w V2 default_params Example.at_v3 in
  let tagged :=
    "SHA256 (db_release.sqlite3) = " +:+
    "3be1f6624e828d73362db49ff35fd0daaa06570b3a0068c87c85506fb3d811aa" in
  let w' := Example.world "v4" "sencity v4" (Some tagged) Example.no_fault in
  let run1' := sync_db Example.sha256 w' V1 default_params Example.at_v3 in
  let run2' := sync_db Example.sha256 w' V2 default_params Example.at_v3 in
  shouldSkip V1 (fs Example.at_v3) Example.root "v3" = false /\
  shouldSkip V2 (fs Example.at_v3) Example.root "v3" = true /\
  fst run1 = Ok tt /\ fst run2 = Exit 0 /\
  map_to_list (fs (snd run1)) <> map_to_list (fs (snd run2)) /\
  log (snd run1) <> log (snd run2) /\
  extract_v1 tagged <> Some (extract_v2 tagged) /\
  fst run1' = Throw IntegrityError /\ fst run2' = Throw IntegrityError /\
  fs (snd run1') !! tmpDownload w' default_params = Some (File "sencity v4") /\
  fs (snd run2') !! tmpDownload w' default_params = None /\
  fst (sync_db Example.sha256 w V1 default_params Example.empty_marker) = Ok tt /\
  fst (sync_db Example.sha256 w V2 default_params Example.empty_marker) =
    Throw (RuntimeError "null-valued expression").
Proof. vm_compute. repeat split; discriminate. Qed.

(** ** Upgrades *)

Lemma ends_with_space_written t nl :
  line_terminator nl -> ends_with_space (t +:+ nl) = true.
Proof.
  intros [-> | ->]; [| apply ends_with_space_append_LF].
  change (String Net.CR (String Net.LF "")) with (String Net.CR "" +:+ String Net.LF "").
  rewrite <- append_assoc. apply ends_with_space_append_LF.
Qed.

Lemma ps_eq_ends a b : PS.eq a b = true -> ends_with_space a = ends_with_space b.
Proof.
  unfold PS.eq. intros H%String.eqb_eq.
  now rewrite <- (ToLower_ends a), H, ToLower_ends.
Qed.

(** X19: an upgrade seen by both variants.  In a checkout whose marker is
    what [Set-Content] wrote for a tag, and with the store serving a release
    whose tag is another one (not [-eq] to the tag of the marker, trimmed,
    and without white space at its end), neither variant skips, and the two
    do the same, result, file system and requests, when the checksum text
    of the release, if one is served, is empty or accepted by both. *)
Theorem variants_agree_on_upgrade SHA256 w P root st old :
  git_toplevel w = Some root ->
  Get_RepoRoot_v2 w = root ->
  tmpDownload w P <> shaTmp w P ->
  line_terminator (NewLine w) ->
  fs st !! versionFile root = Some (File (old +:+ NewLine w)) ->
  (forall h u rel, Invoke_RestMethod w h u = Some rel ->
     PS.eq (tag_name rel) (Net.Trim old) = false /\
     ends_with_space (tag_name rel) = false) ->
  (forall h u rel asset body shaAsset raw,
     Invoke_RestMethod w h u = Some rel ->
     find_asset rel (AssetName P) = Some asset ->
     Invoke_WebRequest w octet_headers (browser_download_url asset) = Some body ->
     find_asset rel (ShaAssetName P) = Some shaAsset ->
     Invoke_WebRequest w octet_headers (browser_download_url shaAsset) = Some raw ->
     raw = "" \/
     (digest_accepted V1 raw (SHA256 body) = true /\
      digest_accepted V2 raw (SHA256 body) = true)) ->
  sync_db SHA256 w V1 P st = sync_db SHA256 w V2 P st /\
  (forall h u rel v, Invoke_RestMethod w h u = Some rel ->
     shouldSkip v (fs st) root (tag_name rel) = false).
Proof.
  intros H1 H2 Hne Hnl Hmarker Htags Hsum.
  assert (Hnoskip : forall h u rel v, Invoke_RestMethod w h u = Some rel ->
            shouldSkip v (fs st) root (tag_name rel) = false).
  { intros h u rel v Hrel. destruct (Htags _ _ _ Hrel) as [Hother Hend].
    rewrite (shouldSkip_marker _ _ _ _ _ Hmarker).
    replace (PS.eq (tag_name rel) _) with false; [now rewrite andb_false_r |].
    symmetry. destruct v.
    - destruct (PS.eq (tag_name rel) (old +:+ NewLine w)) eqn:He; [| reflexivity].
      apply ps_eq_ends in He. rewrite Hend, (ends_with_space_written _ _ Hnl) in He.
      discriminate.
    - now rewrite (Trim_append_space _ _ (line_terminator_space _ Hnl)). }
  split; [| exact Hnoskip].
  apply (variants_agree_from_root _ _ _ root); try assumption.
  intros o n st0 Hloc. apply continue_with_agree; try assumption.
  - rewrite (locate_fs _ _ _ _ _ Hloc), Hmarker. intros [= H].
    apply (written_not_empty old _ (line_terminator_not_empty _ Hnl)). exact H.
  - intros rel Hrel. rewrite (locate_fs _ _ _ _ _ Hloc).
    split; [now rewrite !(Hnoskip _ _ _ _ Hrel) |].
    intros asset body shaAsset raw. exact (Hsum _ _ _ _ _ _ _ Hrel).
Qed.

Lemma variants_agree_on_upgrade_witness :
  let w := Example.world "v4" "sencity v4" None Example.no_fault in
  sync_db Example.sha256 w V1 default_params Example.at_v3 =
    sync_db Example.sha256 w V2 default_params Example.at_v3 /\
  shouldSkip V1 (fs Example.at_v3) Example.root "v4" = false.
Proof.
  intros w.
  destruct (variants_agree_on_upgrade Example.sha256 w default_params Example.root
              Example.at_v3 "v3") as [Hrun Hskip].
  - reflexivity.
  - reflexivity.
  - discriminate.
  - left. reflexivity.
  - reflexivity.
  - intros h u rel Hrel. simpl in Hrel.
    destruct (String.eqb u Example.api); [| discriminate].
    injection Hrel as <-. split; reflexivity.
  - intros h u rel asset body shaAsset raw Hrel Ha Hb Hs Hr. simpl in Hrel.
    destruct (String.eqb u Example.api); [| discriminate].
    injection Hrel as <-. discriminate Hs.
  - split; [exact Hrun |].
    apply (Hskip [] Example.api (Example.release "v4" None) V1). reflexivity.
Defined.

(** ** The installer, whatever happens to a write *)

(** The loop of the installer over any list of hook names: the names are
    served in order, and the first write that fails ends the loop. *)
Lemma foreach_stubs w hooks v ts st r st' :
  foreach ts (fun t => Set_Content w (slot hooks t) v) st = (r, st') ->
  log st' = log st /\
  exists done rest,
    ts = done ++ rest /\
    (forall t, In t done -> fs st' !! slot hooks t = Some (File (v +:+ NewLine w))) /\
    (forall p, (forall t, In t done -> p <> slot hooks t) -> fs st' !! p = fs st !! p) /\
    match rest with
    | [] => r = Ok tt
    | t :: _ =>
        r = Throw (RuntimeError "Set-Content") /\
        (fault w SetContent (slot hooks t) = true \/
         fs st' !! slot hooks t = Some Directory)
    end.
Proof.
  revert st. induction ts as [|t ts IH]; intros st Hrun.
  - injection Hrun as <- <-. split; [reflexivity |]. exists [], [].
    repeat split; auto. intros t [].
  - cbn [foreach] in Hrun. unfold mbind, Script_bind, bind in Hrun.
    destruct (Set_Content w (slot hooks t) v st) as [[[] | c | e] st1] eqn:Hset.
    + assert (Hst1 : st1 = write_file (slot hooks t) (v +:+ NewLine w) st).
      { unfold Set_Content in Hset. destruct (fault w SetContent _); [discriminate |].
        destruct (fs st !! slot hooks t) as [[] |]; congruence. }
      destruct (IH _ Hrun) as (Hlog & done & rest & -> & Hdone & Hframe & Hrest).
      split; [now rewrite Hlog, Hst1 |].
      exists (t :: done), rest. split; [reflexivity |].
      split; [| split; [| exact Hrest]].
      * intros t' [<- | Hin]; [| now apply Hdone].
        destruct (in_dec string_dec t done) as [Hin | Hout]; [now apply Hdone |].
        rewrite Hframe.
        -- subst st1. simpl. apply lookup_insert_eq.
        -- intros t' Hin E%slot_inj. congruence.
      * intros p Hp. rewrite Hframe by (intros t' Hin; apply Hp; now right).
        subst st1. simpl. apply lookup_insert_ne.
        intros E. apply (Hp t); [now left | now symmetry].
    + unfold Set_Content in Hset. destruct (fault w SetContent _); [discriminate |].
      destruct (fs st !! slot hooks t) as [[] |]; discriminate.
    + injection Hrun as <- <-.
      assert (Hwhy : e = RuntimeError "Set-Content" /\ st1 = st /\
                (fault w SetContent (slot hooks t) = true \/
                 fs st !! slot hooks t = Some Directory)).
      { unfold Set_Content in Hset. destruct (fault w SetContent _).
        - injection Hset as <- <-. auto.
        - destruct (fs st !! slot hooks t) as [[] |]; try discriminate.
          injection Hset as <- <-. auto. }
      destruct Hwhy as (-> & -> & Hwhy).
      split; [reflexivity |]. exists [], (t :: ts).
      repeat split; auto. intros t' [].
Qed.

(** X20: the installer with its hook directory in place, whatever becomes
    of the three writes.  The slots are written in the order post-checkout,
    post-merge, post-rewrite; a write that fails (the cmdlet is made to
    fail, or the slot is a directory) ends the run there with the slots
    before it holding the stub and everything else as it was, so an
    installation can be partial; the run sends no request. *)
Theorem installer_partial w st hooks r st' :
  hooks_dir w (fs st) = Some hooks ->
  exists_at (fs st) hooks = true ->
  install_hooks w st = (r, st') ->
  log st' = log st /\
  exists done rest,
    targets = done ++ rest /\
    (forall t, In t done -> fs st' !! slot hooks t = Some (stub w)) /\
    (forall p, (forall t, In t done -> p <> slot hooks t) -> fs st' !! p = fs st !! p) /\
    match rest with
    | [] => r = Ok tt
    | t :: _ =>
        r = Throw (RuntimeError "Set-Content") /\
        (fault w SetContent (slot hooks t) = true \/
         fs st !! slot hooks t = Some Directory)
    end.
Proof.
  intros Hdir Hex Hrun. rewrite install_hooks_run, Hdir, Hex in Hrun.
  destruct (foreach_stubs _ _ _ _ _ _ _ Hrun)
    as (Hlog & done & rest & Hts & Hdone & Hframe & Hrest).
  split; [exact Hlog |]. exists done, rest.
  split; [exact Hts |]. split; [exact Hdone |]. split; [exact Hframe |].
  destruct rest as [|t rest]; [exact Hrest |].
  destruct Hrest as [Hr Hwhy]. split; [exact Hr |].
  rewrite <- (Hframe (slot hooks t)); [exact Hwhy |].
  intros t' Hin E%slot_inj. subst t'.
  assert (Hnd : List.NoDup targets).
  { unfold targets. repeat (apply List.NoDup_cons; [simpl; intuition discriminate |]).
    apply List.NoDup_nil. }
  rewrite Hts in Hnd. apply List.NoDup_remove_2 in Hnd. apply Hnd, in_app_iff. now left.
Qed.

Lemma installer_partial_witness :
  let locked (c : Cmdlet) (p : string) :=
    match c with
    | SetContent => String.eqb p "C:\repo\.git\hooks\post-merge.bat"
    | _ => false
    end in
  let w := mkWorld "C:\repo\scripts" "C:\Temp" "" None None
             (fun _ _ => None) (fun _ _ => None) (mkDateTime 2025 11 3 9 30 7)
             Example.crlf locked in
  let run := install_hooks w Example.cloned in
  fst run = Throw (RuntimeError "Set-Content") /\
  log (snd run) = [] /\
  fs (snd run) !! "C:\repo\.git\hooks\post-checkout.bat" = Some (stub w) /\
  fs (snd run) !! "C:\repo\.git\hooks\post-merge.bat" = Some (File "old stub").
Proof.
  intros locked w run.
  destruct (installer_partial w Example.cloned "C:\repo\.git\hooks" (fst run) (snd run))
    as (Hlog & _).
  - reflexivity.
  - reflexivity.
  - apply surjective_pairing.
  - split; [reflexivity |]. split; [exact Hlog |]. split; reflexivity.
Defined.
